(** * A product catalogue over an in-memory array: the SAP UI5 sample
      application (webapp/) and its formatter, embedded and verified.

    The development has two parts.  Part I embeds the JavaScript the
    controllers rely on (strings, numbers, [parseInt], [parseFloat],
    [Number.prototype.toString], [Number.prototype.toFixed], objects
    in property order), the UI5 client-side filter, the object store
    with the products array, and the controllers themselves.  Part II states and proves the
    properties of the specification, and then further properties of
    the handlers. *)

From Stdlib Require Import ZArith NArith Strings.String Strings.Ascii List Lia Bool.
From stdpp Require Import base option list strings.

Local Open Scope string_scope.

(* ================================================================== *)
(** * Part I.  The embedding                                            *)
(* ================================================================== *)

(** ** JavaScript strings, numbers and values *)

Module JS.

(** A string is a sequence of code units; the model carries the code
    units below 256, which is all the application's own text uses. *)

Definition code (c : ascii) : N := N_of_ascii c.

(** WhiteSpace and LineTerminator code units (TAB, LF, VT, FF, CR, SP,
    NBSP), as stripped by [parseInt] and [parseFloat]. *)
Definition is_white_space (c : ascii) : bool :=
  let n := code c in
  ((9 <=? n) && (n <=? 13) || (n =? 32) || (n =? 160))%N.

Fixpoint trim_start (s : string) : string :=
  match s with
  | String c r => if is_white_space c then trim_start r else s
  | EmptyString => EmptyString
  end.

Definition digit_of (c : ascii) : option N :=
  let n := code c in
  if ((48 <=? n) && (n <=? 57))%N then Some (n - 48)%N else None.

Definition digit_char (d : N) : ascii := ascii_of_N (48 + d).

(** Longest prefix of decimal digits: its value on top of [acc], the
    number of digits read, and the rest of the string. *)
Fixpoint scan_digits (s : string) (acc : N) (count : nat) : N * nat * string :=
  match s with
  | String c r =>
      match digit_of c with
      | Some d => scan_digits r (acc * 10 + d)%N (S count)
      | None => (acc, count, s)
      end
  | EmptyString => (acc, count, s)
  end.

Fixpoint decimal_digits (fuel : nat) (n : N) (acc : string) : string :=
  match fuel with
  | O => acc
  | S fuel' =>
      let acc' := String (digit_char (n mod 10)) acc in
      if (n <? 10)%N then acc' else decimal_digits fuel' (n / 10) acc'
  end.

(** The decimal digits of a natural number, most significant first,
    without leading zeros ("0" for zero). *)
Definition decimal (n : N) : string :=
  decimal_digits (S (N.to_nat (N.log2 n))) n "".

Fixpoint zeros (n : nat) : string :=
  match n with
  | O => ""
  | S n' => String "0" (zeros n')
  end.

Fixpoint str_take (n : nat) (s : string) : string :=
  match n, s with
  | S n', String c r => String c (str_take n' r)
  | _, _ => ""
  end.

Fixpoint str_drop (n : nat) (s : string) : string :=
  match n, s with
  | S n', String _ r => str_drop n' r
  | _, _ => s
  end.

(** *** Numbers

    A Number is an IEEE 754 binary64 value.  A finite one is carried by
    its sign and its exact magnitude [m / 2^k]; the representation is
    kept canonical ([k = 0] or [m] odd), so an integer-valued number is
    [Finite neg n 0] with [n] the integer itself.  Every operation
    computes the exact result and rounds it to binary64 (nearest, ties
    to even), as IEEE 754 defines it. *)

Inductive number :=
| NaN
| Infinity (neg : bool)
| Finite (neg : bool) (m : N) (k : nat).

#[global] Instance number_eq_dec : EqDecision number.
Proof. solve_decision. Defined.

Fixpoint canon (m : N) (k : nat) : N * nat :=
  match k with
  | O => (m, O)
  | S k' => if N.even m then canon (m / 2) k' else (m, k)
  end.

(** [floor (log2 (p / q))] for positive [p] and [q]. *)
Definition floor_log2_ratio (p q : Z) : Z :=
  let d := (Z.log2 p - Z.log2 q)%Z in
  if (if 0 <=? d then q * 2 ^ d <=? p else q <=? p * 2 ^ (- d))%Z
  then d else (d - 1)%Z.

(** [num / den] rounded to the nearest integer, ties to the even one. *)
Definition rne (num den : Z) : Z :=
  let qt := (num / den)%Z in
  let r := (num mod den)%Z in
  if (2 * r <? den)%Z then qt
  else if (den <? 2 * r)%Z then (qt + 1)%Z
  else if Z.even qt then qt else (qt + 1)%Z.

(** The binary64 value nearest to the rational [p / q] ([0 <= p],
    [0 < q]): 53 significant bits, least exponent -1074, overflow to
    infinity at [2^1024]. *)
Definition round_ratio (neg : bool) (p q : Z) : number :=
  if (p =? 0)%Z then Finite neg 0 0 else
  let ex := Z.max (floor_log2_ratio p q - 52) (-1074) in
  if (0 <=? ex)%Z then
    let v := (rne p (q * 2 ^ ex) * 2 ^ ex)%Z in
    if (2 ^ 1024 <=? v)%Z then Infinity neg else Finite neg (Z.to_N v) 0
  else
    let '(m, k) := canon (Z.to_N (rne (p * 2 ^ (- ex)) q)) (Z.to_nat (- ex)) in
    Finite neg m k.

Definition signed (neg : bool) (m : N) : Z :=
  if neg then (- Z.of_N m)%Z else Z.of_N m.

(** [x < y]; false as soon as an operand is NaN. *)
Definition lt (x y : number) : bool :=
  match x, y with
  | NaN, _ | _, NaN => false
  | Infinity nx, Infinity ny => nx && negb ny
  | Infinity nx, Finite _ _ _ => nx
  | Finite _ _ _, Infinity ny => negb ny
  | Finite nx mx kx, Finite ny my ky =>
      (signed nx mx * 2 ^ Z.of_nat ky <? signed ny my * 2 ^ Z.of_nat kx)%Z
  end.

(** [x > y] *)
Definition gt (x y : number) : bool := lt y x.

(** [x + y] *)
Definition add (x y : number) : number :=
  match x, y with
  | NaN, _ | _, NaN => NaN
  | Infinity nx, Infinity ny => if Bool.eqb nx ny then Infinity nx else NaN
  | Infinity nx, Finite _ _ _ => Infinity nx
  | Finite _ _ _, Infinity ny => Infinity ny
  | Finite nx mx kx, Finite ny my ky =>
      let K := Nat.max kx ky in
      let s := (signed nx mx * 2 ^ Z.of_nat (K - kx)
                + signed ny my * 2 ^ Z.of_nat (K - ky))%Z in
      if (s =? 0)%Z then Finite (nx && ny) 0 0
      else round_ratio (s <? 0)%Z (Z.abs s) (2 ^ Z.of_nat K)
  end.

(** *** Number::toString (radix 10)

    For a finite [x > 0] the standard asks for integers [n], [k], [s]
    with [10^(k-1) <= s < 10^k], such that [s * 10^(n-k)] rounds to
    [x], with [k] as small as possible and, among these, the value
    nearest to [x].  [decade] gives the [n] with
    [10^(n-1) <= x < 10^n]; [candidates] tries, for a given [k], the
    two [k]-digit values around [x]. *)

Definition scaled (s e : Z) : Z * Z :=
  if (0 <=? e)%Z then (s * 10 ^ e, 1)%Z else (s, 10 ^ (- e))%Z.

Definition rounds_to (x : number) (s e : Z) : bool :=
  let '(p, q) := scaled s e in
  bool_decide (round_ratio false p q = x).

Fixpoint leading_zeros (fuel : nat) (m d z : Z) : Z :=
  match fuel with
  | O => z
  | S fuel' =>
      if (d <=? m * 10)%Z then z
      else leading_zeros fuel' (m * 10)%Z d (z + 1)%Z
  end.

Definition decade (m : N) (k : nat) : Z :=
  let d := (2 ^ Z.of_nat k)%Z in
  if (d <=? Z.of_N m)%Z
  then Z.of_nat (String.length (decimal (Z.to_N (Z.of_N m / d))))
  else (- leading_zeros 400 (Z.of_N m) d 0)%Z.

Definition candidates (m : N) (k : nat) (n0 kk : Z) : option (Z * Z) :=
  let e := (n0 - kk)%Z in
  let d := (2 ^ Z.of_nat k)%Z in
  let x := Finite false m k in
  let lo := (if 0 <=? e then Z.of_N m / (d * 10 ^ e)
             else (Z.of_N m * 10 ^ (- e)) / d)%Z in
  let hi := (lo + 1)%Z in
  let ok_lo := rounds_to x lo e in
  let ok_hi := rounds_to x hi e in
  let hi_nearer :=
    match (if 0 <=? e
           then (lo + hi) * 10 ^ e * d ?= 2 * Z.of_N m
           else (lo + hi) * d ?= 2 * Z.of_N m * 10 ^ (- e))%Z with
    | Lt => true
    | Eq => Z.even hi
    | Gt => false
    end in
  if ok_lo && (negb ok_hi || negb hi_nearer) then Some (lo, n0)
  else if ok_hi then
    Some (if (hi =? 10 ^ kk)%Z then (10 ^ (kk - 1), n0 + 1)%Z else (hi, n0))
  else None.

Fixpoint shortest (fuel : nat) (m : N) (k : nat) (n0 kk : Z)
  : option (Z * Z * Z) :=
  match fuel with
  | O => None
  | S fuel' =>
      match candidates m k n0 kk with
      | Some (s, n) => Some (s, kk, n)
      | None => shortest fuel' m k n0 (kk + 1)%Z
      end
  end.

(** The digit string of [s] ([k] digits) laid out for the exponent [n]. *)
Definition layout (s k n : Z) : string :=
  let digits := decimal (Z.to_N s) in
  if ((-5 <=? n) && (n <=? 21))%Z then
    if (k <=? n)%Z then digits ++ zeros (Z.to_nat (n - k))
    else if (0 <? n)%Z then
      str_take (Z.to_nat n) digits ++ "." ++ str_drop (Z.to_nat n) digits
    else "0." ++ zeros (Z.to_nat (- n)) ++ digits
  else
    let c := if (0 <=? n - 1)%Z then "+" else "-" in
    let e := decimal (Z.to_N (Z.abs (n - 1))) in
    if (k =? 1)%Z then digits ++ "e" ++ c ++ e
    else str_take 1 digits ++ "." ++ str_drop 1 digits ++ "e" ++ c ++ e.

Definition Number_toString (x : number) : string :=
  match x with
  | NaN => "NaN"
  | Infinity neg => if neg then "-Infinity" else "Infinity"
  | Finite neg m k =>
      if (m =? 0)%N then "0"
      else
        (if neg then "-" else "") ++
        (* seventeen digits always suffice for a binary64 value *)
        match shortest 17 m k (decade m k) 1 with
        | Some (s, kk, n) => layout s kk n
        | None => ""
        end
  end.

(** *** Number.prototype.toFixed

    [toFixed x f] for [0 <= f <= 100]: the integer [n] nearest to
    [|x| * 10^f] (the larger one on a tie), written with [f] digits
    after the point; [Number::toString] when [x] is not finite or
    [|x| >= 10^21]. *)
Definition toFixed (x : number) (f : nat) : string :=
  match x with
  | NaN | Infinity _ => Number_toString x
  | Finite neg m k =>
      let s := if neg && negb (m =? 0)%N then "-" else "" in
      let d := (2 ^ Z.of_nat k)%Z in
      if (10 ^ 21 * d <=? Z.of_N m)%Z then s ++ Number_toString (Finite false m k)
      else
        let n := ((2 * Z.of_N m * 10 ^ Z.of_nat f + d) / (2 * d))%Z in
        let digits := decimal (Z.to_N n) in
        let padded :=
          if (String.length digits <=? f)%nat
          then zeros (f + 1 - String.length digits) ++ digits
          else digits in
        let a := String.length padded - f in
        s ++ (if (f =? 0)%nat then digits
              else str_take a padded ++ "." ++ str_drop a padded)
  end.

(** *** Language values *)

Inductive value :=
| VUndefined
| VNull
| VBool (b : bool)
| VNum (x : number)
| VStr (s : string)
| VObject.

#[global] Instance value_eq_dec : EqDecision value.
Proof. solve_decision. Defined.

(** ToBoolean *)
Definition truthy (v : value) : bool :=
  match v with
  | VUndefined | VNull => false
  | VBool b => b
  | VNum NaN => false
  | VNum (Infinity _) => true
  | VNum (Finite _ m _) => negb (m =? 0)%N
  | VStr s => negb (s =? "")
  | VObject => true
  end.

(** ToString *)
Definition ToString (v : value) : string :=
  match v with
  | VUndefined => "undefined"
  | VNull => "null"
  | VBool b => if b then "true" else "false"
  | VNum x => Number_toString x
  | VStr s => s
  | VObject => "[object Object]"
  end.

(** The sign prefix of a numeric string and the rest. *)
Definition scan_sign (s : string) : bool * string :=
  match s with
  | String "-" r => (true, r)
  | String "+" r => (false, r)
  | _ => (false, s)
  end.

(** [parseInt(string, 10)]: leading white space, a sign, then the
    longest run of decimal digits; NaN when there is none. *)
Definition parseInt10 (input : string) : number :=
  let '(neg, s) := scan_sign (trim_start input) in
  let '(v, count, _) := scan_digits s 0 0 in
  match count with
  | O => NaN
  | S _ => round_ratio neg (Z.of_N v) 1
  end.

Fixpoint starts_with (p s : string) : bool :=
  match p, s with
  | EmptyString, _ => true
  | String a p', String b s' => (a =? b)%char && starts_with p' s'
  | String _ _, EmptyString => false
  end.

(** The exponent part [e[+-]digits] at the head of [s], if any. *)
Definition scan_exponent (s : string) : Z :=
  match s with
  | String c r =>
      if ((c =? "e") || (c =? "E"))%char then
        let '(neg, r') := scan_sign r in
        let '(v, count, _) := scan_digits r' 0 0 in
        match count with
        | O => 0%Z
        | S _ => if neg then (- Z.of_N v)%Z else Z.of_N v
        end
      else 0%Z
  | EmptyString => 0%Z
  end.

(** [parseFloat(string)]: leading white space, then the longest prefix
    that is a StrDecimalLiteral; NaN when there is none. *)
Definition parseFloat_string (input : string) : number :=
  let '(neg, s) := scan_sign (trim_start input) in
  if starts_with "Infinity" s then Infinity neg
  else
    let '(ip, ci, r1) := scan_digits s 0 0 in
    let '(mant, cf, r2) :=
      match r1 with
      | String "." r =>
          let '(v, c, r') := scan_digits r ip 0 in
          match ci, c with
          | O, O => (ip, O, r1)
          | _, _ => (v, c, r')
          end
      | _ => (ip, O, r1)
      end in
    match ci, cf with
    | O, O => NaN
    | _, _ =>
        let '(p, q) := scaled (Z.of_N mant) (scan_exponent r2 - Z.of_nat cf) in
        round_ratio neg p q
    end.

Definition parseFloat (v : value) : number := parseFloat_string (ToString v).

Definition parseInt (v : value) : number := parseInt10 (ToString v).

End JS.

(** ** The UI5 services the controllers call *)

Module UI5.
Import JS.

(** sap.m.MessageBox.Action *)
Inductive Action := ABORT | CANCEL | CLOSE | DELETE | IGNORE | NO | OK | RETRY | YES.

#[global] Instance Action_eq_dec : EqDecision Action.
Proof. solve_decision. Defined.

(** What a handler shows to the user or asks of the router, in the
    order of the calls. *)
Inductive Effect :=
| MessageBox_error (sMessage : string)
| MessageBox_confirm (sMessage sTitle : string)
| MessageToast_show (sMessage : string)
| navTo (sName : string) (productId : option value) (bReplace : bool)
| history_go (delta : Z).

#[global] Instance Effect_eq_dec : EqDecision Effect.
Proof. solve_decision. Defined.

(** *** sap.ui.model.Filter and the client-side FilterProcessor

    A list binding on a JSON model filters in the browser, with
    sap/ui/model/FilterProcessor: the value found at the filter's path
    and the filter's value are both normalised before the operator's
    test is applied. *)

Inductive FilterOperator := Contains.

#[warnings="-register-all"] Inductive Filter :=
| Leaf (sPath : string) (sOperator : FilterOperator) (oValue1 : string)
       (bCaseSensitive : option bool)
| Multi (aFilters : list Filter) (bAnd : bool).

(** [new Filter(sPath, sOperator, oValue1)]: no caseSensitive given. *)
Definition new_Filter (sPath : string) (op : FilterOperator) (v : string) : Filter :=
  Leaf sPath op v None.

(** The code units of a string, as numbers. *)
Fixpoint units (s : string) : list N :=
  match s with
  | String c r => code c :: units r
  | EmptyString => []
  end.

(** The upper-case form of a code unit below 256, as
    String.prototype.toUpperCase gives it (UnicodeData and
    SpecialCasing): a-z become A-Z; the letters from a-grave to thorn,
    the division sign apart, become those from A-grave to Thorn; the
    micro sign becomes the Greek capital mu (924), y-diaeresis the
    capital Y-diaeresis (376), the sharp s the two letters SS; every
    other code unit is its own upper-case form. *)
Definition upper_unit (n : N) : list N :=
  if ((97 <=? n) && (n <=? 122))%N then [(n - 32)%N]
  else if (n =? 181)%N then [924%N]
  else if (n =? 223)%N then [83%N; 83%N]
  else if ((224 <=? n) && (n <=? 254) && negb (n =? 247))%N then [(n - 32)%N]
  else if (n =? 255)%N then [376%N]
  else [n].

(** String.prototype.toUpperCase: the result is a sequence of code
    units, which need not stay below 256. *)
Fixpoint toUpperCase (s : string) : list N :=
  match s with
  | String c r => (upper_unit (code c) ++ toUpperCase r)%list
  | EmptyString => []
  end.


(** The same on sequences of code units. *)
Fixpoint starts_with_units (needle hay : list N) : bool :=
  match needle, hay with
  | [], _ => true
  | a :: n, b :: h => (a =? b)%N && starts_with_units n h
  | _ :: _, [] => false
  end.

Fixpoint includes_units (needle hay : list N) : bool :=
  starts_with_units needle hay ||
  match hay with
  | _ :: r => includes_units needle r
  | [] => false
  end.

(** FilterProcessor.normalizeFilterValue: a string is upper-cased
    unless the filter is case sensitive, an undefined [bCaseSensitive]
    counting as false; the canonical composition (NFC) that follows
    changes nothing, the code units below 256 and their upper-case
    forms being composed characters already. *)
Definition normalizeFilterValue (s : string) (bCaseSensitive : option bool) : list N :=
  if default false bCaseSensitive then units s else toUpperCase s.

(** The test of a leaf filter on the value found at its path: [None]
    stands for the Error the processor throws when [Contains] meets a
    value that is neither null, undefined nor a string. *)
Definition test_leaf (op : FilterOperator) (v1 : string) (cs : option bool)
    (oValue : value) : option bool :=
  match op, oValue with
  | Contains, (VUndefined | VNull) => Some false
  | Contains, VStr s =>
      Some (includes_units (normalizeFilterValue v1 cs) (normalizeFilterValue s cs))
  | Contains, _ => None
  end.

Section FilterProcessor.
Context {A : Type} (fnGetValue : A -> string -> value).

(** FilterProcessor._evaluateFilter, with the short-circuit loop of
    _evaluateMultiFilter. *)
Fixpoint evaluateFilter (oFilter : Filter) (vRef : A) : option bool :=
  match oFilter with
  | Leaf sPath op v1 cs => test_leaf op v1 cs (fnGetValue vRef sPath)
  | Multi aFilters bAnd =>
      (fix loop (fs : list Filter) : option bool :=
         match fs with
         | [] => Some bAnd
         | f :: fs' =>
             match evaluateFilter f vRef with
             | None => None
             | Some bMatch =>
                 if bAnd then (if bMatch then loop fs' else Some false)
                 else (if bMatch then Some true else loop fs')
             end
         end) aFilters
  end.

(** FilterProcessor.apply: the entries the filter keeps, in order;
    every entry when there is no filter. *)
Fixpoint apply (aData : list A) (oFilter : option Filter) : option (list A) :=
  match oFilter, aData with
  | None, _ => Some aData
  | Some _, [] => Some []
  | Some f, x :: rest =>
      match evaluateFilter f x, apply rest oFilter with
      | Some b, Some kept => Some (if b then x :: kept else kept)
      | _, _ => None
      end
  end.
End FilterProcessor.

(** FilterProcessor.groupFilters: filters on the same path are OR-ed,
    the groups are AND-ed, multi-filters form a group of their own that
    is AND-ed; a single filter is taken as it is. *)
Definition group_key (f : Filter) : option string :=
  match f with
  | Leaf sPath _ _ _ => Some sPath
  | Multi _ _ => None
  end.

Fixpoint add_to_group (key : option string) (f : Filter)
    (groups : list (option string * list Filter)) : list (option string * list Filter) :=
  match groups with
  | [] => [(key, [f])]
  | (k, fs) :: rest =>
      if decide (k = key) then (k, (fs ++ [f])%list) :: rest
      else (k, fs) :: add_to_group key f rest
  end.

Definition getFilter (aFilters : list Filter) (bAnd : bool) : option Filter :=
  match aFilters with
  | [] => None
  | [f] => Some f
  | _ => Some (Multi aFilters bAnd)
  end.

Definition groupFilters (aFilters : list Filter) : option Filter :=
  match aFilters with
  | [] => None
  | [f] => Some f
  | _ =>
      let groups := fold_left (fun g f => add_to_group (group_key f) f g) aFilters [] in
      getFilter
        (omap (fun '(k, fs) => getFilter fs (bool_decide (k = None))) groups)
        true
  end.

End UI5.

(** ** model/formatter.js *)

Module formatter.
Import JS.

Definition formatPrice (price currency : value) : string :=
  if negb (truthy price) then ""
  else toFixed (parseFloat price) 2.

Definition formatStockStatus (inStock : value) : string :=
  if truthy inStock then "In Stock" else "Out of Stock".

Definition formatStockStatusState (inStock : value) : string :=
  if truthy inStock then "Success" else "Error".
End formatter.

(** ** Objects with string values

    An object is the sequence of its own properties in property order,
    the order in which [Object.keys] and [JSON.stringify] go through
    them: the array indices first, in ascending order, then the other
    keys in the order of their creation. *)

Module Obj.
Import JS.

(** A key that is an array index: the canonical decimal string of an
    integer below [2^32 - 1]. *)
Definition array_index (k : string) : option N :=
  let '(n, _, _) := scan_digits k 0 0 in
  if (decimal n =? k) && (n <? 2 ^ 32 - 1)%N then Some n else None.

(** [k1] comes before [k2] in property order whatever the order of
    their creation. *)
Definition precedes (k1 k2 : string) : bool :=
  match array_index k1, array_index k2 with
  | Some a, Some b => (a <? b)%N
  | Some _, None => true
  | None, _ => false
  end.

(** Property order: the keys are distinct and no key comes after one
    it precedes. *)
Fixpoint ordered (ks : list string) : bool :=
  match ks with
  | [] => true
  | k :: r => forallb (fun k' => negb (k =? k') && negb (precedes k' k)) r && ordered r
  end.

(** Creating or overwriting the own property [k]: an existing property
    keeps its place; a new array index goes before the first property
    it precedes, any other new key to the end. *)
Fixpoint define (k v : string) (l : list (string * string)) : list (string * string) :=
  match l with
  | [] => [(k, v)]
  | (k', v') :: r =>
      if k' =? k then (k, v) :: r
      else if precedes k k' then (k, v) :: l
      else (k', v') :: define k v r
  end.

(** The value of the own property [k]. *)
Fixpoint get (k : string) (l : list (string * string)) : option string :=
  match l with
  | [] => None
  | (k', v) :: r => if k' =? k then Some v else get k r
  end.

Definition remove (k : string) (l : list (string * string)) : list (string * string) :=
  List.filter (fun kv => negb (kv.1 =? k)) l.

Record object := mkObject {
  props : list (string * string);
  props_ordered : ordered props.*1 = true
}.

(** The object with the properties [l], the empty object when [l] is
    not in property order (which the operations below never meet). *)
Definition make (l : list (string * string)) : object :=
  match decide (ordered l.*1 = true) with
  | left H => mkObject l H
  | right _ => mkObject [] eq_refl
  end.

#[global] Instance object_empty : Empty object := mkObject [] eq_refl.
#[global] Instance object_lookup : Lookup string string object :=
  fun k o => get k (props o).
#[global] Instance object_insert : Insert string string object :=
  fun k v o => make (define k v (props o)).
#[global] Instance object_delete : Delete string object :=
  fun k o => make (remove k (props o)).

#[global] Instance object_eq_dec : EqDecision object.
Proof.
  intros [l1 H1] [l2 H2]. destruct (decide (l1 = l2)) as [<-|Hne].
  - left. f_equal. apply proof_irrel.
  - right. intros [= H]. by destruct Hne.
Defined.

(** The assignment [o[k] = v] of a string to a key of an object that
    inherits from Object.prototype: the key ["__proto__"] names the
    prototype's accessor, whose setter ignores a string, so no
    property is created; any other key becomes an own property. *)
Definition assign (k v : string) (o : object) : object :=
  if k =? "__proto__" then o else <[k := v]> o.

End Obj.

(** ** The application: records, the object store, the controllers

    The handlers that change or read the products array are embedded
    with the helpers they call; the handlers of Master that only
    navigate ([onSelectionChange], [onAddPress]) and the route
    registrations of the [onInit] functions follow in [Navigation]. *)

Module App.
Import JS UI5 Obj.

(** A product record (section 3 of the specification).  [ProductID] is
    absent ([None], read as undefined) on the record the Create form
    works on until the save assigns it. *)
Record Product := mkProduct {
  ProductID : option string;
  Name : string;
  Description : string;
  Price : value;
  Currency : string;
  Category : string;
  SupplierName : string;
  InStock : bool;
  Quantity : value;
  Rating : value;
  ReleaseDate : string;
  Specifications : object
}.

#[global] Instance Product_eq_dec : EqDecision Product.
Proof. solve_decision. Defined.

Definition set_ProductID (v : option string) (p : Product) : Product :=
  mkProduct v (Name p) (Description p) (Price p) (Currency p) (Category p)
    (SupplierName p) (InStock p) (Quantity p) (Rating p) (ReleaseDate p)
    (Specifications p).

Definition set_Specifications (v : object) (p : Product) : Product :=
  mkProduct (ProductID p) (Name p) (Description p) (Price p) (Currency p)
    (Category p) (SupplierName p) (InStock p) (Quantity p) (Rating p)
    (ReleaseDate p) v.

Definition opt_string (o : option string) : value :=
  match o with
  | Some s => VStr s
  | None => VUndefined
  end.

(** [product.ProductID] as a language value. *)
Definition id_value (p : Product) : value := opt_string (ProductID p).

(** The value of a property of an array entry, as a model path reads
    it; an empty slot has no property. *)
Definition getProperty (entry : option Product) (sPath : string) : value :=
  match entry with
  | None => VUndefined
  | Some p =>
      if sPath =? "ProductID" then id_value p
      else if sPath =? "Name" then VStr (Name p)
      else if sPath =? "Description" then VStr (Description p)
      else if sPath =? "Price" then Price p
      else if sPath =? "Currency" then VStr (Currency p)
      else if sPath =? "Category" then VStr (Category p)
      else if sPath =? "SupplierName" then VStr (SupplierName p)
      else if sPath =? "InStock" then VBool (InStock p)
      else if sPath =? "Quantity" then Quantity p
      else if sPath =? "Rating" then Rating p
      else if sPath =? "ReleaseDate" then VStr (ReleaseDate p)
      else if sPath =? "Specifications" then VObject
      else VUndefined
  end.

(** [JSON.parse(JSON.stringify(v))] on a property value: NaN and the
    infinities are written as null, minus zero as 0. *)
Definition json_value (v : value) : value :=
  match v with
  | VNum NaN | VNum (Infinity _) => VNull
  | VNum (Finite neg m k) => if (m =? 0)%N then VNum (Finite false 0 0) else v
  | _ => v
  end.

Definition json_copy (p : Product) : Product :=
  mkProduct (ProductID p) (Name p) (Description p) (json_value (Price p))
    (Currency p) (Category p) (SupplierName p) (InStock p)
    (json_value (Quantity p)) (json_value (Rating p)) (ReleaseDate p)
    (Specifications p).

(** A row of the specifications table. *)
Definition spec_row : Type := string * string.

(** The rows of a Specifications object: one row per key, in the
    order of [Object.keys]. *)
Definition rows_of (o : object) : list spec_row := props o.

(** The loop of [onSavePress] over the rows: a row with a non-empty key
    and a non-empty value is assigned to a new object, later rows
    overwrite. *)
Definition object_of (aSpecs : list spec_row) : object :=
  fold_left
    (fun (o : object) (spec : spec_row) =>
       if truthy (VStr spec.1) && truthy (VStr spec.2)
       then assign spec.1 spec.2 o else o)
    aSpecs ∅.

(** What a form writes into its record: the ten fields its inputs are
    bound to, here taken from [u p].  The ProductID has no input, and
    the Specifications are edited in the table, not in the record. *)
Definition form (u : Product -> Product) (p : Product) : Product :=
  mkProduct (ProductID p) (Name (u p)) (Description (u p)) (Price (u p))
    (Currency (u p)) (Category (u p)) (SupplierName (u p)) (InStock (u p))
    (Quantity (u p)) (Rating (u p)) (ReleaseDate (u p)) (Specifications p).

(** *** The state

    Records are objects in a store, referred to by their address; the
    products array holds references, [None] being an empty slot of a
    sparse array.  A view's "products" model is a reference too, so a
    record reached from a form and from the array is one object. *)

Definition loc := nat.

Record CreateCtl := mkCreate {
  Create_view : option loc;
  Create_specs : list spec_row
}.

Record EditCtl := mkEdit {
  Edit_view : option loc;
  productIndex : option nat;
  Edit_specs : list spec_row
}.

Record DetailCtl := mkDetail {
  Detail_view : option loc;
  Detail_context : option nat;
  Detail_form : list spec_row
}.

Record MasterCtl := mkMaster {
  _bDescendingSort : bool;
  Master_filters : list Filter;
  Master_sorter : option (string * bool)
}.

Record State := mkState {
  heap : list Product;
  aProducts : list (option loc);
  sPreviousHash : option string;
  today : string;
  create : CreateCtl;
  edit : EditCtl;
  detail : DetailCtl;
  master : MasterCtl;
  log : list Effect
}.

Definition set_heap (v : list Product) (s : State) : State :=
  mkState v (aProducts s) (sPreviousHash s) (today s) (create s) (edit s)
    (detail s) (master s) (log s).

Definition set_aProducts (v : list (option loc)) (s : State) : State :=
  mkState (heap s) v (sPreviousHash s) (today s) (create s) (edit s)
    (detail s) (master s) (log s).

Definition set_create (v : CreateCtl) (s : State) : State :=
  mkState (heap s) (aProducts s) (sPreviousHash s) (today s) v (edit s)
    (detail s) (master s) (log s).

Definition set_edit (v : EditCtl) (s : State) : State :=
  mkState (heap s) (aProducts s) (sPreviousHash s) (today s) (create s) v
    (detail s) (master s) (log s).

Definition set_detail (v : DetailCtl) (s : State) : State :=
  mkState (heap s) (aProducts s) (sPreviousHash s) (today s) (create s)
    (edit s) v (master s) (log s).

Definition set_master (v : MasterCtl) (s : State) : State :=
  mkState (heap s) (aProducts s) (sPreviousHash s) (today s) (create s)
    (edit s) (detail s) v (log s).

Definition set_log (v : list Effect) (s : State) : State :=
  mkState (heap s) (aProducts s) (sPreviousHash s) (today s) (create s)
    (edit s) (detail s) (master s) v.

(** The application right after the seed data is loaded. *)
Definition init (seed : list Product) (sToday : string) (sHash : option string) : State :=
  mkState seed (Some <$> seq 0 (length seed)) sHash sToday
    (mkCreate None []) (mkEdit None None []) (mkDetail None None [])
    (mkMaster false [] None) [].

(** The entries of an array of references read through the store. *)
Definition read_array (h : list Product) (a : list (option loc)) : list (option Product) :=
  (fun slot : option loc => slot ≫= (h !!.)) <$> a.

(** The entries of the products array. *)
Definition contents (s : State) : list (option Product) :=
  read_array (heap s) (aProducts s).

(** The data of a view's "products" model, [None] when the view has no
    record of its own (it then sees the component's model, the array,
    which has none of a record's properties). *)
Definition viewData (v : option loc) (s : State) : option Product :=
  v ≫= (heap s !!.).

(** *** Handlers: state passing with exceptions *)

Inductive Exception := TypeError.

Inductive result (A : Type) :=
| Return (a : A) (s : State)
| Throw (e : Exception) (s : State).
Arguments Return {A} a s.
Arguments Throw {A} e s.

Definition M (A : Type) : Type := State -> result A.

#[global] Instance M_ret : MRet M := fun A a s => Return a s.
#[global] Instance M_bind : MBind M := fun A B f m s =>
  match m s with
  | Return a s' => f a s'
  | Throw e s' => Throw e s'
  end.

Definition get : M State := fun s => Return s s.
Definition modify (f : State -> State) : M unit := fun s => Return tt (f s).
Definition throw {A} (e : Exception) : M A := fun s => Throw e s.
Definition emit (e : Effect) : M unit := modify (fun s => set_log (log s ++ [e]) s).

(** A new object in the store. *)
Definition alloc (p : Product) : M loc :=
  fun s => Return (length (heap s)) (set_heap (heap s ++ [p]) s).

(** A property assignment on the object at [l]. *)
Definition update (l : loc) (f : Product -> Product) : M unit :=
  modify (fun s => set_heap (alter f l (heap s)) s).

(** [a[i] = x]: in range the slot is replaced; at or beyond the length
    the array grows, the slots in between staying empty. *)
Definition array_set {A} (i : nat) (x : A) (a : list (option A)) : list (option A) :=
  if (i <? length a)%nat then <[i := Some x]> a
  else a ++ replicate (i - length a) None ++ [Some x].

(** The linear scan for an ID, [for (i = 0; i < a.length; i++)
    if (a[i].ProductID === sProductId) break]: reading a property of an
    empty slot throws. *)
Inductive Scan :=
| Found (i : nat) (p : Product)
| NotFound
| Failed.

Fixpoint scan (sProductId : option string) (a : list (option Product)) (i : nat) : Scan :=
  match a with
  | [] => NotFound
  | None :: _ => Failed
  | Some p :: rest =>
      if decide (ProductID p = sProductId) then Found i p
      else scan sProductId rest (S i)
  end.

(** *** controller/Create.controller.js *)

Module Create.

Definition _initSpecificationsTable : M unit :=
  s ← get;
  let aSpecs :=
    match viewData (Create_view (create s)) s with
    | Some oProduct => rows_of (Specifications oProduct)
    | None => []
    end in
  modify (fun s => set_create (mkCreate (Create_view (create s)) aSpecs) s).

(** The empty product with its default values; [sToday] is today's
    date as YYYY-MM-DD. *)
Definition oNewProduct (sToday : string) : Product :=
  mkProduct None "" "" (VNum (Finite false 0 0)) "USD" "" "" true
    (VNum (Finite false 0 0)) (VNum (Finite false 0 0)) sToday ∅.

Definition _onCreateMatched : M unit :=
  s ← get;
  l ← alloc (oNewProduct (today s));
  modify (fun s => set_create (mkCreate (Some l) (Create_specs (create s))) s);;
  _initSpecificationsTable.

Definition onAddSpecification : M unit :=
  modify (fun s =>
    set_create (mkCreate (Create_view (create s))
                  (Create_specs (create s) ++ [("", "")])) s).

(** [iIndex] is what [indexOfItem] gave, [None] standing for -1. *)
Definition onDeleteSpecification (iIndex : option nat) : M unit :=
  match iIndex with
  | Some i =>
      modify (fun s =>
        set_create (mkCreate (Create_view (create s))
                      (delete i (Create_specs (create s)))) s)
  | None => mret tt
  end.

(** The callback of the [forEach] in [_generateProductId]; [forEach]
    visits the slots that hold an element. *)
Definition visit (iMaxId : number) (slot : option Product) : number :=
  match slot with
  | Some product =>
      let iId := parseInt (id_value product) in
      if gt iId iMaxId then iId else iMaxId
  | None => iMaxId
  end.

Definition scanMaxId (a : list (option Product)) : number :=
  fold_left visit a (Finite false 0 0).

Definition _generateProductId : M string :=
  s ← get;
  mret (Number_toString (add (scanMaxId (contents s)) (Finite false 1 0))).

Definition onSavePress : M unit :=
  s ← get;
  match Create_view (create s) with
  | Some l =>
      match heap s !! l with
      | Some oProduct =>
          if negb (truthy (VStr (Name oProduct))) || negb (truthy (Price oProduct))
          then emit (MessageBox_error "Please fill in all required fields")
          else
            let oSpecifications := object_of (Create_specs (create s)) in
            update l (set_Specifications oSpecifications);;
            sId ← _generateProductId;
            update l (set_ProductID (Some sId));;
            modify (fun s => set_aProducts (aProducts s ++ [Some l]) s);;
            emit (MessageToast_show "Product created successfully");;
            emit (navTo "master" None false)
      | None => emit (MessageBox_error "Please fill in all required fields")
      end
  | None =>
      (* no record of its own: the view reads the array, which has no Name *)
      emit (MessageBox_error "Please fill in all required fields")
  end.

Definition onNavBack : M unit :=
  s ← get;
  match sPreviousHash s with
  | Some _ => emit (history_go (-1))
  | None => emit (navTo "master" None true)
  end.

(** What the user types: two-way binding writes the form's fields
    into the view's record and the table's cells into the rows. *)
Definition formInput (u : Product -> Product) (v : list spec_row -> list spec_row) : M unit :=
  s ← get;
  match Create_view (create s) with
  | Some l =>
      update l (form u);;
      modify (fun s => set_create (mkCreate (Some l) (v (Create_specs (create s)))) s)
  | None => mret tt
  end.

(** The Create flow: the route is matched, the user fills in the
    form, the user presses Save. *)
Definition flow (u : Product -> Product) (v : list spec_row -> list spec_row) : M unit :=
  _onCreateMatched;; formInput u v;; onSavePress.

End Create.

(** *** controller/Edit.controller.js *)

Module Edit.

Definition _initSpecificationsTable (oSpecifications : object) : M unit :=
  modify (fun s =>
    set_edit (mkEdit (Edit_view (edit s)) (productIndex (edit s))
                (rows_of oSpecifications)) s).

Definition onNavBack : M unit :=
  s ← get;
  match sPreviousHash s with
  | Some _ => emit (history_go (-1))
  | None =>
      emit (navTo "detail"
              (Some (getProperty (viewData (Edit_view (edit s)) s) "ProductID"))
              true)
  end.

Definition _onEditMatched (sProductId : string) : M unit :=
  s ← get;
  match scan (Some sProductId) (contents s) 0 with
  | Failed => throw TypeError
  | Found i oSelectedProduct =>
      modify (fun s => set_edit (mkEdit (Edit_view (edit s)) (Some i)
                                   (Edit_specs (edit s))) s);;
      let oEditProduct := json_copy oSelectedProduct in
      l ← alloc oEditProduct;
      modify (fun s => set_edit (mkEdit (Some l) (productIndex (edit s))
                                   (Edit_specs (edit s))) s);;
      _initSpecificationsTable (Specifications oEditProduct)
  | NotFound =>
      emit (MessageToast_show "Product not found");;
      onNavBack
  end.

Definition onAddSpecification : M unit :=
  modify (fun s =>
    set_edit (mkEdit (Edit_view (edit s)) (productIndex (edit s))
                (Edit_specs (edit s) ++ [("", "")])) s).

Definition onDeleteSpecification (iIndex : option nat) : M unit :=
  match iIndex with
  | Some i =>
      modify (fun s =>
        set_edit (mkEdit (Edit_view (edit s)) (productIndex (edit s))
                    (delete i (Edit_specs (edit s)))) s)
  | None => mret tt
  end.

Definition onSavePress : M unit :=
  s ← get;
  match Edit_view (edit s) with
  | Some l =>
      match heap s !! l with
      | Some oProduct =>
          if negb (truthy (VStr (Name oProduct))) || negb (truthy (Price oProduct))
          then emit (MessageBox_error "Please fill in all required fields")
          else
            let oSpecifications := object_of (Edit_specs (edit s)) in
            update l (set_Specifications oSpecifications);;
            match productIndex (edit s) with
            | Some i =>
                modify (fun s => set_aProducts (array_set i l (aProducts s)) s);;
                emit (MessageToast_show "Product updated successfully");;
                emit (navTo "detail" (Some (id_value oProduct)) false)
            | None => emit (MessageBox_error "Error updating product")
            end
      | None => emit (MessageBox_error "Please fill in all required fields")
      end
  | None => emit (MessageBox_error "Please fill in all required fields")
  end.

Definition formInput (u : Product -> Product) (v : list spec_row -> list spec_row) : M unit :=
  s ← get;
  match Edit_view (edit s) with
  | Some l =>
      update l (form u);;
      modify (fun s => set_edit (mkEdit (Some l) (productIndex (edit s))
                                   (v (Edit_specs (edit s)))) s)
  | None => mret tt
  end.

(** The Edit flow: the route is matched for an ID, the user changes
    the form, the user presses Save. *)
Definition flow (sProductId : string) (u : Product -> Product)
    (v : list spec_row -> list spec_row) : M unit :=
  _onEditMatched sProductId;; formInput u v;; onSavePress.

End Edit.

(** *** controller/Detail.controller.js *)

Module Detail.

Definition _createSpecificationFields (oSpecifications : object) : M unit :=
  modify (fun s =>
    set_detail (mkDetail (Detail_view (detail s)) (Detail_context (detail s))
                  (rows_of oSpecifications)) s).

Definition onNavBack : M unit :=
  s ← get;
  match sPreviousHash s with
  | Some _ => emit (history_go (-1))
  | None => emit (navTo "master" None true)
  end.

Definition _onProductMatched (sProductId : string) : M unit :=
  s ← get;
  match scan (Some sProductId) (contents s) 0 with
  | Failed => throw TypeError
  | Found i oSelectedProduct =>
      modify (fun s => set_detail (mkDetail (mjoin (aProducts s !! i)) (Some i)
                                     (Detail_form (detail s))) s);;
      _createSpecificationFields (Specifications oSelectedProduct)
  | NotFound =>
      emit (MessageToast_show "Product not found");;
      onNavBack
  end.

Definition onEditPress : M unit :=
  s ← get;
  emit (navTo "edit"
          (Some (getProperty (viewData (Detail_view (detail s)) s) "ProductID"))
          false).

(** The confirm dialog opened by [onDeletePress]: its [onClose]
    closure has captured the ID shown by the view. *)
Record ConfirmDialog := mkConfirm { sProductId : option string }.

Definition onDeletePress : M ConfirmDialog :=
  s ← get;
  let oData := viewData (Detail_view (detail s)) s in
  let sProductName := ToString (getProperty oData "Name") in
  emit (MessageBox_confirm
          ("Are you sure you want to delete product '" ++ sProductName ++ "'?")
          "Confirm Delete");;
  mret (mkConfirm (oData ≫= ProductID)).

Definition onClose (d : ConfirmDialog) (oAction : Action) : M unit :=
  if decide (oAction = OK) then
    s ← get;
    match scan (sProductId d) (contents s) 0 with
    | Failed => throw TypeError
    | Found i _ =>
        modify (fun s => set_aProducts (delete i (aProducts s)) s);;
        emit (MessageToast_show "Product deleted successfully");;
        emit (navTo "master" None false)
    | NotFound =>
        emit (MessageToast_show "Product deleted successfully");;
        emit (navTo "master" None false)
    end
  else mret tt.

(** The Delete flow: the detail route is matched for an ID, the user
    presses Delete and closes the dialog with [oAction]. *)
Definition flow (sId : string) (oAction : Action) : M unit :=
  _onProductMatched sId;; d ← onDeletePress; onClose d oAction.

End Detail.

(** *** controller/Master.controller.js *)

Module Master.

(** [a || b] on two event parameters. *)
Definition or_else (a b : option string) : option string :=
  if truthy (opt_string a) then a else b.

Definition binding_filter (aFilters : list Filter) : M unit :=
  modify (fun s =>
    set_master (mkMaster (_bDescendingSort (master s)) aFilters
                  (Master_sorter (master s))) s).

Definition onSearch (query newValue : option string) : M unit :=
  let sQuery := or_else query newValue in
  match sQuery with
  | Some q =>
      if truthy (VStr q) then
        let aFilters :=
          [ new_Filter "Name" Contains q;
            new_Filter "Description" Contains q;
            new_Filter "Category" Contains q ] in
        let oFilter := Multi aFilters false in
        binding_filter [oFilter]
      else binding_filter []
  | None => binding_filter []
  end.

Definition onSort : M unit :=
  modify (fun s =>
    let b := negb (_bDescendingSort (master s)) in
    set_master (mkMaster b (Master_filters (master s)) (Some ("Name", b))) s);;
  s ← get;
  emit (MessageToast_show
          (if _bDescendingSort (master s) then "Sorted Z to A" else "Sorted A to Z")).

(** The entries the binding's filter keeps, in the order of the
    array ([None] if the filter throws): what the list binding holds
    after its filter step and then hands to its sorter, which decides
    the order on the screen. *)
Definition kept (s : State) : option (list (option Product)) :=
  apply getProperty (contents s) (groupFilters (Master_filters (master s))).

End Master.

End App.

(** ** The vocabulary of the specification *)

Module Spec.
Import JS UI5 Obj App.

(** The integer a number stands for, when it is integer-valued. *)
Definition int_value (x : number) : option Z :=
  match x with
  | Finite neg m O => Some (signed neg m)
  | _ => None
  end.

(** The numeric ID of a record: the integer its [ProductID] parses to. *)
Definition numeric_id (p : Product) : option Z :=
  int_value (parseInt (id_value p)).

(** The integer parses of the ProductID values of an array. *)
Definition parses (a : list (option Product)) : list number :=
  omap (fmap (fun p => parseInt (id_value p))) a.

(** "The maximum of 0 and the integer parses": [m] is 0 or one of the
    parses that is greater than 0, and no parse is greater than [m]. *)
Definition is_max0 (xs : list number) (m : number) : Prop :=
  (m = Finite false 0 0 \/ (m ∈ xs /\ gt m (Finite false 0 0) = true))
  /\ forall x, x ∈ xs -> gt x m = false.

(** The numeric IDs of an array whose ProductID values all parse as
    integers. *)
Definition numeric_ids (l : list Product) : option (list Z) := mapM numeric_id l.

(** The maximum of a non-empty list of integers. *)
Definition maximum (zs : list Z) : option Z :=
  match zs with
  | [] => None
  | z :: r => Some (fold_left Z.max r z)
  end.

(** An ID in the safe range: it does not parse, or it parses to an
    integer of at most [2^53 - 1], the largest integer to which adding
    1 is exact. *)
Definition safe_id (p : Product) : bool :=
  match parseInt (id_value p) with
  | NaN => true
  | Finite neg m O => (signed neg m <? 2 ^ 53)%Z
  | _ => false
  end.

(** The maximum of 0 and the integers the ProductID values of an
    array parse to. *)
Definition max0 (a : list (option Product)) : Z :=
  fold_left Z.max (omap (fun slot : option Product => slot ≫= numeric_id) a) 0%Z.

(** A record whose ProductID parses to a positive number. *)
Definition positive_id (slot : option Product) : bool :=
  match slot with
  | Some p => gt (parseInt (id_value p)) (Finite false 0 0)
  | None => false
  end.

(** "Required field missing": the name or the price is falsy. *)
Definition missing (p : Product) : bool :=
  negb (truthy (VStr (Name p))) || negb (truthy (Price p)).


(** The same, ignoring the case of the letters: the upper-case form
    of the query is a substring of the upper-case form of the field. *)
Definition matches_ci (q : string) (p : Product) : bool :=
  includes_units (toUpperCase q) (toUpperCase (Name p))
  || includes_units (toUpperCase q) (toUpperCase (Description p))
  || includes_units (toUpperCase q) (toUpperCase (Category p)).







(** A number written with exactly two decimal places: an optional
    minus sign, at least one digit, a point, two digits. *)
Fixpoint all_digits (s : string) : bool :=
  match s with
  | String c r => bool_decide (is_Some (digit_of c)) && all_digits r
  | EmptyString => true
  end.

Fixpoint point_and_two (s : string) : bool :=
  match s with
  | String c r =>
      if (c =? ".")%char
      then (String.length r =? 2)%nat && all_digits r
      else bool_decide (is_Some (digit_of c)) && point_and_two r
  | EmptyString => false
  end.

Definition two_decimal_form (s : string) : bool :=
  match snd (scan_sign s) with
  | String "." _ => false
  | r => negb (starts_with "+" s) && point_and_two r
  end.

(** The integer nearest to [100 * m / 2^k], the larger one on a tie. *)
Definition hundredths (m : N) (k : nat) : N :=
  ((2 * m * 100 + 2 ^ N.of_nat k) / (2 * 2 ^ N.of_nat k))%N.

(** The magnitude [m / 2^k] with sign [neg], rounded to hundredths and
    written with two decimal places. *)
Definition two_decimals (neg : bool) (m : N) (k : nat) : string :=
  let n := hundredths m k in
  (if neg && negb (m =? 0)%N then "-" else "")
  ++ decimal (n / 100) ++ "."
  ++ String (digit_char (n / 10 mod 10)) (String (digit_char (n mod 10)) "").

(** [sId] is the ProductID of the record at index [i] and of no
    record before it. *)
Definition first_at (sId : option string) (l : list Product) (i : nat) (p : Product) : Prop :=
  l !! i = Some p /\ ProductID p = sId
  /\ forall j q, (j < i)%nat -> l !! j = Some q -> ProductID q <> sId.

(** The record the Create flow saves: what the user typed into the
    empty product, with the table's rows as its specifications. *)
Definition created (sToday : string) (u : Product -> Product)
    (v : list spec_row -> list spec_row) : Product :=
  set_Specifications (object_of (v [])) (form u (Create.oNewProduct sToday)).

(** The record the Edit flow saves for the record [p] it started from. *)
Definition edited (p : Product) (u : Product -> Product)
    (v : list spec_row -> list spec_row) : Product :=
  set_Specifications (object_of (v (rows_of (Specifications (json_copy p)))))
    (form u (json_copy p)).

(** The navigation fallback of Detail's and Edit's [onNavBack]. *)
Definition back_from_detail (s : State) : Effect :=
  match sPreviousHash s with
  | Some _ => history_go (-1)
  | None => navTo "master" None true
  end.

Definition back_from_edit (s : State) : Effect :=
  match sPreviousHash s with
  | Some _ => history_go (-1)
  | None =>
      navTo "detail"
        (Some (getProperty (viewData (Edit_view (edit s)) s) "ProductID")) true
  end.

End Spec.

(** ** Sample data: the seed records and what a user types *)

Module Sample.
Import JS UI5 App.

(** 1299.99 and 4.5 as binary64 values. *)
Definition price_1299_99 : number := Finite false 5717416483970089 42.
Definition rating_4_5 : number := Finite false 9 1.

Definition laptop : Product :=
  mkProduct (Some "1") "Laptop XPS 15" "High-performance laptop"
    (VNum price_1299_99) "USD" "Electronics" "Dell Technologies" true
    (VNum (Finite false 45 0)) (VNum rating_4_5) "2023-05-15"
    (<["RAM" := "16GB DDR4"]> (<["Processor" := "Intel Core i7-11800H"]> ∅)).

Definition phone : Product :=
  mkProduct (Some "2") "Smartphone" "Flagship phone"
    (VNum (Finite false 899 0)) "USD" "Electronics" "Acme" true
    (VNum (Finite false 120 0)) (VNum (Finite false 4 0)) "2023-08-01" ∅.

Definition seed : list Product := [laptop; phone].

Definition start : State := init seed "2026-11-02" None.

(** The user fills in the form: a name, a price, a category; the
    other fields and the ProductID are left as they are. *)
Definition typed (p : Product) : Product :=
  mkProduct (ProductID p) "Wireless Mouse" "Ergonomic mouse"
    (VNum (Finite false 25 0)) (Currency p) "Accessories" (SupplierName p)
    (InStock p) (Quantity p) (Rating p) (ReleaseDate p) (Specifications p).

(** The user adds a row to the specifications table. *)
Definition rows (aSpecs : list spec_row) : list spec_row :=
  (aSpecs ++ [("Color", "Black")])%list.

(** A record whose ID parses to a negative integer, and one whose ID
    is [2^53]. *)
Definition minus5 : Product := set_ProductID (Some "-5") phone.
Definition huge : Product := set_ProductID (Some "9007199254740992") phone.


(** The ProductID values of the array a handler leaves. *)
Definition ids_after (r : result unit) : option (list (option (option string))) :=
  match r with
  | Return _ s => Some (fmap (M := option) ProductID <$> contents s)
  | Throw _ _ => None
  end.

End Sample.

(** ** Navigation: the routes and the handlers that only navigate *)

Module Navigation.
Import JS UI5 App.

(** The handler each [onInit] attaches to its route with
    [attachPatternMatched]; [productId] is [arguments.productId] of the
    event, which the create route does not read. *)
Definition patternMatched (sName : string) (productId : string) : M unit :=
  if sName =? "create" then Create._onCreateMatched
  else if sName =? "detail" then Detail._onProductMatched productId
  else if sName =? "edit" then Edit._onEditMatched productId
  else mret tt.

(** Master's [onSelectionChange] for the list item bound to the array
    entry [iItem]; the result is the line written to the console. *)
Definition onSelectionChange (iItem : nat) : M string :=
  s ← get;
  let sProductId := getProperty (mjoin (contents s !! iItem)) "ProductID" in
  emit (navTo "detail" (Some sProductId) false);;
  mret ("Navigating to product: " ++ ToString sProductId).

Definition onAddPress : M string :=
  emit (navTo "create" None false);;
  mret "Navigating to create new product".

(** [n] presses of the Sort button. *)
Fixpoint presses (n : nat) : M unit :=
  match n with
  | O => mret tt
  | S n => Master.onSort;; presses n
  end.

(** Create flows one after the other, one form input per flow. *)
Fixpoint creates (inputs : list ((Product -> Product) * (list spec_row -> list spec_row))) : M unit :=
  match inputs with
  | [] => mret tt
  | input :: rest => Create.flow input.1 input.2;; creates rest
  end.

End Navigation.

(** ** Component.js: the content density class *)

Module Component.
Import JS App.

(** What [getContentDensityClass] reads from its surroundings: the
    classes of the document body and [Device.support.touch]. *)
Record Env := mkEnv {
  classList : list string;
  touch : bool
}.

Definition contains (env : Env) (sClass : string) : bool :=
  bool_decide (sClass ∈ classList env).

(** The class the body of the [if] stores. *)
Definition density (env : Env) : string :=
  if contains env "sapUiSizeCozy" || contains env "sapUiSizeCompact" then ""
  else if negb (touch env) then "sapUiSizeCompact"
  else "sapUiSizeCozy".

(** [getContentDensityClass] on the field [_sContentDensityClass]
    ([None] while it is not set): the value returned and the field
    afterwards. *)
Definition getContentDensityClass (env : Env) (_sContentDensityClass : option string) : value * option string :=
  let field :=
    if negb (truthy (opt_string _sContentDensityClass))
    then Some (density env)
    else _sContentDensityClass in
  (opt_string field, field).

(** The values a sequence of calls returns, one surrounding per call. *)
Fixpoint calls (envs : list Env) (_sContentDensityClass : option string) : list value :=
  match envs with
  | [] => []
  | env :: rest =>
      let r := getContentDensityClass env _sContentDensityClass in
      r.1 :: calls rest r.2
  end.

End Component.

(** ** More vocabulary: the specifications table and stable records *)

Module Rows.
Import JS App.

(** A row the loop of [onSavePress] takes: key and value non-empty. *)
Definition filled (spec : spec_row) : bool :=
  truthy (VStr spec.1) && truthy (VStr spec.2).

(** The last filled row of the table with the key [k]. *)
Definition last_filled (k : string) (aSpecs : list spec_row) : option spec_row :=
  last (List.filter (fun spec => bool_decide (spec.1 = k) && filled spec) aSpecs).

(** The one key left aside below: an assignment to ["__proto__"]
    with a string on the right does not create an entry. *)
Definition proto : string := "__proto__".

(** A record that [JSON.parse(JSON.stringify(...))] gives back as it
    is, and whose specifications all have a non-empty key and value,
    none under the key [proto]. *)
Definition stable (p : Product) : Prop :=
  json_copy p = p
  /\ Specifications p !! proto = None
  /\ forall k v, Specifications p !! k = Some v -> filled (k, v) = true.

End Rows.

(** ** A scenario: saving an edit after the array has shrunk *)

Module Scenario.
Import JS UI5 App.

(** The state a handler leaves. *)
Definition after (m : M unit) (s : State) : State :=
  match m s with
  | Return _ s' => s'
  | Throw _ s' => s'
  end.

(** The Edit form is opened for the second seed record; then both
    seed records are deleted through the Detail view. *)
Definition shrunk : State :=
  after (Edit._onEditMatched "2";; Detail.flow "1" OK;; Detail.flow "2" OK) Sample.start.

End Scenario.

(* ================================================================== *)
(** * Part II.  Properties                                              *)
(* ================================================================== *)

(** ** Objects in property order *)

Section Objects.
Import JS Obj.

Lemma str_eqb_eq (a b : string) : (a =? b) = true <-> a = b.
Proof. apply String.eqb_eq. Qed.

Lemma array_index_Some k n : array_index k = Some n -> k = decimal n.
Proof.
  unfold array_index. destruct (scan_digits k 0 0) as [[m c] r].
  destruct (decimal m =? k) eqn:He; [|done].
  destruct (m <? 2 ^ 32 - 1)%N; [|done]. simpl.
  intros [= <-]. symmetry. by apply String.eqb_eq.
Qed.

Lemma array_index_inj k1 k2 n :
  array_index k1 = Some n -> array_index k2 = Some n -> k1 = k2.
Proof. intros H1%array_index_Some H2%array_index_Some. congruence. Qed.

Lemma precedes_irrefl k : precedes k k = false.
Proof.
  unfold precedes. destruct (array_index k); [apply N.ltb_irrefl|done].
Qed.

(** No key comes both before and after another, and coming before is
    inherited along the property order. *)
Lemma precedes_asym k1 k2 : precedes k1 k2 = true -> precedes k2 k1 = false.
Proof.
  unfold precedes. destruct (array_index k1) as [a|], (array_index k2) as [b|]; try done.
  intros H%N.ltb_lt. apply N.ltb_ge. lia.
Qed.

Lemma precedes_after k k' k'' :
  precedes k k' = true -> precedes k'' k' = false -> k' <> k'' ->
  precedes k'' k = false /\ k <> k''.
Proof.
  unfold precedes.
  destruct (array_index k) as [a|] eqn:Ha; [|done].
  destruct (array_index k') as [b|] eqn:Hb, (array_index k'') as [c|] eqn:Hc; try done.
  - intros H1%N.ltb_lt H2%N.ltb_ge Hne. split; [apply N.ltb_ge; lia|].
    intros <-. rewrite Ha in Hc. injection Hc as ->. lia.
  - intros _ _ _. split; [done|]. intros <-. congruence.
  - intros _ _ _. split; [done|]. intros <-. congruence.
Qed.

Lemma precedes_total k k' :
  k' <> k -> precedes k k' = false -> precedes k' k = true \/ array_index k = None.
Proof.
  unfold precedes.
  destruct (array_index k) as [a|] eqn:Ha; [|by right].
  destruct (array_index k') as [b|] eqn:Hb; [|done].
  intros Hne H%N.ltb_ge. left. apply N.ltb_lt.
  destruct (decide (a = b)) as [->|]; [|lia].
  destruct Hne. by apply (array_index_inj _ _ b).
Qed.

Lemma ordered_cons k r :
  ordered (k :: r) = true <->
  (forall k', k' ∈ r -> k <> k' /\ precedes k' k = false) /\ ordered r = true.
Proof.
  cbn [ordered]. rewrite andb_true_iff, forallb_forall. split.
  - intros [H Hr]. split; [|done]. intros k' Hk'%list_elem_of_In.
    specialize (H k' Hk'). apply andb_true_iff in H as [H1 H2].
    apply negb_true_iff in H1, H2. split; [|done].
    intros ->. by rewrite String.eqb_refl in H1.
  - intros [H Hr]. split; [|done]. intros k' Hk'%list_elem_of_In.
    destruct (H k' Hk') as [Hne Hp]. rewrite Hp.
    destruct (String.eqb_spec k k'); done.
Qed.

Lemma ordered_NoDup ks : ordered ks = true -> NoDup ks.
Proof.
  induction ks as [|k r IH]; [intros; apply NoDup_nil_2|].
  intros [H Hr]%ordered_cons. apply NoDup_cons. split; [|by apply IH].
  intros Hin. by destruct (H k Hin).
Qed.

Lemma ordered_sublist ks ks' : sublist ks' ks -> ordered ks = true -> ordered ks' = true.
Proof.
  induction 1 as [|k l1 l2 Hs IH|k l1 l2 Hs IH]; [done| |].
  - intros [H Hr]%ordered_cons. apply ordered_cons. split; [|by apply IH].
    intros k' Hk'. apply H. by eapply elem_of_sublist.
  - intros [_ Hr]%ordered_cons. by apply IH.
Qed.

Lemma define_keys k v l k' :
  k' ∈ (define k v l).*1 -> k' = k \/ k' ∈ l.*1.
Proof.
  induction l as [|[k0 v0] r IH]; simpl.
  - intros ->%list_elem_of_singleton. by left.
  - destruct (String.eqb_spec k0 k) as [->|Hne].
    + simpl. intros [->|H]%elem_of_cons; [by left|]. right. by right.
    + destruct (precedes k k0).
      * simpl. intros [->|H]%elem_of_cons; [by left|by right].
      * simpl. intros [->|H]%elem_of_cons; [right; left|].
        destruct (IH H) as [->|Hr]; [by left|]. right. by right.
Qed.

Lemma define_ordered k v l : ordered l.*1 = true -> ordered (define k v l).*1 = true.
Proof.
  induction l as [|[k0 v0] r IH]; [done|].
  intros Ho. pose proof Ho as [H Hr]%ordered_cons. cbn [define].
  destruct (String.eqb_spec k0 k) as [->|Hne]; [exact Ho|].
  destruct (precedes k k0) eqn:Hp.
  - change (ordered (k :: (k0 :: r.*1)) = true). apply ordered_cons. split; [|exact Ho].
    intros k' [->|Hk']%elem_of_cons.
    + split; [done|]. by apply precedes_asym.
    + destruct (H k' Hk') as [Hne' Hp'].
      destruct (precedes_after k k0 k' Hp Hp' Hne') as [? ?]. done.
  - change (ordered (k0 :: (define k v r).*1) = true). apply ordered_cons.
    split; [|by apply IH].
    intros k' [->|Hk']%define_keys; [done|]. by apply H.
Qed.

Lemma remove_ordered k l : ordered l.*1 = true -> ordered (remove k l).*1 = true.
Proof.
  apply ordered_sublist, fmap_sublist. unfold remove.
  induction l as [|x l IH]; [done|]. simpl. destruct (negb _); by constructor.
Qed.

Lemma get_define_eq k v l : get k (define k v l) = Some v.
Proof.
  induction l as [|[k0 v0] r IH]; simpl; [by rewrite String.eqb_refl|].
  destruct (String.eqb_spec k0 k) as [->|Hne]; simpl; [by rewrite String.eqb_refl|].
  destruct (precedes k k0); simpl; [by rewrite String.eqb_refl|].
  by destruct (String.eqb_spec k0 k).
Qed.

Lemma get_define_ne k k' v l : k <> k' -> get k' (define k v l) = get k' l.
Proof.
  intros Hne. induction l as [|[k0 v0] r IH]; simpl.
  - by destruct (String.eqb_spec k k').
  - destruct (String.eqb_spec k0 k) as [->|Hne0]; simpl.
    + by destruct (String.eqb_spec k k').
    + destruct (precedes k k0); simpl.
      * by destruct (String.eqb_spec k k').
      * by rewrite IH.
Qed.

Lemma get_remove_eq k l : get k (remove k l) = None.
Proof.
  induction l as [|[k0 v0] r IH]; [done|]. unfold remove in *. simpl.
  destruct (String.eqb_spec k0 k) as [->|Hne]; simpl; [done|].
  by destruct (String.eqb_spec k0 k).
Qed.

Lemma get_remove_ne k k' l : k <> k' -> get k' (remove k l) = get k' l.
Proof.
  intros Hne. induction l as [|[k0 v0] r IH]; [done|]. unfold remove in *. simpl.
  destruct (String.eqb_spec k0 k) as [->|Hne0]; simpl.
  - by destruct (String.eqb_spec k k').
  - by rewrite IH.
Qed.

Lemma get_Some l k v : NoDup l.*1 -> get k l = Some v <-> (k, v) ∈ l.
Proof.
  induction l as [|[k0 v0] r IH]; simpl.
  - intros _. split; [done|]. intros H. by apply elem_of_nil in H.
  - intros [Hnin Hnd]%NoDup_cons. destruct (String.eqb_spec k0 k) as [->|Hne].
    + split.
      * intros [= ->]. left.
      * intros [[= ->]|Hin]%elem_of_cons; [done|].
        destruct Hnin. apply list_elem_of_fmap. by exists (k, v).
    + rewrite (IH Hnd). split.
      * intros H. by right.
      * intros [[= <- <-]|Hin]%elem_of_cons; done.
Qed.

Lemma get_None l k : get k l = None <-> k ∉ l.*1.
Proof.
  induction l as [|[k0 v0] r IH]; simpl.
  - split; [intros _ H; by apply elem_of_nil in H|done].
  - destruct (String.eqb_spec k0 k) as [->|Hne].
    + split; [done|]. intros H. destruct H. left.
    + rewrite IH. split.
      * intros H [->|Hin]%elem_of_cons; done.
      * intros H Hin. apply H. by right.
Qed.

(** A new key that no property of the object has to come after goes
    to the end. *)
Lemma define_snoc k v l :
  (forall k', k' ∈ l.*1 -> k' <> k /\ precedes k k' = false) ->
  define k v l = (l ++ [(k, v)])%list.
Proof.
  induction l as [|[k0 v0] r IH]; [done|]. intros H. simpl.
  destruct (H k0) as [Hne Hp]; [left|].
  destruct (String.eqb_spec k0 k); [done|]. rewrite Hp. f_equal.
  apply IH. intros k' Hk'. apply H. by right.
Qed.

Lemma make_props l : ordered l.*1 = true -> props (make l) = l.
Proof. intros H. unfold make. by destruct (decide _). Qed.

Lemma object_eq (o1 o2 : object) : props o1 = props o2 -> o1 = o2.
Proof.
  destruct o1 as [l1 H1], o2 as [l2 H2]. simpl. intros ->.
  f_equal. apply proof_irrel.
Qed.

Lemma props_insert k v (o : object) : props (<[k := v]> o) = define k v (props o).
Proof. apply make_props, define_ordered, props_ordered. Qed.

Lemma props_delete k (o : object) : props (delete k o) = remove k (props o).
Proof. apply make_props, remove_ordered, props_ordered. Qed.

Lemma lookup_props k (o : object) : o !! k = get k (props o).
Proof. reflexivity. Qed.

Lemma object_lookup_empty k : (∅ : object) !! k = None.
Proof. reflexivity. Qed.

Lemma object_lookup_insert_eq k v (o : object) : <[k := v]> o !! k = Some v.
Proof. rewrite lookup_props, props_insert. apply get_define_eq. Qed.

Lemma object_lookup_insert_ne k k' v (o : object) :
  k <> k' -> <[k := v]> o !! k' = o !! k'.
Proof. intros H. rewrite !lookup_props, props_insert. by apply get_define_ne. Qed.

Lemma object_lookup_delete_eq k (o : object) : delete k o !! k = None.
Proof. rewrite lookup_props, props_delete. apply get_remove_eq. Qed.

Lemma object_lookup_delete_ne k k' (o : object) :
  k <> k' -> delete k o !! k' = o !! k'.
Proof. intros H. rewrite !lookup_props, props_delete. by apply get_remove_ne. Qed.

Lemma lookup_assign k v (o : object) k' :
  k' <> "__proto__" ->
  assign k v o !! k' = if decide (k = k') then Some v else o !! k'.
Proof.
  intros Hp. unfold assign. destruct (String.eqb_spec k "__proto__") as [->|Hne].
  - by rewrite decide_False.
  - destruct (decide (k = k')) as [->|Hkk].
    + apply object_lookup_insert_eq.
    + by apply object_lookup_insert_ne.
Qed.

Lemma lookup_assign_proto k v (o : object) :
  assign k v o !! "__proto__" = o !! "__proto__".
Proof.
  unfold assign. destruct (String.eqb_spec k "__proto__") as [->|Hne]; [done|].
  by apply object_lookup_insert_ne.
Qed.

End Objects.

(** ** Decimal digits *)

Section Digits.
Import JS.

Lemma str_app_cons (x : ascii) (a b : string) : String x a ++ b = String x (a ++ b).
Proof. reflexivity. Qed.

Lemma str_app_nil_l (a : string) : "" ++ a = a.
Proof. reflexivity. Qed.

Lemma str_app_assoc (a b c : string) : (a ++ b) ++ c = a ++ (b ++ c).
Proof. induction a as [|x a IH]; [done|]. rewrite !str_app_cons. by rewrite IH. Qed.

Lemma str_app_nil_r (a : string) : a ++ "" = a.
Proof. induction a as [|x a IH]; [done|]. rewrite str_app_cons. by rewrite IH. Qed.

Lemma str_length_app (a b : string) :
  String.length (a ++ b) = (String.length a + String.length b)%nat.
Proof. induction a as [|x a IH]; [done|]. rewrite str_app_cons. simpl. by rewrite IH. Qed.

Lemma digit_of_digit_char d : (d < 10)%N -> digit_of (digit_char d) = Some d.
Proof.
  intros H. unfold digit_of, digit_char, code.
  rewrite N_ascii_embedding by lia.
  replace ((48 <=? 48 + d) && (48 + d <=? 57))%N with true.
  - f_equal. lia.
  - symmetry. apply andb_true_iff. split; apply N.leb_le; lia.
Qed.

Lemma log2_div10_lt n : (10 <= n)%N -> (N.log2 (n / 10) < N.log2 n)%N.
Proof.
  intros H.
  apply N.le_lt_trans with (N.log2 (n / 2)).
  - apply N.log2_le_mono. 
    apply N.div_le_compat_l. lia.
  - rewrite <- N.div2_div, N.div2_spec, N.log2_shiftr.
    assert (0 < N.log2 n)%N; [|lia].
    apply N.log2_pos. lia.
Qed.

Lemma decimal_digits_fuel (b : nat) : forall n fuel1 fuel2 acc,
  (N.to_nat (N.log2 n) < b)%nat ->
  (N.to_nat (N.log2 n) < fuel1)%nat -> (N.to_nat (N.log2 n) < fuel2)%nat ->
  decimal_digits fuel1 n acc = decimal_digits fuel2 n "" ++ acc.
Proof.
  induction b as [|b IH]; intros n fuel1 fuel2 acc Hb H1 H2; [lia|].
  destruct fuel1 as [|fuel1]; [lia|]. destruct fuel2 as [|fuel2]; [lia|]. simpl.
  destruct (N.ltb_spec n 10) as [Hn|Hn]; [done|].
  pose proof (log2_div10_lt n Hn) as Hl.
  rewrite (IH _ fuel1 fuel2) by lia.
  rewrite (IH _ fuel2 fuel2 (String _ "")) by lia.
  by rewrite str_app_assoc.
Qed.

Lemma decimal_small n : (n < 10)%N -> decimal n = String (digit_char n) "".
Proof.
  intros H. unfold decimal. simpl.
  rewrite N.mod_small by done.
  by destruct (N.ltb_spec n 10); [|lia].
Qed.

Lemma decimal_step n :
  (10 <= n)%N -> decimal n = decimal (n / 10) ++ String (digit_char (n mod 10)) "".
Proof.
  intros H. unfold decimal at 1. simpl.
  destruct (N.ltb_spec n 10) as [Hn|Hn]; [lia|].
  pose proof (log2_div10_lt n Hn) as Hl.
  unfold decimal. apply (decimal_digits_fuel (S (N.to_nat (N.log2 n)))); lia.
Qed.


Lemma N_digits_ind (P : N -> Prop) :
  (forall n, (n < 10)%N -> P n) ->
  (forall n, (10 <= n)%N -> P (n / 10)%N -> P n) ->
  forall n, P n.
Proof.
  intros Hs Hb n. induction n as [n IH] using (well_founded_induction N.lt_wf_0).
  destruct (N.ltb_spec n 10) as [Hn|Hn]; [by apply Hs|].
  apply Hb; [done|]. apply IH. apply N.div_lt; lia.
Qed.

Lemma scan_digits_decimal n : forall r acc c,
  scan_digits (decimal n ++ r) acc c =
  scan_digits r (acc * 10 ^ N.of_nat (String.length (decimal n)) + n)%N
                (c + String.length (decimal n)).
Proof.
  induction n as [n Hn|n Hn IH] using N_digits_ind; intros r acc c.
  - rewrite decimal_small by done. rewrite str_app_cons, str_app_nil_l.
    cbn [scan_digits String.length]. rewrite digit_of_digit_char by done.
    change (N.of_nat 1) with 1%N. rewrite N.pow_1_r. f_equal; lia.
  - rewrite decimal_step by done.
    rewrite str_app_assoc, IH, str_length_app.
    rewrite str_app_cons, str_app_nil_l.
    cbn [scan_digits String.length]. rewrite digit_of_digit_char by (apply N.mod_lt; lia).
    f_equal; [|lia].
    rewrite Nat2N.inj_add, N.pow_add_r. change (N.of_nat 1) with 1%N.
    rewrite N.pow_1_r.
    generalize (10 ^ N.of_nat (String.length (decimal (n / 10))))%N. intros P.
    pose proof (N.div_mod n 10). lia.
Qed.

Lemma decimal_length_pos n : (0 < String.length (decimal n))%nat.
Proof.
  destruct (N.ltb_spec n 10) as [Hn|Hn].
  - rewrite decimal_small by done. simpl. lia.
  - rewrite decimal_step, str_length_app by done. simpl. lia.
Qed.

Lemma decimal_length_le n : forall j : nat,
  (0 < j)%nat -> (n < 10 ^ N.of_nat j)%N -> (String.length (decimal n) <= j)%nat.
Proof.
  induction n as [n Hn|n Hn IH] using N_digits_ind; intros j Hj Hlt.
  - rewrite decimal_small by done. simpl. lia.
  - rewrite decimal_step, str_length_app by done. simpl.
    destruct j as [|j]; [lia|].
    destruct j as [|j]; [simpl in Hlt; lia|].
    assert (String.length (decimal (n / 10)) <= S j)%nat; [|lia].
    apply IH; [lia|].
    apply N.Div0.div_lt_upper_bound.
    replace (N.of_nat (S (S j))) with (N.succ (N.of_nat (S j))) in Hlt by lia.
    by rewrite N.pow_succ_r' in Hlt.
Qed.

Lemma zeros_snoc e : zeros e ++ "0" = zeros (S e).
Proof.
  induction e as [|e IH]; [done|].
  change (zeros (S e)) with (String "0" (zeros e)) at 1.
  by rewrite str_app_cons, IH.
Qed.

Lemma decimal_mul10 n : (0 < n)%N -> decimal (n * 10) = decimal n ++ "0".
Proof.
  intros H. rewrite decimal_step by lia.
  rewrite N.div_mul by lia. by rewrite N.Div0.mod_mul.
Qed.

Lemma decimal_mul_pow10 n (e : nat) :
  (0 < n)%N -> decimal (n * 10 ^ N.of_nat e) = decimal n ++ zeros e.
Proof.
  intros H. induction e as [|e IH].
  - simpl. by rewrite N.mul_1_r, str_app_nil_r.
  - replace (N.of_nat (S e)) with (N.succ (N.of_nat e)) by lia.
    rewrite N.pow_succ_r', <- zeros_snoc, <- str_app_assoc, <- IH.
    replace (n * (10 * 10 ^ N.of_nat e))%N with (n * 10 ^ N.of_nat e * 10)%N by lia.
    apply decimal_mul10.
    assert (0 < 10 ^ N.of_nat e)%N by (apply N.neq_0_lt_0, N.pow_nonzero; lia). nia.
Qed.

End Digits.

Section Rounding.
Import JS.

Lemma canon_shift n (j : nat) : canon (n * 2 ^ N.of_nat j) j = (n, O).
Proof.
  induction j as [|j IH]; simpl canon.
  - f_equal. change (N.of_nat 0) with 0%N. rewrite N.pow_0_r. lia.
  - replace (N.of_nat (S j)) with (N.succ (N.of_nat j)) by lia.
    rewrite N.pow_succ_r'.
    replace (n * (2 * 2 ^ N.of_nat j))%N with (2 * (n * 2 ^ N.of_nat j))%N by lia.
    rewrite N.even_mul. simpl (N.even 2 || _).
    rewrite N.mul_comm, N.div_mul by lia. exact IH.
Qed.

Lemma rne_1 x : rne x 1 = x.
Proof.
  unfold rne. rewrite Z.mod_1_r, Z.div_1_r. reflexivity.
Qed.

Lemma floor_log2_ratio_1 v : (0 < v)%Z -> floor_log2_ratio v 1 = Z.log2 v.
Proof.
  intros Hv. unfold floor_log2_ratio.
  change (Z.log2 1) with 0%Z. rewrite Z.sub_0_r.
  pose proof (Z.log2_nonneg v) as Hl.
  destruct (Z.leb_spec 0 (Z.log2 v)) as [_|?]; [|lia].
  pose proof (Z.log2_spec v Hv) as [Hlo _].
  destruct (Z.leb_spec (1 * 2 ^ Z.log2 v) v) as [_|?]; [done|lia].
Qed.

Lemma round_ratio_int neg n :
  (n < 2 ^ 53)%N -> round_ratio neg (Z.of_N n) 1 = Finite neg n 0.
Proof.
  intros Hn. unfold round_ratio.
  destruct (Z.eqb_spec (Z.of_N n) 0) as [H0|H0].
  { f_equal. lia. }
  assert (0 < Z.of_N n)%Z as Hpos by lia.
  rewrite floor_log2_ratio_1 by done.
  assert (Z.log2 (Z.of_N n) < 53)%Z as Hl.
  { apply Z.log2_lt_pow2; [done|]. change (2 ^ 53)%Z with (Z.of_N (2 ^ 53)). lia. }
  pose proof (Z.log2_nonneg (Z.of_N n)) as Hl0.
  set (L := Z.log2 (Z.of_N n)) in *.
  replace (Z.max (L - 52) (-1074)) with (L - 52)%Z by lia.
  destruct (Z.leb_spec 0 (L - 52)) as [Hex|Hex].
  - replace (L - 52)%Z with 0%Z by lia.
    change (2 ^ 0)%Z with 1%Z. rewrite !Z.mul_1_r, rne_1.
    destruct (Z.leb_spec (2 ^ 1024) (Z.of_N n)) as [Hbig|_].
    + exfalso. assert (2 ^ 53 < 2 ^ 1024)%Z by (apply Z.pow_lt_mono_r; lia).
      assert (Z.of_N n < 2 ^ 53)%Z; [|lia].
      change (2 ^ 53)%Z with (Z.of_N (2 ^ 53)). lia.
    + by rewrite N2Z.id.
  - rewrite rne_1.
    replace (Z.to_N (Z.of_N n * 2 ^ (- (L - 52))))
      with (n * 2 ^ N.of_nat (Z.to_nat (- (L - 52))))%N.
    + by rewrite canon_shift.
    + rewrite Z2N.inj_mul, N2Z.id by (try apply Z.pow_nonneg; lia).
      f_equal. rewrite Z2N.inj_pow by lia. f_equal. lia.
Qed.

Lemma round_ratio_big neg v n :
  (2 ^ 53 <= v)%Z -> (n < 2 ^ 53)%N -> round_ratio neg v 1 <> Finite neg n 0.
Proof.
  intros Hv Hn. unfold round_ratio.
  assert (0 < 2 ^ 53)%Z as H53 by (apply Z.pow_pos_nonneg; lia).
  destruct (Z.eqb_spec v 0) as [H0|H0]; [lia|].
  rewrite floor_log2_ratio_1 by lia.
  assert (53 <= Z.log2 v)%Z as Hl.
  { apply Z.log2_le_pow2; lia. }
  pose proof (Z.log2_spec v ltac:(lia)) as [Hlo _].
  set (L := Z.log2 v) in *.
  replace (Z.max (L - 52) (-1074)) with (L - 52)%Z by lia.
  destruct (Z.leb_spec 0 (L - 52)) as [Hex|Hex]; [|lia].
  rewrite Z.mul_1_l.
  set (ex := (L - 52)%Z) in *.
  assert (0 < 2 ^ ex)%Z as Hp by (apply Z.pow_pos_nonneg; lia).
  assert (2 ^ 52 <= v / 2 ^ ex)%Z as Hq.
  { apply Z.div_le_lower_bound; [done|].
    rewrite Z.mul_comm, <- Z.pow_add_r by lia. by replace (52 + ex)%Z with L by lia. }
  assert (v / 2 ^ ex <= rne v (2 ^ ex))%Z as Hr.
  { unfold rne. repeat case_match; lia. }
  assert (2 ^ 53 <= rne v (2 ^ ex) * 2 ^ ex)%Z as Hval.
  { change (2 ^ 53)%Z with (2 ^ 52 * 2 ^ 1)%Z.
    assert (2 ^ 1 <= 2 ^ ex)%Z by (apply Z.pow_le_mono_r; lia).
    assert (0 < 2 ^ 52)%Z by (apply Z.pow_pos_nonneg; lia).
    nia. }
  destruct (Z.leb_spec (2 ^ 1024) (rne v (2 ^ ex) * 2 ^ ex)) as [_|_]; [done|].
  intros [= Heq]. 
  assert (Z.of_N n < 2 ^ 53)%Z by (change (2 ^ 53)%Z with (Z.of_N (2 ^ 53)); lia).
  lia.
Qed.


Lemma add_int a b :
  (a + b < 2 ^ 53)%N ->
  add (Finite false a 0) (Finite false b 0) = Finite false (a + b) 0.
Proof.
  intros H. unfold add, signed. simpl Nat.max. simpl Nat.sub.
  change (2 ^ Z.of_nat 0)%Z with 1%Z. rewrite !Z.mul_1_r.
  destruct (Z.eqb_spec (Z.of_N a + Z.of_N b) 0) as [H0|H0].
  - simpl. f_equal. lia.
  - destruct (Z.ltb_spec (Z.of_N a + Z.of_N b) 0) as [?|_]; [lia|].
    rewrite Z.abs_eq by lia. rewrite <- N2Z.inj_add.
    by apply round_ratio_int.
Qed.

Lemma gt_int na a nb b :
  gt (Finite na a 0) (Finite nb b 0) = (signed nb b <? signed na a)%Z.
Proof.
  unfold gt, lt. change (2 ^ Z.of_nat 0)%Z with 1%Z. by rewrite !Z.mul_1_r.
Qed.

Section ToStringInt.
Variable n : N.
Hypothesis Hpos : (0 < n)%N.
Hypothesis Hsafe : (n < 2 ^ 53)%N.

Let n0 : Z := Z.of_nat (String.length (decimal n)).

Lemma decade_int : decade n 0 = n0.
Proof.
  unfold decade. change (2 ^ Z.of_nat 0)%Z with 1%Z.
  destruct (Z.leb_spec 1 (Z.of_N n)) as [_|?]; [|lia].
  by rewrite Z.div_1_r, N2Z.id.
Qed.

Lemma n0_bounds : (1 <= n0 <= 16)%Z.
Proof.
  unfold n0. pose proof (decimal_length_pos n).
  pose proof (decimal_length_le n 16 ltac:(lia)) as Hle.
  assert (n < 10 ^ N.of_nat 16)%N.
  { eapply N.lt_trans; [exact Hsafe|]. by vm_compute. }
  specialize (Hle H0). lia.
Qed.

Lemma rounds_to_int (s e : Z) :
  (0 <= s)%Z -> (0 <= e)%Z ->
  rounds_to (Finite false n 0) s e = bool_decide (s * 10 ^ e = Z.of_N n)%Z.
Proof.
  intros Hs He. unfold rounds_to, scaled.
  destruct (Z.leb_spec 0 e) as [_|?]; [|lia].
  assert (0 <= s * 10 ^ e)%Z as Hnn.
  { apply Z.mul_nonneg_nonneg; [done|]. apply Z.pow_nonneg. lia. }
  assert (Z.of_N n < 2 ^ 53)%Z as Hn53.
  { change (2 ^ 53)%Z with (Z.of_N (2 ^ 53)). lia. }
  destruct (Z.ltb_spec (s * 10 ^ e) (2 ^ 53)) as [Hlt|Hge].
  - replace (round_ratio false (s * 10 ^ e) 1)
      with (round_ratio false (Z.of_N (Z.to_N (s * 10 ^ e))) 1)
      by (by rewrite Z2N.id).
    rewrite round_ratio_int.
    + apply bool_decide_ext. split.
      * intros [= H]. lia.
      * intros H. f_equal. lia.
    + change (2 ^ 53)%N with (Z.to_N (2 ^ 53)). lia.
  - rewrite bool_decide_eq_false_2 by (by apply round_ratio_big).
    symmetry. apply bool_decide_eq_false_2. lia.
Qed.

Lemma candidates_int (kk : Z) :
  (1 <= kk <= n0)%Z ->
  candidates n 0 n0 kk =
    if bool_decide (Z.of_N n / 10 ^ (n0 - kk) * 10 ^ (n0 - kk) = Z.of_N n)%Z
    then Some (Z.of_N n / 10 ^ (n0 - kk), n0)%Z else None.
Proof.
  intros Hk. unfold candidates.
  change (2 ^ Z.of_nat 0)%Z with 1%Z. rewrite Z.mul_1_l.
  destruct (Z.leb_spec 0 (n0 - kk)) as [He|?]; [|lia].
  set (e := (n0 - kk)%Z) in *.
  assert (0 < 10 ^ e)%Z as Hp by (apply Z.pow_pos_nonneg; lia).
  set (lo := (Z.of_N n / 10 ^ e)%Z).
  assert (0 <= lo)%Z as Hlo by (apply Z.div_pos; lia).
  assert (lo * 10 ^ e <= Z.of_N n < (lo + 1) * 10 ^ e)%Z as Hb.
  { unfold lo. pose proof (Z.div_mod (Z.of_N n) (10 ^ e) ltac:(lia)).
    pose proof (Z.mod_pos_bound (Z.of_N n) (10 ^ e) Hp). lia. }
  rewrite !rounds_to_int by lia.
  rewrite (bool_decide_eq_false_2 ((lo + 1) * 10 ^ e = Z.of_N n)%Z) by lia.
  simpl negb. rewrite orb_true_l, andb_true_r.
  by destruct (bool_decide (lo * 10 ^ e = Z.of_N n)%Z).
Qed.

Lemma layout_int (kk : Z) :
  (1 <= kk <= n0)%Z ->
  (Z.of_N n / 10 ^ (n0 - kk) * 10 ^ (n0 - kk) = Z.of_N n)%Z ->
  layout (Z.of_N n / 10 ^ (n0 - kk)) kk n0 = decimal n.
Proof.
  intros Hk Hdiv. pose proof n0_bounds as Hn0. unfold layout.
  destruct (Z.leb_spec (-5) n0) as [_|?]; [|lia].
  destruct (Z.leb_spec n0 21) as [_|?]; [|lia].
  destruct (Z.leb_spec kk n0) as [_|?]; [|lia].
  simpl andb. cbv iota.
  set (e := (n0 - kk)%Z) in *.
  assert (0 < 10 ^ e)%Z as Hp by (apply Z.pow_pos_nonneg; lia).
  set (lo := (Z.of_N n / 10 ^ e)%Z) in *.
  assert (0 < lo)%Z as Hlo by nia.
  rewrite <- decimal_mul_pow10 by lia. f_equal.
  apply N2Z.inj. rewrite <- Hdiv, N2Z.inj_mul, N2Z.inj_pow, Z2N.id by lia.
  f_equal. f_equal. lia.
Qed.

Lemma shortest_int (fuel : nat) : forall kk : Z,
  (1 <= kk <= n0)%Z -> (Z.to_nat (n0 - kk) < fuel)%nat ->
  exists s k', shortest fuel n 0 n0 kk = Some (s, k', n0)
               /\ layout s k' n0 = decimal n.
Proof.
  induction fuel as [|fuel IH]; intros kk Hk Hf; [lia|].
  simpl shortest. rewrite candidates_int by done.
  case_bool_decide as Hdiv.
  - eexists _, _. split; [done|]. by apply layout_int.
  - assert (kk <> n0) as Hne.
    { intros ->. apply Hdiv. rewrite Z.sub_diag. change (10 ^ 0)%Z with 1%Z.
      by rewrite Z.div_1_r, Z.mul_1_r. }
    apply IH; lia.
Qed.

Lemma Number_toString_int : Number_toString (Finite false n 0) = decimal n.
Proof.
  unfold Number_toString.
  destruct (N.eqb_spec n 0) as [?|_]; [lia|].
  rewrite decade_int. pose proof n0_bounds as Hn0.
  destruct (shortest_int 17 1) as (s & k' & -> & Hl); [lia..|].
  by rewrite Hl.
Qed.
End ToStringInt.

End Rounding.

(** ** Parsing what was printed, and the order on numbers *)

Section ParseInt.
Import JS.

Lemma digit_cases (P : N -> Prop) :
  P 0%N -> P 1%N -> P 2%N -> P 3%N -> P 4%N -> P 5%N -> P 6%N -> P 7%N ->
  P 8%N -> P 9%N -> forall d, (d < 10)%N -> P d.
Proof.
  intros H0 H1 H2 H3 H4 H5 H6 H7 H8 H9 d Hd.
  assert (d = 0 \/ d = 1 \/ d = 2 \/ d = 3 \/ d = 4 \/ d = 5 \/ d = 6 \/ d = 7
          \/ d = 8 \/ d = 9)%N as Hc by lia.
  repeat (destruct Hc as [->|Hc]; [assumption|]). by subst.
Qed.

Lemma digit_char_head d r :
  (d < 10)%N ->
  trim_start (String (digit_char d) r) = String (digit_char d) r
  /\ scan_sign (String (digit_char d) r) = (false, String (digit_char d) r).
Proof. revert d. by apply digit_cases. Qed.

Lemma decimal_head n : exists d r, (d < 10)%N /\ decimal n = String (digit_char d) r.
Proof.
  induction n as [n Hn|n Hn IH] using N_digits_ind.
  - exists n, "". split; [done|]. by apply decimal_small.
  - destruct IH as (d & r & Hd & Hr).
    exists d, (r ++ String (digit_char (n mod 10)) ""). split; [done|].
    by rewrite decimal_step, Hr.
Qed.

Lemma parseInt10_decimal n :
  (n < 2 ^ 53)%N -> parseInt10 (decimal n) = Finite false n 0.
Proof.
  intros Hn. unfold parseInt10.
  destruct (decimal_head n) as (d & r & Hd & Hr).
  destruct (digit_char_head d r Hd) as [Ht Hs].
  rewrite Hr, Ht, Hs, <- Hr.
  rewrite <- (str_app_nil_r (decimal n)), scan_digits_decimal.
  cbn [scan_digits]. rewrite N.mul_0_l, N.add_0_l, Nat.add_0_l.
  pose proof (decimal_length_pos n).
  destruct (String.length (decimal n)); [lia|].
  by apply round_ratio_int.
Qed.

End ParseInt.

Section Order.
Import JS.

Lemma pow2_pos (k : nat) : (0 < 2 ^ Z.of_nat k)%Z.
Proof. apply Z.pow_pos_nonneg; lia. Qed.

(** The order on numbers: [lt] is transitive, and what is not below
    [a] is not below anything under [a]. *)
Lemma lt_trans x y z : lt x y = true -> lt y z = true -> lt x z = true.
Proof.
  destruct x as [|nx|nx mx kx], y as [|ny|ny my ky], z as [|nz|nz mz kz];
    simpl; try done; try (by destruct nx, ny, nz).
  rewrite !Z.ltb_lt. intros H1 H2.
  pose proof (pow2_pos kx). pose proof (pow2_pos ky). pose proof (pow2_pos kz).
  apply (Z.mul_lt_mono_pos_r (2 ^ Z.of_nat ky)); [done|]. 
  nia.
Qed.

Lemma lt_asym x y : lt x y = true -> lt y x = false.
Proof.
  destruct x as [|nx|nx mx kx], y as [|ny|ny my ky];
    simpl; try done; try (by destruct nx, ny); try (by destruct nx); try (by destruct ny).
  rewrite Z.ltb_lt, Z.ltb_ge. lia.
Qed.

Lemma lt_le_trans a x y :
  lt a x = true -> lt a y = false -> y <> NaN -> lt y x = true.
Proof.
  destruct a as [|na|na ma ka], x as [|nx|nx mx kx], y as [|ny|ny my ky];
    simpl; try done; try (by destruct na, nx, ny); try (by destruct na, nx);
    try (by destruct na, ny); try (by destruct nx, ny).
  rewrite !Z.ltb_lt, Z.ltb_ge. intros H1 H2 _.
  pose proof (pow2_pos kx). pose proof (pow2_pos ky). pose proof (pow2_pos ka).
  apply (Z.mul_lt_mono_pos_r (2 ^ Z.of_nat ka)); [done|]. 
  nia.
Qed.

End Order.

(** ** The maximum search of [_generateProductId] *)

Section MaxId.
Import JS App Spec.

Lemma lt_irrefl x : lt x x = false.
Proof.
  destruct (lt x x) eqn:H; [|done]. by rewrite (lt_asym _ _ H) in H.
Qed.

Lemma is_max0_step xs m x :
  is_max0 xs m -> is_max0 (xs ++ [x]) (if gt x m then x else m).
Proof.
  intros [Hm Hub]. unfold gt in *. destruct (lt m x) eqn:Hx.
  - split.
    + right. split; [apply elem_of_app; right; by apply list_elem_of_singleton|].
      destruct Hm as [->|[_ Hm]]; [done|]. by apply (lt_trans _ m).
    + intros y [Hy| ->%list_elem_of_singleton]%elem_of_app.
      * destruct (lt x y) eqn:Hxy; [|done].
        pose proof (Hub y Hy) as Hf. by rewrite (lt_trans _ _ _ Hx Hxy) in Hf.
      * apply lt_irrefl.
  - split.
    + destruct Hm as [->|[? ?]]; [by left|]. right. split; [|done].
      apply elem_of_app. by left.
    + intros y [Hy| ->%list_elem_of_singleton]%elem_of_app; [by apply Hub|done].
Qed.

Lemma fold_visit_is_max0 a : forall xs m,
  is_max0 xs m -> is_max0 (xs ++ parses a) (fold_left Create.visit a m).
Proof.
  induction a as [|[p|] a IH]; intros xs m H; simpl.
  - by rewrite app_nil_r.
  - change (parses (Some p :: a)) with (parseInt (id_value p) :: parses a).
    rewrite (cons_middle _ xs), app_assoc. apply IH. by apply is_max0_step.
  - by apply IH.
Qed.

Lemma scanMaxId_is_max0 a : is_max0 (parses a) (Create.scanMaxId a).
Proof.
  apply (fold_visit_is_max0 a [] (Finite false 0 0)).
  split; [by left|]. intros x Hx. by apply elem_of_nil in Hx.
Qed.

Lemma fold_visit_filter a : forall m,
  lt m (Finite false 0 0) = false ->
  fold_left Create.visit a m = fold_left Create.visit (List.filter positive_id a) m.
Proof.
  induction a as [|[p|] a IH]; intros m Hm; cbn [List.filter fold_left];
    [done| |by apply IH].
  set (x := parseInt (id_value p)).
  change (positive_id (Some p)) with (lt (Finite false 0 0) x).
  change (Create.visit m (Some p)) with (if lt m x then x else m).
  destruct (lt (Finite false 0 0) x) eqn:Hp.
  - cbn [fold_left].
    change (Create.visit m (Some p)) with (if lt m x then x else m).
    apply IH. destruct (lt m x) eqn:Hx; [|done]. by apply lt_asym.
  - destruct (lt m x) eqn:Hx; [|by apply IH].
    by rewrite (lt_le_trans _ _ _ Hx Hm) in Hp.
Qed.

Lemma parses_dense (l : list Product) :
  parses (Some <$> l) = (fun p => parseInt (id_value p)) <$> l.
Proof.
  induction l as [|p l IH]; [done|].
  change (parses (Some <$> p :: l))
    with (parseInt (id_value p) :: parses (Some <$> l)).
  by rewrite IH.
Qed.

(** An ID is in the safe range when it does not parse, or parses to an
    integer below [2^53 - 1]. *)
(** The boundary [2^53]: adding 1 to [2^53 - 1] is still exact, and
    [2^53] is written and read back without loss. *)
Lemma add_one_int mm :
  (mm < 2 ^ 53)%N -> add (Finite false mm 0) (Finite false 1 0) = Finite false (mm + 1) 0.
Proof.
  intros H. destruct (decide (mm + 1 < 2 ^ 53)%N) as [Hlt|Hge]; [by apply add_int|].
  assert (mm = 2 ^ 53 - 1)%N as ->; [|by vm_compute].
  change (2 ^ 53)%N with 9007199254740992%N in *. lia.
Qed.

Lemma Number_toString_int_le n :
  (0 < n <= 2 ^ 53)%N -> Number_toString (Finite false n 0) = decimal n.
Proof.
  intros [H0 H]. destruct (decide (n < 2 ^ 53)%N) as [Hlt|Hge];
    [by apply Number_toString_int|].
  assert (n = 2 ^ 53)%N as ->; [|by vm_compute].
  change (2 ^ 53)%N with 9007199254740992%N in *. lia.
Qed.

Lemma parseInt10_decimal_le n :
  (n <= 2 ^ 53)%N -> parseInt10 (decimal n) = Finite false n 0.
Proof.
  intros H. destruct (decide (n < 2 ^ 53)%N) as [Hlt|Hge];
    [by apply parseInt10_decimal|].
  assert (n = 2 ^ 53)%N as ->; [|by vm_compute].
  change (2 ^ 53)%N with 9007199254740992%N in *. lia.
Qed.

Lemma scanMaxId_safe (l : list Product) :
  (forall p, p ∈ l -> parseInt (id_value p) = NaN
       \/ exists z, numeric_id p = Some z /\ (z < 2 ^ 53)%Z) ->
  exists mm : N, Create.scanMaxId (Some <$> l) = Finite false mm 0
                 /\ (mm < 2 ^ 53)%N.
Proof.
  intros Hsafe. destruct (scanMaxId_is_max0 (Some <$> l)) as [[Hz|[Hin Hpos]] _].
  - exists 0%N. split; [done|]. by vm_compute.
  - rewrite parses_dense in Hin. apply list_elem_of_fmap in Hin as (p & Hp & Hpl).
    destruct (Hsafe p Hpl) as [Hnan|(z & Hz & Hlt)].
    + rewrite Hp, Hnan in Hpos. done.
    + unfold numeric_id in Hz. rewrite <- Hp in Hz.
      destruct (Create.scanMaxId (Some <$> l)) as [|?|neg mm [|k]]; try done.
      injection Hz as Hz. rewrite gt_int in Hpos. apply Z.ltb_lt in Hpos.
      destruct neg; simpl in *; [lia|].
      exists mm. split; [done|].
      change (2 ^ 53)%N with (Z.to_N (2 ^ 53)). lia.
Qed.

Lemma fresh_id (l : list Product) (mm : N) :
  Create.scanMaxId (Some <$> l) = Finite false mm 0 -> (mm < 2 ^ 53)%N ->
  Number_toString (add (Finite false mm 0) (Finite false 1 0)) = decimal (mm + 1)
  /\ forall p, p ∈ l -> ProductID p <> Some (decimal (mm + 1)).
Proof.
  intros Hmax Hmm.
  assert (mm + 1 <= 2 ^ 53)%N as Hlt.
  { change (2 ^ 53)%N with 9007199254740992%N in *. lia. }
  rewrite add_one_int by done. split; [apply Number_toString_int_le; lia|].
  intros p Hp Hid.
  destruct (scanMaxId_is_max0 (Some <$> l)) as [_ Hub].
  assert (parseInt (id_value p) = Finite false (mm + 1) 0) as Hparse.
  { unfold id_value, parseInt. rewrite Hid. cbn [opt_string ToString].
    by apply parseInt10_decimal_le. }
  specialize (Hub (parseInt (id_value p))). rewrite parses_dense in Hub.
  assert (lt (Create.scanMaxId (Some <$> l)) (parseInt (id_value p)) = false) as Hf.
  { apply Hub, list_elem_of_fmap. by exists p. }
  rewrite Hparse, Hmax in Hf. change (lt ?a ?b) with (gt b a) in Hf.
  rewrite gt_int in Hf. apply Z.ltb_ge in Hf. simpl in Hf. lia.
Qed.

End MaxId.

Section MaxIdBound.
Import JS App Spec.

Lemma scanMaxId_max (l : list Product) (M : Z) :
  (forall p, p ∈ l -> exists z, numeric_id p = Some z /\ (z <= M)%Z) ->
  (exists p, p ∈ l /\ numeric_id p = Some M) ->
  (0 <= M)%Z ->
  Create.scanMaxId (Some <$> l) = Finite false (Z.to_N M) 0.
Proof.
  intros Hall (pM & HpM & HM) H0.
  destruct (scanMaxId_is_max0 (Some <$> l)) as [Hm Hub].
  rewrite parses_dense in Hm, Hub.
  assert (gt (parseInt (id_value pM)) (Create.scanMaxId (Some <$> l)) = false) as HubM.
  { apply Hub, list_elem_of_fmap. by exists pM. }
  unfold numeric_id in HM.
  destruct (parseInt (id_value pM)) as [|?|negM mM [|?]]; try done.
  injection HM as HM.
  destruct Hm as [Hz|[Hin Hpos]].
  - rewrite Hz in *. rewrite gt_int in HubM. apply Z.ltb_ge in HubM.
    simpl in HubM. f_equal. lia.
  - apply list_elem_of_fmap in Hin as (p & Hp & Hpl).
    destruct (Hall p Hpl) as (z & Hz & Hle). unfold numeric_id in Hz.
    rewrite <- Hp in Hz.
    destruct (Create.scanMaxId (Some <$> l)) as [|?|neg mm [|?]]; try done.
    injection Hz as Hz. rewrite gt_int in Hpos, HubM.
    apply Z.ltb_lt in Hpos. apply Z.ltb_ge in HubM.
    destruct neg; simpl in *; [lia|]. f_equal. lia.
Qed.

End MaxIdBound.

(** ** The store and the products array *)

Section Store.
Import JS UI5 App Spec.

Lemma read_array_dense_lookup h a (l : list Product) i slot :
  read_array h a = Some <$> l -> a !! i = Some slot ->
  exists L p, slot = Some L /\ h !! L = Some p /\ l !! i = Some p.
Proof.
  intros Hr Hi.
  assert (read_array h a !! i = Some (slot ≫= (h !!.))) as Hri.
  { unfold read_array. by rewrite list_lookup_fmap, Hi. }
  rewrite Hr, list_lookup_fmap in Hri.
  destruct (l !! i) as [p|] eqn:Hl; [|done]. injection Hri as Hri.
  destruct slot as [L|]; [|done]. exists L, p. done.
Qed.

Lemma read_array_ext h h' a :
  (forall L, Some L ∈ a -> h' !! L = h !! L) -> read_array h' a = read_array h a.
Proof.
  intros H. unfold read_array. apply list_fmap_ext. intros i [L|] Hi; [|done].
  simpl. apply H, list_elem_of_lookup. by exists i.
Qed.

Lemma read_array_app h h' a (l : list Product) :
  read_array h a = Some <$> l -> read_array (h ++ h') a = Some <$> l.
Proof.
  intros Hr. rewrite <- Hr. apply read_array_ext.
  intros L [i Hi]%list_elem_of_lookup.
  destruct (read_array_dense_lookup _ _ _ _ _ Hr Hi) as (L' & p & [= <-] & Hh & _).
  rewrite Hh. by apply lookup_app_l_Some.
Qed.

Lemma read_array_snoc h a L :
  read_array h (a ++ [Some L])%list = (read_array h a ++ [h !! L])%list.
Proof. unfold read_array. by rewrite fmap_app. Qed.

Lemma read_array_delete h a i :
  read_array h (delete i a) = delete i (read_array h a).
Proof.
  unfold read_array. revert i. induction a as [|x a IH]; intros [|i]; simpl; try done.
  by rewrite IH.
Qed.

Lemma read_array_insert h a i L :
  read_array h (<[i := Some L]> a) = <[i := h !! L]> (read_array h a).
Proof. unfold read_array. by rewrite list_fmap_insert. Qed.

End Store.

(** ** Running the handlers *)

Section Scan.
Import JS UI5 App Spec.

(** *** The linear scan on an array without empty slots *)

Lemma scan_dense_found sId (l : list Product) i p : forall k,
  first_at sId l i p -> scan sId (Some <$> l) k = Found (k + i) p.
Proof.
  revert i. induction l as [|q l IH]; intros i k (Hi & Hp & Hfirst); [done|].
  simpl. destruct i as [|i].
  - injection Hi as ->. rewrite decide_True by done. f_equal. lia.
  - rewrite decide_False by (apply (Hfirst 0 q); [lia|done]).
    replace (k + S i) with (S k + i) by lia. apply IH.
    split; [done|]. split; [done|]. intros j r Hj Hr.
    apply (Hfirst (S j) r); [lia|done].
Qed.

Lemma scan_dense_not_found sId (l : list Product) : forall k,
  (forall p, p ∈ l -> ProductID p <> sId) -> scan sId (Some <$> l) k = NotFound.
Proof.
  induction l as [|q l IH]; intros k H; [done|].
  simpl.
  rewrite decide_False by (apply H; left).
  apply IH. intros p Hp. apply H. by right.
Qed.

Lemma first_at_cases sId (l : list Product) :
  (forall p, p ∈ l -> ProductID p <> sId) \/ exists i p, first_at sId l i p.
Proof.
  induction l as [|q l IH].
  - left. intros p Hp. by apply elem_of_nil in Hp.
  - destruct (decide (ProductID q = sId)) as [Hq|Hq].
    + right. exists 0, q. split; [done|]. split; [done|]. intros; lia.
    + destruct IH as [IH|(i & p & Hi & Hp & Hfirst)].
      * left. intros p [->|Hp]%elem_of_cons; [done|by apply IH].
      * right. exists (S i), p. split; [done|]. split; [done|].
        intros [|j] r Hj Hr; [by injection Hr as <-|].
        apply (Hfirst j r); [lia|done].
Qed.

End Scan.

Section Handlers.
Import JS UI5 App Spec.

#[local] Arguments Number_toString : simpl never.
#[local] Arguments add : simpl never.
#[local] Arguments Create.scanMaxId : simpl never.
#[local] Arguments read_array : simpl never.
#[local] Arguments object_of : simpl never.
#[local] Arguments rows_of : simpl never.
#[local] Arguments truthy : simpl never.
#[local] Arguments scan : simpl never.
#[local] Arguments ToString : simpl never.
#[local] Arguments getProperty : simpl never.

Ltac run :=
  cbv [mbind M_bind mret M_ret get modify emit alloc update throw]; simpl.

Lemma bind_Return {A B} (m : M A) (f : A -> M B) s a s' :
  m s = Return a s' -> (m ≫= f) s = f a s'.
Proof. intros H. cbv [mbind M_bind]. by rewrite H. Qed.

Lemma rows_of_empty : rows_of ∅ = [].
Proof. reflexivity. Qed.

Lemma lookup_snoc {A} (h : list A) (x : A) : (h ++ [x])%list !! length h = Some x.
Proof. by rewrite list_lookup_middle. Qed.

Lemma alter_snoc {A} (f : A -> A) (h : list A) (x : A) :
  alter f (length h) (h ++ [x])%list = (h ++ [f x])%list.
Proof.
  induction h as [|y h IH]; [done|]. simpl. f_equal. exact IH.
Qed.

(** *** Create *)

Lemma Create_onCreateMatched_run s :
  Create._onCreateMatched s =
  Return tt (set_create (mkCreate (Some (length (heap s))) [])
               (set_heap (heap s ++ [Create.oNewProduct (today s)]) s)).
Proof.
  unfold Create._onCreateMatched, Create._initSpecificationsTable. run.
  unfold viewData. simpl. rewrite lookup_snoc. simpl.
  by rewrite rows_of_empty.
Qed.

Lemma Create_formInput_run u v s L :
  Create_view (create s) = Some L ->
  Create.formInput u v s =
  Return tt (set_create (mkCreate (Some L) (v (Create_specs (create s))))
               (set_heap (alter (form u) L (heap s)) s)).
Proof. intros H. unfold Create.formInput. run. by rewrite H. Qed.

Lemma Create_onSavePress_missing s L p :
  Create_view (create s) = Some L -> heap s !! L = Some p -> missing p = true ->
  Create.onSavePress s =
  Return tt (set_log (log s ++ [MessageBox_error "Please fill in all required fields"]) s).
Proof.
  intros HL Hp Hm. unfold Create.onSavePress. run. rewrite HL, Hp.
  unfold missing in Hm. by rewrite Hm.
Qed.

Lemma Create_onSavePress_saved s L p :
  Create_view (create s) = Some L -> heap s !! L = Some p -> missing p = false ->
  let h1 := alter (set_Specifications (object_of (Create_specs (create s)))) L (heap s) in
  let sId := Number_toString
               (add (Create.scanMaxId (read_array h1 (aProducts s))) (Finite false 1 0)) in
  Create.onSavePress s =
  Return tt
    (set_log (log s ++ [MessageToast_show "Product created successfully";
                        navTo "master" None false])
       (set_aProducts (aProducts s ++ [Some L])
          (set_heap (alter (set_ProductID (Some sId)) L h1) s))).
Proof.
  intros HL Hp Hm. unfold Create.onSavePress, Create._generateProductId. run.
  rewrite HL, Hp. unfold missing in Hm. rewrite Hm.
  unfold contents. simpl. by rewrite <- app_assoc.
Qed.

(** *** Edit *)

Lemma Edit_onEditMatched_found s (l : list Product) sId i p :
  contents s = Some <$> l -> first_at (Some sId) l i p ->
  Edit._onEditMatched sId s =
  Return tt (set_edit (mkEdit (Some (length (heap s))) (Some i)
                         (rows_of (Specifications (json_copy p))))
               (set_heap (heap s ++ [json_copy p]) s)).
Proof.
  intros Hc Hf. unfold Edit._onEditMatched, Edit._initSpecificationsTable. run.
  by rewrite Hc, (scan_dense_found _ _ _ _ 0 Hf).
Qed.

Lemma Edit_onEditMatched_not_found s (l : list Product) sId :
  contents s = Some <$> l -> (forall p, p ∈ l -> ProductID p <> Some sId) ->
  Edit._onEditMatched sId s =
  Return tt (set_log (log s ++ [MessageToast_show "Product not found";
                                back_from_edit s]) s).
Proof.
  intros Hc Hf. unfold Edit._onEditMatched, Edit.onNavBack, back_from_edit. run.
  rewrite Hc, (scan_dense_not_found _ _ 0 Hf).
  destruct (sPreviousHash s); simpl; by rewrite <- app_assoc.
Qed.

Lemma Edit_formInput_run u v s L :
  Edit_view (edit s) = Some L ->
  Edit.formInput u v s =
  Return tt (set_edit (mkEdit (Some L) (productIndex (edit s)) (v (Edit_specs (edit s))))
               (set_heap (alter (form u) L (heap s)) s)).
Proof. intros H. unfold Edit.formInput. run. by rewrite H. Qed.

Lemma Edit_onSavePress_missing s L p :
  Edit_view (edit s) = Some L -> heap s !! L = Some p -> missing p = true ->
  Edit.onSavePress s =
  Return tt (set_log (log s ++ [MessageBox_error "Please fill in all required fields"]) s).
Proof.
  intros HL Hp Hm. unfold Edit.onSavePress. run. rewrite HL, Hp.
  unfold missing in Hm. by rewrite Hm.
Qed.

Lemma Edit_onSavePress_saved s L p i :
  Edit_view (edit s) = Some L -> heap s !! L = Some p -> missing p = false ->
  productIndex (edit s) = Some i ->
  Edit.onSavePress s =
  Return tt
    (set_log (log s ++ [MessageToast_show "Product updated successfully";
                        navTo "detail" (Some (id_value p)) false])
       (set_aProducts (array_set i L (aProducts s))
          (set_heap (alter (set_Specifications (object_of (Edit_specs (edit s)))) L (heap s))
             s))).
Proof.
  intros HL Hp Hm Hi. unfold Edit.onSavePress. run.
  rewrite HL, Hp. unfold missing in Hm. rewrite Hm, Hi. simpl.
  by rewrite <- app_assoc.
Qed.

(** The guard on [productIndex]: without a stored index nothing is
    written to the array.  The route match stores the index together
    with the form's record, so the flows do not come here. *)
Lemma Edit_onSavePress_no_index s L p :
  Edit_view (edit s) = Some L -> heap s !! L = Some p -> missing p = false ->
  productIndex (edit s) = None ->
  Edit.onSavePress s =
  Return tt
    (set_log (log s ++ [MessageBox_error "Error updating product"])
       (set_heap (alter (set_Specifications (object_of (Edit_specs (edit s)))) L (heap s))
          s)).
Proof.
  intros HL Hp Hm Hi. unfold Edit.onSavePress. run.
  rewrite HL, Hp. unfold missing in Hm. by rewrite Hm, Hi.
Qed.

(** *** Detail *)

Lemma Detail_onProductMatched_found s (l : list Product) sId i p :
  contents s = Some <$> l -> first_at (Some sId) l i p ->
  Detail._onProductMatched sId s =
  Return tt (set_detail (mkDetail (mjoin (aProducts s !! i)) (Some i)
                           (rows_of (Specifications p))) s).
Proof.
  intros Hc Hf. unfold Detail._onProductMatched, Detail._createSpecificationFields. run.
  by rewrite Hc, (scan_dense_found _ _ _ _ 0 Hf).
Qed.

Lemma Detail_onProductMatched_not_found s (l : list Product) sId :
  contents s = Some <$> l -> (forall p, p ∈ l -> ProductID p <> Some sId) ->
  Detail._onProductMatched sId s =
  Return tt (set_log (log s ++ [MessageToast_show "Product not found";
                                back_from_detail s]) s).
Proof.
  intros Hc Hf. unfold Detail._onProductMatched, Detail.onNavBack, back_from_detail. run.
  rewrite Hc, (scan_dense_not_found _ _ 0 Hf).
  destruct (sPreviousHash s); simpl; by rewrite <- app_assoc.
Qed.

Lemma Detail_onDeletePress_run s :
  Detail.onDeletePress s =
  Return (Detail.mkConfirm (viewData (Detail_view (detail s)) s ≫= ProductID))
    (set_log (log s ++
       [MessageBox_confirm
          ("Are you sure you want to delete product '" ++
           ToString (getProperty (viewData (Detail_view (detail s)) s) "Name") ++ "'?")
          "Confirm Delete"]) s).
Proof. unfold Detail.onDeletePress. run. done. Qed.

Lemma Detail_onClose_other d oAction s :
  oAction <> OK -> Detail.onClose d oAction s = Return tt s.
Proof. intros H. unfold Detail.onClose. by rewrite decide_False. Qed.

Lemma Detail_onClose_found d s (l : list Product) i p :
  contents s = Some <$> l -> first_at (Detail.sProductId d) l i p ->
  Detail.onClose d OK s =
  Return tt (set_log (log s ++ [MessageToast_show "Product deleted successfully";
                                navTo "master" None false])
               (set_aProducts (delete i (aProducts s)) s)).
Proof.
  intros Hc Hf. unfold Detail.onClose. rewrite decide_True by done. run.
  rewrite Hc, (scan_dense_found _ _ _ _ 0 Hf). simpl. by rewrite <- app_assoc.
Qed.

Lemma Detail_onClose_not_found d s (l : list Product) :
  contents s = Some <$> l -> (forall p, p ∈ l -> ProductID p <> Detail.sProductId d) ->
  Detail.onClose d OK s =
  Return tt (set_log (log s ++ [MessageToast_show "Product deleted successfully";
                                navTo "master" None false]) s).
Proof.
  intros Hc Hf. unfold Detail.onClose. rewrite decide_True by done. run.
  rewrite Hc, (scan_dense_not_found _ _ 0 Hf). simpl. by rewrite <- app_assoc.
Qed.

End Handlers.

(** ** The flows *)

Section Flows.
Import JS UI5 App Spec.

#[local] Arguments Number_toString : simpl never.
#[local] Arguments add : simpl never.
#[local] Arguments Create.scanMaxId : simpl never.
#[local] Arguments read_array : simpl never.
#[local] Arguments object_of : simpl never.
#[local] Arguments rows_of : simpl never.
#[local] Arguments truthy : simpl never.
#[local] Arguments scan : simpl never.
#[local] Arguments ToString : simpl never.
#[local] Arguments getProperty : simpl never.

(** The ID the Create flow issues on the array [l]. *)
Lemma Create_flow_saved s (l : list Product) u v :
  contents s = Some <$> l ->
  missing (u (Create.oNewProduct (today s))) = false ->
  exists s',
    Create.flow u v s = Return tt s'
    /\ contents s' =
         Some <$> (l ++ [set_ProductID
                           (Some (Number_toString
                                    (add (Create.scanMaxId (Some <$> l)) (Finite false 1 0))))
                           (created (today s) u v)])%list
    /\ log s' = (log s ++ [MessageToast_show "Product created successfully";
                           navTo "master" None false])%list.
Proof.
  intros Hc Hv. unfold contents in Hc. unfold Create.flow.
  rewrite (bind_Return _ _ _ _ _ (Create_onCreateMatched_run s)).
  erewrite bind_Return by (by apply Create_formInput_run).
  simpl. rewrite alter_snoc.
  erewrite Create_onSavePress_saved; [|done|apply lookup_snoc|done].
  eexists. split; [done|]. simpl. split; [|done].
  unfold contents. simpl. rewrite !alter_snoc.
  rewrite read_array_snoc, lookup_snoc.
  rewrite !(read_array_app _ _ _ _ Hc). by rewrite fmap_app.
Qed.

Lemma Create_flow_missing s (l : list Product) u v :
  contents s = Some <$> l ->
  missing (u (Create.oNewProduct (today s))) = true ->
  exists s',
    Create.flow u v s = Return tt s'
    /\ contents s' = Some <$> l
    /\ log s' = (log s ++ [MessageBox_error "Please fill in all required fields"])%list.
Proof.
  intros Hc Hv. unfold contents in Hc. unfold Create.flow.
  rewrite (bind_Return _ _ _ _ _ (Create_onCreateMatched_run s)).
  erewrite bind_Return by (by apply Create_formInput_run).
  simpl. rewrite alter_snoc.
  erewrite Create_onSavePress_missing; [|done|apply lookup_snoc|done].
  eexists. split; [done|]. simpl. split; [|done].
  unfold contents. simpl. by apply read_array_app.
Qed.

Lemma dense_slot s (l : list Product) i p :
  contents s = Some <$> l -> l !! i = Some p ->
  exists L, aProducts s !! i = Some (Some L) /\ heap s !! L = Some p.
Proof.
  intros Hc Hi. unfold contents in Hc.
  assert (i < length (aProducts s))%nat as Hlt.
  { apply lookup_lt_Some in Hi.
    assert (length (read_array (heap s) (aProducts s)) = length l) as Hlen
      by (by rewrite Hc, length_fmap).
    unfold read_array in Hlen. rewrite length_fmap in Hlen. lia. }
  destruct (lookup_lt_is_Some_2 _ _ Hlt) as [slot Hslot].
  destruct (read_array_dense_lookup _ _ _ _ _ Hc Hslot) as (L & q & -> & Hh & Hq).
  exists L. split; [done|]. congruence.
Qed.

Lemma Edit_flow_saved s (l : list Product) sId i p u v :
  contents s = Some <$> l -> first_at (Some sId) l i p ->
  missing (u (json_copy p)) = false ->
  exists s',
    Edit.flow sId u v s = Return tt s'
    /\ contents s' = Some <$> <[i := edited p u v]> l
    /\ log s' = (log s ++ [MessageToast_show "Product updated successfully";
                           navTo "detail" (Some (id_value p)) false])%list.
Proof.
  intros Hc Hf Hv. unfold Edit.flow.
  rewrite (bind_Return _ _ _ _ _ (Edit_onEditMatched_found _ _ _ _ _ Hc Hf)).
  erewrite bind_Return by (by apply Edit_formInput_run).
  simpl. rewrite alter_snoc.
  erewrite Edit_onSavePress_saved; [|done|apply lookup_snoc|done|done].
  eexists. split; [done|]. simpl. split; [|done].
  unfold contents in *. simpl. rewrite alter_snoc.
  destruct Hf as (Hi & _ & _).
  unfold array_set.
  assert (length (aProducts s) = length l) as Hlen.
  { assert (length (read_array (heap s) (aProducts s)) = length l) as Hlen
      by (by rewrite Hc, length_fmap).
    unfold read_array in Hlen. by rewrite length_fmap in Hlen. }
  apply lookup_lt_Some in Hi.
  destruct (Nat.ltb_spec i (length (aProducts s))) as [_|?]; [|lia].
  rewrite read_array_insert, lookup_snoc, (read_array_app _ _ _ _ Hc).
  by rewrite list_fmap_insert.
Qed.

Lemma Edit_flow_missing s (l : list Product) sId i p u v :
  contents s = Some <$> l -> first_at (Some sId) l i p ->
  missing (u (json_copy p)) = true ->
  exists s',
    Edit.flow sId u v s = Return tt s'
    /\ contents s' = Some <$> l
    /\ log s' = (log s ++ [MessageBox_error "Please fill in all required fields"])%list.
Proof.
  intros Hc Hf Hv. unfold Edit.flow.
  rewrite (bind_Return _ _ _ _ _ (Edit_onEditMatched_found _ _ _ _ _ Hc Hf)).
  erewrite bind_Return by (by apply Edit_formInput_run).
  simpl. rewrite alter_snoc.
  erewrite Edit_onSavePress_missing; [|done|apply lookup_snoc|done].
  eexists. split; [done|]. simpl. split; [|done].
  unfold contents in *. simpl. by apply read_array_app.
Qed.

(** The Delete flow for an ID of the array: the view shows the record
    found, and the dialog's closure has captured its ID. *)
Lemma Detail_flow_found s (l : list Product) sId i p :
  contents s = Some <$> l -> first_at (Some sId) l i p ->
  exists s1,
    (forall oAction, Detail.flow sId oAction s = Detail.onClose (Detail.mkConfirm (Some sId)) oAction s1)
    /\ contents s1 = Some <$> l
    /\ log s1 = (log s ++
         [MessageBox_confirm
            ("Are you sure you want to delete product '" ++ Name p ++ "'?")
            "Confirm Delete"])%list.
Proof.
  intros Hc Hf. pose proof Hf as (Hi & Hp & _).
  destruct (dense_slot _ _ _ _ Hc Hi) as (L & HL & Hh).
  exists (set_log (log s ++
            [MessageBox_confirm
               ("Are you sure you want to delete product '" ++ Name p ++ "'?")
               "Confirm Delete"])
            (set_detail (mkDetail (Some L) (Some i) (rows_of (Specifications p))) s)).
  split; [|done].
  intros oAction. unfold Detail.flow.
  rewrite (bind_Return _ _ _ _ _ (Detail_onProductMatched_found _ _ _ _ _ Hc Hf)).
  rewrite HL.
  erewrite bind_Return by apply Detail_onDeletePress_run.
  unfold viewData. cbn [detail set_detail Detail_view mjoin option_join mbind option_bind heap].
  rewrite Hh. cbn [mbind option_bind]. rewrite Hp.
  reflexivity.
Qed.

(** The flows start at the route match for a reason: pressing Save a
    second time without one works on the record that is already in
    the array, changes its ID and pushes the same object again. *)
Example second_save_without_route_match :
  Sample.ids_after ((Create.flow Sample.typed Sample.rows;; Create.onSavePress) Sample.start)
  = Some [Some (Some "1"); Some (Some "2"); Some (Some "4"); Some (Some "4")].
Proof. by vm_compute. Qed.

End Flows.

(** ** Two decimal places *)

Section ToFixed.
Import JS formatter Spec.

Lemma str_take_app_length (a b : string) : str_take (String.length a) (a ++ b) = a.
Proof.
  induction a as [|x a IH]; [by destruct b|].
  rewrite str_app_cons. simpl. by rewrite IH.
Qed.

Lemma str_drop_app_length (a b : string) : str_drop (String.length a) (a ++ b) = b.
Proof.
  induction a as [|x a IH]; [by destruct b|].
  rewrite str_app_cons. simpl. by rewrite IH.
Qed.

Lemma decimal_two_last n :
  (100 <= n)%N ->
  decimal n = decimal (n / 100)
              ++ String (digit_char (n / 10 mod 10)) (String (digit_char (n mod 10)) "").
Proof.
  intros H. rewrite decimal_step by lia.
  assert (10 <= n / 10)%N by (apply N.div_le_lower_bound; lia).
  rewrite (decimal_step (n / 10)) by done.
  rewrite N.Div0.div_div. change (10 * 10)%N with 100%N.
  by rewrite str_app_assoc.
Qed.

Lemma toFixed_two neg m k :
  (Z.of_N m < 10 ^ 21 * 2 ^ Z.of_nat k)%Z ->
  toFixed (Finite neg m k) 2 = two_decimals neg m k.
Proof.
  intros Hlt. unfold toFixed, two_decimals. cbv zeta.
  destruct (Z.leb_spec (10 ^ 21 * 2 ^ Z.of_nat k) (Z.of_N m)) as [?|_]; [lia|].
  f_equal.
  assert (Z.to_N ((2 * Z.of_N m * 10 ^ Z.of_nat 2 + 2 ^ Z.of_nat k)
                  / (2 * 2 ^ Z.of_nat k)) = hundredths m k) as ->.
  { unfold hundredths. apply N2Z.inj.
    assert (0 < 2 ^ Z.of_nat k)%Z by (apply Z.pow_pos_nonneg; lia).
    rewrite Z2N.id by (apply Z.div_pos; lia).
    rewrite N2Z.inj_div, N2Z.inj_add, !N2Z.inj_mul, N2Z.inj_pow, nat_N_Z.
    reflexivity. }
  set (n := hundredths m k). cbn [Nat.eqb].
  destruct (N.ltb_spec n 100) as [Hn|Hn].
  - rewrite (N.div_small n 100) by done.
    destruct (N.ltb_spec n 10) as [Hs|Hs].
    + rewrite (N.div_small n 10), (N.mod_small n 10) by done.
      rewrite decimal_small by done. reflexivity.
    + rewrite decimal_step by done.
      assert (n / 10 < 10)%N by (apply N.Div0.div_lt_upper_bound; lia).
      rewrite (N.mod_small (n / 10) 10) by done.
      rewrite (decimal_small (n / 10)) by done. reflexivity.
  - rewrite decimal_two_last by done.
    assert (0 < String.length (decimal (n / 100)))%nat as Hl by apply decimal_length_pos.
    rewrite str_length_app. cbn [String.length].
    destruct (Nat.leb_spec (String.length (decimal (n / 100)) + 2) 2) as [?|_]; [lia|].
    rewrite str_length_app. cbn [String.length].
    replace (String.length (decimal (n / 100)) + 2 - 2)%nat
      with (String.length (decimal (n / 100))) by lia.
    by rewrite str_take_app_length, str_drop_app_length.
Qed.

Lemma hundredths_nearest m k :
  ((2 * Z.of_N (hundredths m k) - 1) * 2 ^ Z.of_nat k <= 200 * Z.of_N m
   < (2 * Z.of_N (hundredths m k) + 1) * 2 ^ Z.of_nat k)%Z.
Proof.
  unfold hundredths.
  assert (0 < 2 ^ Z.of_nat k)%Z as Hp by (apply Z.pow_pos_nonneg; lia).
  rewrite N2Z.inj_div, N2Z.inj_add, !N2Z.inj_mul, N2Z.inj_pow, nat_N_Z.
  change (Z.of_N 2) with 2%Z. change (Z.of_N 100) with 100%Z.
  set (d := (2 ^ Z.of_nat k)%Z) in *.
  pose proof (Z.div_mod (2 * Z.of_N m * 100 + d) (2 * d) ltac:(lia)) as Hdm.
  pose proof (Z.mod_pos_bound (2 * Z.of_N m * 100 + d) (2 * d) ltac:(lia)) as Hb.
  nia.
Qed.

Lemma digit_of_is_Some d : (d < 10)%N -> is_Some (digit_of (digit_char d)).
Proof. intros H. rewrite digit_of_digit_char by done. by eexists. Qed.

Lemma digit_not_point c : is_Some (digit_of c) -> (c =? ".")%char = false.
Proof.
  intros [d Hd]. destruct (Ascii.eqb_spec c ".") as [->|]; [|done].
  by vm_compute in Hd.
Qed.

Lemma all_digits_app a b : all_digits (a ++ b) = all_digits a && all_digits b.
Proof.
  induction a as [|c a IH]; [done|].
  rewrite str_app_cons. cbn [all_digits]. by rewrite IH, andb_assoc.
Qed.

Lemma all_digits_decimal n : all_digits (decimal n) = true.
Proof.
  induction n as [n Hn|n Hn IH] using N_digits_ind.
  - rewrite decimal_small by done. cbn [all_digits].
    by rewrite bool_decide_eq_true_2 by (by apply digit_of_is_Some).
  - rewrite decimal_step, all_digits_app, IH by done. cbn [all_digits].
    by rewrite bool_decide_eq_true_2 by (apply digit_of_is_Some, N.mod_lt; lia).
Qed.

Lemma point_and_two_app a t :
  all_digits a = true ->
  point_and_two (a ++ "." ++ t) = (String.length t =? 2)%nat && all_digits t.
Proof.
  induction a as [|c a IH]; [done|].
  rewrite str_app_cons. cbn [all_digits point_and_two].
  intros [Hc Ha]%andb_true_iff. apply bool_decide_eq_true in Hc.
  rewrite (digit_not_point c Hc), bool_decide_eq_true_2 by done.
  by apply IH.
Qed.

Lemma point_and_two_decimal n (d1 d0 : N) :
  (d1 < 10)%N -> (d0 < 10)%N ->
  point_and_two (decimal n ++ "." ++ String (digit_char d1) (String (digit_char d0) "")) = true.
Proof.
  intros H1 H0. rewrite point_and_two_app by apply all_digits_decimal.
  cbn [String.length Nat.eqb all_digits].
  by rewrite !bool_decide_eq_true_2 by (by apply digit_of_is_Some).
Qed.

Lemma two_decimal_form_digit (sign : string) d r :
  (d < 10)%N -> sign = "" \/ sign = "-" ->
  point_and_two (String (digit_char d) r) = true ->
  two_decimal_form (sign ++ String (digit_char d) r) = true.
Proof.
  intros Hd Hsign. revert d Hd.
  apply (digit_cases (fun d =>
           point_and_two (String (digit_char d) r) = true ->
           two_decimal_form (sign ++ String (digit_char d) r) = true));
    destruct Hsign as [-> | ->]; intros Hp;
    unfold two_decimal_form; simpl; exact Hp.
Qed.

Lemma two_decimals_form neg m k : two_decimal_form (two_decimals neg m k) = true.
Proof.
  unfold two_decimals. set (n := hundredths m k).
  assert (n / 10 mod 10 < 10)%N as H1 by (apply N.mod_lt; lia).
  assert (n mod 10 < 10)%N as H0 by (apply N.mod_lt; lia).
  pose proof (point_and_two_decimal (n / 100) _ _ H1 H0) as Hp.
  destruct (decimal_head (n / 100)) as (d & r & Hd & Hr).
  rewrite Hr in *. rewrite str_app_cons in *.
  apply two_decimal_form_digit; [done| |done].
  destruct (neg && negb (m =? 0)%N); auto.
Qed.

End ToFixed.

(** ** Deleting, filtering, and the hypotheses on the IDs *)

Section More.
Import JS UI5 App Spec.

#[local] Arguments read_array : simpl never.
#[local] Arguments scan : simpl never.
#[local] Arguments getProperty : simpl never.
#[local] Arguments ToString : simpl never.

Lemma fmap_delete {A B} (f : A -> B) (l : list A) i :
  f <$> delete i l = delete i (f <$> l).
Proof.
  revert i. induction l as [|x l IH]; intros [|i]; simpl; try done.
  by rewrite IH.
Qed.

Lemma contents_delete s (l : list Product) i v :
  contents s = Some <$> l ->
  contents (set_log v (set_aProducts (delete i (aProducts s)) s)) = Some <$> delete i l.
Proof.
  unfold contents. simpl. intros Hc. by rewrite read_array_delete, Hc, fmap_delete.
Qed.

(** Closing the dialog never throws on an array without empty slots,
    and leaves a sublist of the records. *)
Lemma Detail_onClose_any d oAction s (l : list Product) :
  contents s = Some <$> l ->
  exists s' l', Detail.onClose d oAction s = Return tt s'
                /\ contents s' = Some <$> l' /\ sublist l' l.
Proof.
  intros Hc. destruct (decide (oAction = OK)) as [->|Hne].
  - destruct (first_at_cases (Detail.sProductId d) l) as [Hno|(i & p & Hf)].
    + rewrite (Detail_onClose_not_found _ _ _ Hc Hno). by eexists _, l.
    + rewrite (Detail_onClose_found _ _ _ _ _ Hc Hf).
      eexists _, (delete i l). split; [done|]. split; [by apply contents_delete|].
      apply sublist_delete.
  - rewrite Detail_onClose_other by done. by exists s, l.
Qed.

Lemma Detail_flow_any s (l : list Product) sId :
  contents s = Some <$> l ->
  exists d s1, (forall oAction, Detail.flow sId oAction s = Detail.onClose d oAction s1)
               /\ contents s1 = Some <$> l.
Proof.
  intros Hc. destruct (first_at_cases (Some sId) l) as [Hno|(i & p & Hf)].
  - eexists _, _. split.
    + intros oAction. unfold Detail.flow.
      rewrite (bind_Return _ _ _ _ _ (Detail_onProductMatched_not_found _ _ _ Hc Hno)).
      erewrite bind_Return by apply Detail_onDeletePress_run. reflexivity.
    + done.
  - destruct (Detail_flow_found _ _ _ _ _ Hc Hf) as (s1 & Hflow & Hc1 & _).
    by eexists _, s1.
Qed.

Lemma first_at_present sId (l : list Product) :
  sId ∈ ProductID <$> l -> exists i p, first_at sId l i p.
Proof.
  intros Hin. destruct (first_at_cases sId l) as [Hno|H]; [|done].
  apply list_elem_of_fmap in Hin as (p & -> & Hp). by destruct (Hno p Hp).
Qed.

Lemma first_at_absent sId (l : list Product) :
  sId ∉ ProductID <$> l -> forall p, p ∈ l -> ProductID p <> sId.
Proof.
  intros Hout p Hp <-. apply Hout, list_elem_of_fmap. by exists p.
Qed.

(** *** The list binding's filter *)

Lemma or3_loop (b1 b2 b3 : bool) :
  (if b1 then Some true else if b2 then Some true else if b3 then Some true else Some false)
  = Some (b1 || b2 || b3).
Proof. by destruct b1, b2, b3. Qed.

Lemma apply_search_filter q (l : list Product) :
  apply getProperty (Some <$> l)
    (Some (Multi [new_Filter "Name" Contains q;
                  new_Filter "Description" Contains q;
                  new_Filter "Category" Contains q] false))
  = Some (Some <$> List.filter (matches_ci q) l).
Proof.
  induction l as [|p l IH]; [done|].
  cbn [fmap list_fmap apply List.filter]. fold (Some <$> l). rewrite IH.
  assert (evaluateFilter getProperty
            (Multi [new_Filter "Name" Contains q;
                    new_Filter "Description" Contains q;
                    new_Filter "Category" Contains q] false) (Some p)
          = Some (matches_ci q p)) as ->.
  { cbn [evaluateFilter new_Filter].
    change (getProperty (Some p) "Name") with (VStr (Name p)).
    change (getProperty (Some p) "Description") with (VStr (Description p)).
    change (getProperty (Some p) "Category") with (VStr (Category p)).
    cbn [test_leaf]. unfold normalizeFilterValue. cbn [default].
    apply or3_loop. }
  by destruct (matches_ci q p).
Qed.

Lemma Master_onSearch_run query newValue s :
  Master.onSearch query newValue s =
  Return tt
    (set_master
       (mkMaster (_bDescendingSort (master s))
          (match Master.or_else query newValue with
           | Some q =>
               if decide (q = "") then []
               else [Multi [new_Filter "Name" Contains q;
                            new_Filter "Description" Contains q;
                            new_Filter "Category" Contains q] false]
           | None => []
           end)
          (Master_sorter (master s))) s).
Proof.
  unfold Master.onSearch, Master.binding_filter, modify.
  destruct (Master.or_else query newValue) as [q|]; [|done].
  destruct (decide (q = "")) as [->|Hq]; [done|].
  assert (truthy (VStr q) = true) as ->; [|done].
  simpl. destruct (String.eqb_spec q ""); done.
Qed.

(** *** From the computable hypotheses to the facts about the scan *)

Lemma fold_max_ge (zs : list Z) : forall a, (a <= fold_left Z.max zs a)%Z.
Proof.
  induction zs as [|z zs IH]; intros a; simpl; [lia|].
  specialize (IH (Z.max a z)). lia.
Qed.

Lemma fold_max_upper (zs : list Z) : forall a z,
  z ∈ zs -> (z <= fold_left Z.max zs a)%Z.
Proof.
  induction zs as [|y zs IH]; intros a z Hz; simpl.
  - by apply elem_of_nil in Hz.
  - apply elem_of_cons in Hz as [->|Hz]; [|by apply IH].
    pose proof (fold_max_ge zs (Z.max a y)). lia.
Qed.

Lemma fold_max_in (zs : list Z) : forall a,
  fold_left Z.max zs a = a \/ fold_left Z.max zs a ∈ zs.
Proof.
  induction zs as [|y zs IH]; intros a; simpl; [by left|].
  destruct (IH (Z.max a y)) as [H|H].
  - rewrite H. destruct (Z.max_spec a y) as [[_ ->]|[_ ->]]; [right; left|by left].
  - right. by right.
Qed.

Lemma maximum_spec zs M :
  maximum zs = Some M -> M ∈ zs /\ forall z, z ∈ zs -> (z <= M)%Z.
Proof.
  destruct zs as [|z zs]; [done|]. intros [= <-]. split.
  - destruct (fold_max_in zs z) as [-> |H]; [left|by right].
  - intros y [->|Hy]%elem_of_cons; [apply fold_max_ge|by apply fold_max_upper].
Qed.

Lemma numeric_ids_spec l zs :
  numeric_ids l = Some zs -> Forall2 (fun p z => numeric_id p = Some z) l zs.
Proof. intros H. by apply mapM_Some in H. Qed.

Lemma numeric_ids_max l zs M :
  numeric_ids l = Some zs -> maximum zs = Some M ->
  (forall p, p ∈ l -> exists z, numeric_id p = Some z /\ (z <= M)%Z)
  /\ (exists p, p ∈ l /\ numeric_id p = Some M).
Proof.
  intros Hn%numeric_ids_spec [HM Hub]%maximum_spec. split.
  - intros p [i Hp]%list_elem_of_lookup.
    destruct (Forall2_lookup_l _ _ _ _ _ Hn Hp) as (z & Hz & Hpz).
    exists z. split; [done|]. apply Hub, list_elem_of_lookup. by exists i.
  - apply list_elem_of_lookup in HM as [i Hz].
    destruct (Forall2_lookup_r _ _ _ _ _ Hn Hz) as (p & Hp & Hpz).
    exists p. split; [|done]. apply list_elem_of_lookup. by exists i.
Qed.

Lemma safe_ids_spec l :
  forallb safe_id l = true ->
  forall p, p ∈ l -> parseInt (id_value p) = NaN
       \/ exists z, numeric_id p = Some z /\ (z < 2 ^ 53)%Z.
Proof.
  intros H p Hp. rewrite forallb_forall in H.
  specialize (H p (proj1 (list_elem_of_In _ _) Hp)).
  unfold safe_id, numeric_id in *.
  destruct (parseInt (id_value p)) as [|?|neg m [|k]]; try done; [by left|].
  right. eexists. split; [done|]. by apply Z.ltb_lt.
Qed.

End More.

(** ** Whole-number prices *)

Section IntegerPrices.
Import JS formatter Spec.

Lemma digit_char_not_Infinity d r :
  (d < 10)%N -> starts_with "Infinity" (String (digit_char d) r) = false.
Proof. revert d. by apply digit_cases. Qed.

Lemma scan_digits_nil acc c : scan_digits "" acc c = (acc, c, "").
Proof. reflexivity. Qed.

Lemma parseFloat_string_decimal n :
  (n < 2 ^ 53)%N -> parseFloat_string (decimal n) = Finite false n 0.
Proof.
  intros Hn. unfold parseFloat_string.
  destruct (decimal_head n) as (d & r & Hd & Hr).
  destruct (digit_char_head d r Hd) as [Ht Hs].
  rewrite Hr, Ht, Hs, digit_char_not_Infinity by done. rewrite <- Hr.
  rewrite <- (str_app_nil_r (decimal n)), scan_digits_decimal, scan_digits_nil.
  rewrite N.mul_0_l, N.add_0_l, Nat.add_0_l.
  pose proof (decimal_length_pos n).
  destruct (String.length (decimal n)) as [|len]; [lia|].
  change (scaled (Z.of_N n) _) with (Z.of_N n * 1, 1)%Z.
  cbv beta iota. rewrite Z.mul_1_r. by apply round_ratio_int.
Qed.

(** A price that is a whole number below 2^53 is shown with ".00". *)
Lemma formatPrice_integer n currency :
  (0 < n < 2 ^ 53)%N ->
  formatPrice (VNum (Finite false n 0)) currency = decimal n ++ ".00".
Proof.
  intros [Hpos Hn]. unfold formatPrice.
  assert (truthy (VNum (Finite false n 0)) = true) as ->.
  { simpl. destruct (N.eqb_spec n 0); [lia|done]. }
  cbn [negb]. unfold parseFloat. cbn [ToString].
  rewrite Number_toString_int, parseFloat_string_decimal by done.
  rewrite toFixed_two.
  - unfold two_decimals, hundredths. cbn [andb].
    change (2 ^ N.of_nat 0)%N with 1%N.
    replace ((2 * n * 100 + 1) / (2 * 1))%N with (n * 100)%N.
    + rewrite N.div_mul by lia.
      replace (n * 100)%N with (n * 10 * 10)%N by lia.
      rewrite N.div_mul, !N.Div0.mod_mul by lia.
      reflexivity.
    + apply (N.div_unique _ _ _ 1); lia.
  - change (2 ^ Z.of_nat 0)%Z with 1%Z. rewrite Z.mul_1_r.
    assert (Z.of_N n < 2 ^ 53)%Z by (change (2 ^ 53)%Z with (Z.of_N (2 ^ 53)); lia).
    assert (2 ^ 53 < 10 ^ 21)%Z by done. lia.
Qed.

End IntegerPrices.

(** ** The specifications table and the Specifications object *)

Section SpecRows.
Import JS Obj App Spec Rows.

Lemma filled_spec k v : filled (k, v) = true <-> k <> "" /\ v <> "".
Proof.
  unfold filled. simpl. rewrite andb_true_iff, !negb_true_iff.
  split; intros [Hk Hv]; split.
  - intros ->. done.
  - intros ->. done.
  - by destruct (String.eqb_spec k "").
  - by destruct (String.eqb_spec v "").
Qed.

Lemma fold_rows_lookup (aSpecs : list spec_row) : forall (o : object) k,
  k <> proto ->
  fold_left
    (fun (o : object) (spec : spec_row) =>
       if truthy (VStr spec.1) && truthy (VStr spec.2)
       then assign spec.1 spec.2 o else o) aSpecs o !! k
  = match last_filled k aSpecs with
    | Some spec => Some spec.2
    | None => o !! k
    end.
Proof.
  induction aSpecs as [|r rest IH]; intros o k Hk; [done|].
  cbn [fold_left]. rewrite IH by done. unfold last_filled. cbn [List.filter].
  change (truthy (VStr r.1) && truthy (VStr r.2)) with (filled r).
  destruct (decide (r.1 = k)) as [Hr|Hr].
  - rewrite (bool_decide_eq_true_2 _ Hr). cbn [andb].
    destruct (filled r).
    + rewrite last_cons.
      destruct (last _); [done|]. rewrite lookup_assign by done. by rewrite decide_True.
    + done.
  - rewrite (bool_decide_eq_false_2 _ Hr). cbn [andb].
    destruct (last _); [done|].
    destruct (filled r); [|done]. rewrite lookup_assign by done. by rewrite decide_False.
Qed.

Lemma fold_rows_lookup_proto (aSpecs : list spec_row) : forall (o : object),
  fold_left
    (fun (o : object) (spec : spec_row) =>
       if truthy (VStr spec.1) && truthy (VStr spec.2)
       then assign spec.1 spec.2 o else o) aSpecs o !! proto
  = o !! proto.
Proof.
  induction aSpecs as [|r rest IH]; intros o; [done|].
  cbn [fold_left]. rewrite IH.
  destruct (truthy (VStr r.1) && truthy (VStr r.2)); [|done].
  apply lookup_assign_proto.
Qed.

(** The object the loop builds, key by key. *)
Lemma object_of_lookup aSpecs k :
  object_of aSpecs !! k =
  if decide (k = proto) then None else snd <$> last_filled k aSpecs.
Proof.
  unfold object_of. destruct (decide (k = proto)) as [->|Hk].
  - by rewrite fold_rows_lookup_proto.
  - rewrite fold_rows_lookup by done. by destruct (last_filled k aSpecs).
Qed.

Lemma last_filled_Some k aSpecs spec :
  last_filled k aSpecs = Some spec -> spec ∈ aSpecs /\ spec.1 = k /\ filled spec = true.
Proof.
  unfold last_filled. intros H%last_Some_elem_of.
  apply list_elem_of_In, filter_In in H as [Hin [Hk Hf]%andb_true_iff].
  split; [by apply list_elem_of_In|]. split; [|done].
  by apply bool_decide_eq_true in Hk.
Qed.

Lemma last_filled_unique k v aSpecs :
  (forall spec, spec ∈ aSpecs -> spec.1 = k -> spec = (k, v)) -> (k, v) ∈ aSpecs ->
  last_filled k aSpecs = if filled (k, v) then Some (k, v) else None.
Proof.
  intros Huniq Hin.
  destruct (last_filled k aSpecs) as [spec|] eqn:Hl.
  - apply last_filled_Some in Hl as (Hs & Hk & Hf).
    rewrite (Huniq spec Hs Hk) in Hf |- *. by rewrite Hf.
  - destruct (filled (k, v)) eqn:Hf; [|done].
    unfold last_filled in Hl. apply last_None in Hl.
    assert (In (k, v) (List.filter (fun spec => bool_decide (spec.1 = k) && filled spec) aSpecs)) as Hin'.
    { apply filter_In. split; [by apply list_elem_of_In|].
      simpl. rewrite bool_decide_eq_true_2 by done. done. }
    rewrite Hl in Hin'. destruct Hin'.
Qed.

Lemma last_filled_none k aSpecs :
  k ∉ aSpecs.*1 -> last_filled k aSpecs = None.
Proof.
  intros Hout. destruct (last_filled k aSpecs) as [spec|] eqn:Hl; [|done].
  apply last_filled_Some in Hl as (Hs & Hk & _). destruct Hout.
  apply list_elem_of_fmap. by exists spec.
Qed.

Lemma rows_of_NoDup (o : object) : NoDup (rows_of o).*1.
Proof. apply ordered_NoDup, props_ordered. Qed.

Lemma lookup_rows_of (o : object) k v : o !! k = Some v <-> (k, v) ∈ rows_of o.
Proof. apply get_Some, rows_of_NoDup. Qed.

(** Rows with distinct keys: the last filled row with a key is the
    row with that key. *)
Lemma last_filled_distinct (aSpecs : list spec_row) k :
  NoDup aSpecs.*1 ->
  last_filled k aSpecs =
  match Obj.get k aSpecs with
  | Some v => if filled (k, v) then Some (k, v) else None
  | None => None
  end.
Proof.
  intros Hnd. destruct (Obj.get k aSpecs) as [v|] eqn:Hk.
  - apply (get_Some _ _ _ Hnd) in Hk. apply last_filled_unique; [|done].
    intros [k' v'] Hs Hk'. simpl in Hk'. subst k'. f_equal.
    apply (get_Some _ _ _ Hnd) in Hs, Hk. congruence.
  - apply last_filled_none. by apply get_None.
Qed.

Lemma object_of_rows_of_lookup (o : object) k :
  k <> proto ->
  object_of (rows_of o) !! k =
  match o !! k with
  | Some v => if filled (k, v) then Some v else None
  | None => None
  end.
Proof.
  intros Hk. rewrite object_of_lookup, decide_False by done.
  rewrite (last_filled_distinct _ _ (rows_of_NoDup o)).
  change (Obj.get k (rows_of o)) with (o !! k).
  destruct (o !! k) as [v|]; [|done]. by destruct (filled (k, v)).
Qed.

(** Filled rows in property order, none under [proto], give the
    object with exactly these properties, in this order. *)
Lemma fold_rows_props (l2 : list spec_row) : forall (o : object),
  ordered ((props o ++ l2)%list).*1 = true ->
  (forall spec, spec ∈ l2 -> filled spec = true /\ spec.1 <> proto) ->
  props (fold_left
           (fun (o : object) (spec : spec_row) =>
              if truthy (VStr spec.1) && truthy (VStr spec.2)
              then assign spec.1 spec.2 o else o) l2 o)
  = (props o ++ l2)%list.
Proof.
  induction l2 as [|[k v] l2 IH]; intros o Ho Hl2; [by rewrite app_nil_r|].
  cbn [fold_left].
  destruct (Hl2 (k, v)) as [Hf Hp]; [left|].
  change (truthy (VStr (k, v).1) && truthy (VStr (k, v).2)) with (filled (k, v)).
  rewrite Hf. cbn [fst snd].
  assert (props (assign k v o) = (props o ++ [(k, v)])%list) as Hstep.
  { unfold assign. destruct (String.eqb_spec k "__proto__") as [->|_]; [done|].
    rewrite props_insert. apply define_snoc. intros k' Hk'.
    clear IH Hl2. revert Ho Hk'. generalize (props o). intros l1.
    induction l1 as [|[k1 v1] l1 IHl]; [intros _ H; by apply elem_of_nil in H|].
    cbn [fmap list_fmap app]. intros [H Hr]%ordered_cons [->|Hin]%elem_of_cons.
    - destruct (H k) as [Hne Hpk]; [|done].
      rewrite fmap_app. apply elem_of_app. right. left.
    - by apply IHl. }
  rewrite IH.
  - by rewrite Hstep, <- app_assoc.
  - by rewrite Hstep, <- app_assoc.
  - intros spec Hs. apply Hl2. by right.
Qed.

Lemma object_of_props (l : list spec_row) :
  ordered l.*1 = true ->
  (forall spec, spec ∈ l -> filled spec = true /\ spec.1 <> proto) ->
  props (object_of l) = l.
Proof. intros Ho Hl. unfold object_of. by rewrite fold_rows_props. Qed.

Lemma object_of_rows_of_stable (o : object) :
  o !! proto = None ->
  (forall k v, o !! k = Some v -> filled (k, v) = true) ->
  object_of (rows_of o) = o.
Proof.
  intros Hp H. apply object_eq. apply object_of_props; [apply props_ordered|].
  intros [k v] Hs. apply lookup_rows_of in Hs. split; [by apply (H k v)|].
  simpl. intros ->. congruence.
Qed.

End SpecRows.

(** ** Upper case and the case of letters *)

Section Letters.
Import JS UI5 App Spec.














End Letters.

(** ** The maximum in integers *)

Section Max0.
Import JS App Spec.

Lemma fold_Zmax_ge (zs : list Z) : forall a, (a <= fold_left Z.max zs a)%Z.
Proof.
  induction zs as [|z zs IH]; intros a; simpl; [lia|].
  specialize (IH (Z.max a z)). lia.
Qed.

Lemma fold_Zmax_bound (zs : list Z) (b : Z) : forall a,
  (a <= b)%Z -> (forall z, z ∈ zs -> (z <= b)%Z) -> (fold_left Z.max zs a <= b)%Z.
Proof.
  induction zs as [|z zs IH]; intros a Ha Hzs; simpl; [done|].
  apply IH.
  - specialize (Hzs z ltac:(left)). lia.
  - intros y Hy. apply Hzs. by right.
Qed.

Lemma numeric_id_Finite p z :
  numeric_id p = Some z ->
  exists neg m, parseInt (id_value p) = Finite neg m 0 /\ z = signed neg m.
Proof.
  unfold numeric_id, int_value.
  destruct (parseInt (id_value p)) as [|?|neg m [|k]]; try done.
  intros [= <-]. by exists neg, m.
Qed.

Lemma fold_visit_max0 (a : list (option Product)) : forall acc : Z,
  (0 <= acc)%Z ->
  (forall p, Some p ∈ a -> parseInt (id_value p) = NaN \/ exists z, numeric_id p = Some z) ->
  fold_left Create.visit a (Finite false (Z.to_N acc) 0)
  = Finite false
      (Z.to_N (fold_left Z.max (omap (fun slot : option Product => slot ≫= numeric_id) a) acc)) 0.
Proof.
  induction a as [|[p|] a IH]; intros acc Hacc Ha; [done| |].
  - cbn [fold_left omap list_omap mbind option_bind].
    assert (forall q, Some q ∈ a ->
              parseInt (id_value q) = NaN \/ exists z, numeric_id q = Some z) as Ha'
      by (intros q Hq; apply Ha; by right).
    destruct (Ha p ltac:(left)) as [Hnan|[z Hz]].
    + assert (numeric_id p = None) as -> by (unfold numeric_id; by rewrite Hnan).
      unfold Create.visit at 2. rewrite Hnan. cbn. by apply IH.
    + rewrite Hz. cbn [fold_left].
      destruct (numeric_id_Finite p z Hz) as (neg & m & Hp & ->).
      unfold Create.visit at 2. rewrite Hp, gt_int.
      cbn [signed]. rewrite Z2N.id by done.
      destruct (Z.ltb_spec acc (signed neg m)) as [Hlt|Hge].
      * assert (neg = false) as -> by (destruct neg; [simpl in Hlt; lia|done]).
        simpl in Hlt. rewrite Z.max_r by (simpl; lia). simpl signed.
        rewrite <- (N2Z.id m) at 1. apply IH; [lia|done].
      * rewrite Z.max_l by lia. by apply IH.
  - cbn [fold_left omap list_omap mbind option_bind]. unfold Create.visit at 2.
    apply IH; [done|]. intros q Hq. apply Ha. by right.
Qed.

Lemma scanMaxId_max0 (a : list (option Product)) :
  (forall p, Some p ∈ a -> parseInt (id_value p) = NaN \/ exists z, numeric_id p = Some z) ->
  Create.scanMaxId a = Finite false (Z.to_N (max0 a)) 0 /\ (0 <= max0 a)%Z.
Proof.
  intros Ha. split; [apply (fold_visit_max0 a 0); [done|exact Ha]|].
  apply fold_Zmax_ge.
Qed.

Lemma max0_bound (a : list (option Product)) (b : Z) :
  (0 <= b)%Z ->
  (forall p z, Some p ∈ a -> numeric_id p = Some z -> (z <= b)%Z) ->
  (max0 a <= b)%Z.
Proof.
  intros Hb Ha. apply fold_Zmax_bound; [done|].
  intros z Hz. apply list_elem_of_omap in Hz as ([p|] & Hin & Hp); [|done].
  by apply (Ha p z).
Qed.

(** A slot that is empty, or holds a record whose ProductID does not
    parse or parses to an integer that is not positive, does not count. *)
Lemma fold_Zmax_comm (zs : list Z) : forall a z,
  fold_left Z.max zs (Z.max a z) = Z.max (fold_left Z.max zs a) z.
Proof.
  induction zs as [|y zs IH]; intros a z; simpl; [done|].
  rewrite <- IH. f_equal. lia.
Qed.

Lemma max0_ignores (a1 a2 : list (option Product)) (slot : option Product) :
  (forall z, slot ≫= numeric_id = Some z -> (z <= 0)%Z) ->
  max0 (a1 ++ slot :: a2) = max0 (a1 ++ a2).
Proof.
  intros Hslot. unfold max0. rewrite !omap_app. cbn [omap list_omap].
  destruct (slot ≫= numeric_id) as [z|] eqn:Hz; [|done].
  specialize (Hslot z eq_refl).
  rewrite !fold_left_app. cbn [fold_left].
  rewrite fold_Zmax_comm.
  pose proof (fold_Zmax_ge (omap (fun slot : option Product => slot ≫= numeric_id) a2)
                (fold_left Z.max (omap (fun slot : option Product => slot ≫= numeric_id) a1) 0%Z)).
  pose proof (fold_Zmax_ge (omap (fun slot : option Product => slot ≫= numeric_id) a1) 0%Z).
  lia.
Qed.

End Max0.

(** ** The claims of the specification *)

Section Claims.
Import JS UI5 Obj formatter App Spec Rows Sample.

(** C1 (amended).  For every products array whose ProductID values all
    parse as integers, with maximum [M] such that [0 <= M <= 2^53 - 1],
    saving a new product through the Create flow (route matched, form
    filled in with a name and a price, Save pressed) gives the new
    record the ProductID [M + 1] and appends exactly that record: the
    array is one longer, its last element is the new record, and the
    records present before are unchanged at their indices.  The new
    record carries, under every key, the value of the last row of the
    table with that key whose key and value are non-empty (nothing
    under [proto]). *)
Theorem create_assigns_next_id (s : State) (l : list Product) (zs : list Z) (M : Z)
    (u : Product -> Product) (v : list spec_row -> list spec_row) :
  contents s = Some <$> l ->
  numeric_ids l = Some zs ->
  maximum zs = Some M ->
  (0 <= M < 2 ^ 53)%Z ->
  missing (u (Create.oNewProduct (today s))) = false ->
  exists s' p',
    Create.flow u v s = Return tt s'
    /\ p' = set_ProductID (Some (decimal (Z.to_N (M + 1)))) (created (today s) u v)
    /\ numeric_id p' = Some (M + 1)%Z
    /\ (forall k, Specifications p' !! k =
                  if decide (k = proto) then None else snd <$> last_filled k (v []))
    /\ contents s' = Some <$> (l ++ [p'])%list
    /\ length (contents s') = S (length (contents s))
    /\ last (contents s') = Some (Some p')
    /\ forall i, (i < length l)%nat -> contents s' !! i = contents s !! i.
Proof.
  intros Hc Hn HM [H0 Hsafe] Hv.
  destruct (numeric_ids_max _ _ _ Hn HM) as [Hall Hex].
  pose proof (scanMaxId_max l M Hall Hex H0) as Hmax.
  assert (Z.to_N M < 2 ^ 53)%N as HmN.
  { change (2 ^ 53)%N with (Z.to_N (2 ^ 53)). lia. }
  destruct (fresh_id l _ Hmax HmN) as [Hid _].
  destruct (Create_flow_saved s l u v Hc Hv) as (s' & Hflow & Hc' & _).
  rewrite Hmax, Hid in Hc'.
  replace (Z.to_N M + 1)%N with (Z.to_N (M + 1)) in Hc' by lia.
  eexists s', _. split; [exact Hflow|]. split; [reflexivity|].
  split; [|split; [|split; [exact Hc'|split; [|split]]]].
  - unfold numeric_id, id_value, parseInt. cbn [ProductID set_ProductID opt_string ToString].
    rewrite parseInt10_decimal_le.
    + cbn [int_value signed]. f_equal. lia.
    + change (2 ^ 53)%N with (Z.to_N (2 ^ 53)). lia.
  - intros k. apply object_of_lookup.
  - rewrite Hc', Hc, !length_fmap, length_app. simpl. lia.
  - rewrite Hc', fmap_app. apply last_snoc.
  - intros i Hi. rewrite Hc', Hc, fmap_app. apply lookup_app_l.
    by rewrite length_fmap.
Qed.

Lemma create_assigns_next_id_witness :
  exists s' p', Create.flow typed rows start = Return tt s'
                /\ ProductID p' = Some "3"
                /\ Specifications p' !! "Color" = Some "Black"
                /\ contents s' = Some <$> (seed ++ [p'])%list.
Proof.
  destruct (create_assigns_next_id start seed [1; 2]%Z 2 typed rows)
    as (s' & p' & Hflow & Hp & _ & Hspecs & Hc & _).
  - reflexivity.
  - reflexivity.
  - reflexivity.
  - lia.
  - reflexivity.
  - exists s', p'. split; [exact Hflow|]. split; [|split; [|exact Hc]].
    + rewrite Hp. reflexivity.
    + rewrite Hspecs. reflexivity.
Defined.

(** C1, as stated, fails on the code: the search for the maximum
    starts from 0, so an array whose only ID is "-5" gets the new ID
    "1", not -4; and an array whose only ID is 2^53 gets the new ID
    2^53 again, since 2^53 + 1 is not a binary64 value. *)
Lemma create_assigns_next_id_counterexample :
  (numeric_ids [minus5] = Some [(-5)%Z]
   /\ exists s' p',
        Create.flow typed rows (init [minus5] "2026-11-02" None) = Return tt s'
        /\ contents s' = Some <$> [minus5; p']
        /\ ProductID p' = Some "1"
        /\ numeric_id p' <> Some (-5 + 1)%Z)
  /\ (numeric_ids [huge] = Some [(2 ^ 53)%Z]
      /\ exists s' p',
           Create.flow typed rows (init [huge] "2026-11-02" None) = Return tt s'
           /\ contents s' = Some <$> [huge; p']
           /\ ProductID p' = Some "9007199254740992"
           /\ numeric_id p' <> Some (2 ^ 53 + 1)%Z).
Proof.
  split; (split; [by vm_compute|]).
  - eexists _, (set_ProductID (Some "1") (created "2026-11-02" typed rows)).
    split; [by vm_compute|]. split; [by vm_compute|]. split; [done|by vm_compute].
  - eexists _, (set_ProductID (Some "9007199254740992") (created "2026-11-02" typed rows)).
    split; [by vm_compute|]. split; [by vm_compute|]. split; [done|by vm_compute].
Qed.

(** C2.  For every products array and every ProductID present in it,
    the confirmed Delete flow (detail route matched, Delete pressed,
    dialog closed with OK) removes the first record with that ID and
    no other: the array is one shorter, the other records keep their
    order, and no record with that ID is left when the IDs are
    unique. *)
Theorem delete_removes_first_match (s : State) (l : list Product) (sId : string) :
  contents s = Some <$> l ->
  Some sId ∈ ProductID <$> l ->
  exists i p s',
    first_at (Some sId) l i p
    /\ Detail.flow sId OK s = Return tt s'
    /\ contents s' = Some <$> delete i l
    /\ delete i l = (take i l ++ drop (S i) l)%list
    /\ S (length (delete i l)) = length l
    /\ (NoDup (ProductID <$> l) -> Some sId ∉ ProductID <$> delete i l).
Proof.
  intros Hc Hin. destruct (first_at_present _ _ Hin) as (i & p & Hf).
  destruct (Detail_flow_found _ _ _ _ _ Hc Hf) as (s1 & Hflow & Hc1 & _).
  exists i, p. eexists. split; [exact Hf|]. split.
  { rewrite Hflow. by apply (Detail_onClose_found _ _ l i p). }
  split; [by apply contents_delete|].
  destruct Hf as (Hi & Hp & _).
  split; [apply delete_take_drop|]. split.
  - rewrite length_delete by (by eexists). apply lookup_lt_Some in Hi. lia.
  - intros Hnd. rewrite delete_take_drop.
    rewrite <- (take_drop_middle l i p Hi), fmap_app, fmap_cons, Hp in Hnd.
    apply NoDup_app in Hnd as (_ & Hl & Hr%NoDup_cons).
    rewrite fmap_app. intros [H|H]%elem_of_app.
    + apply (Hl _ H). left.
    + by destruct Hr as [Hr _].
Qed.

Lemma delete_removes_first_match_witness :
  exists s', Detail.flow "1" OK start = Return tt s' /\ contents s' = [Some phone].
Proof.
  destruct (delete_removes_first_match start seed "1") as (i & p & s' & Hf & Hflow & Hc & _).
  - reflexivity.
  - apply list_elem_of_fmap. exists laptop. split; [reflexivity|]. left.
  - exists s'. split; [exact Hflow|].
    destruct Hf as (Hi & Hp & _).
    destruct i as [|[|i]]; [exact Hc|injection Hi as <-; discriminate Hp|discriminate Hi].
Defined.

(** C3 (amended).  ProductID uniqueness is kept: for every products
    array with pairwise distinct ProductID values, the IDs are still
    pairwise distinct after the Edit flow for an ID of the array and
    after the Delete flow, however the dialog is closed; after the
    Create flow they are distinct exactly when no record is appended
    (a required field is missing) or the ID that [_generateProductId]
    returns is carried by no record of the array, which is the case
    whenever every ID is in the safe range (it does not parse, or
    parses to an integer of at most [2^53 - 1]). *)
Theorem ids_stay_unique (s : State) (l : list Product) :
  contents s = Some <$> l ->
  NoDup (ProductID <$> l) ->
  (forall u v,
     exists s' l' sId,
       Create.flow u v s = Return tt s'
       /\ contents s' = Some <$> l'
       /\ Create._generateProductId s = Return sId s
       /\ (NoDup (ProductID <$> l') <->
           missing (u (Create.oNewProduct (today s))) = true
           \/ Some sId ∉ ProductID <$> l)
       /\ (forallb safe_id l = true -> NoDup (ProductID <$> l')))
  /\ (forall sId u v,
        Some sId ∈ ProductID <$> l ->
        exists s' l', Edit.flow sId u v s = Return tt s'
                      /\ contents s' = Some <$> l' /\ NoDup (ProductID <$> l'))
  /\ (forall sId oAction,
        exists s' l', Detail.flow sId oAction s = Return tt s'
                      /\ contents s' = Some <$> l' /\ NoDup (ProductID <$> l')).
Proof.
  intros Hc Hnd. split; [|split].
  - intros u v.
    assert (Create._generateProductId s =
            Return (Number_toString
                      (add (Create.scanMaxId (Some <$> l)) (Finite false 1 0))) s) as Hgen.
    { unfold Create._generateProductId. cbv [mbind M_bind mret M_ret get]. by rewrite Hc. }
    destruct (missing (u (Create.oNewProduct (today s)))) eqn:Hv.
    + destruct (Create_flow_missing s l u v Hc Hv) as (s' & Hflow & Hc' & _).
      eexists s', l, _. split; [exact Hflow|]. split; [exact Hc'|].
      split; [exact Hgen|]. split; [|done]. split; [by left|done].
    + destruct (Create_flow_saved s l u v Hc Hv) as (s' & Hflow & Hc' & _).
      eexists s', _, _. split; [exact Hflow|]. split; [exact Hc'|].
      split; [exact Hgen|].
      assert (NoDup (ProductID <$>
                (l ++ [set_ProductID
                         (Some (Number_toString
                                  (add (Create.scanMaxId (Some <$> l)) (Finite false 1 0))))
                         (created (today s) u v)])%list)
              <-> Some (Number_toString
                          (add (Create.scanMaxId (Some <$> l)) (Finite false 1 0)))
                  ∉ ProductID <$> l) as Hiff.
      { rewrite fmap_app. cbn [fmap list_fmap ProductID set_ProductID]. split.
        - intros (_ & Hdis & _)%NoDup_app Hin. apply (Hdis _ Hin). left.
        - intros Hout. apply NoDup_app. split; [done|]. split; [|apply NoDup_singleton].
          intros x Hx ->%list_elem_of_singleton. done. }
      split.
      * rewrite Hiff. split; [by right|]. by intros [?|?].
      * intros Hsafe. apply Hiff.
        destruct (scanMaxId_safe l (safe_ids_spec l Hsafe)) as (mm & Hmax & Hmm).
        destruct (fresh_id l mm Hmax Hmm) as [Hid Hfresh].
        rewrite Hmax, Hid. intros (p & Hp & Hpl)%list_elem_of_fmap.
        by apply (Hfresh p Hpl).
  - intros sId u v Hin. destruct (first_at_present _ _ Hin) as (i & p & Hf).
    destruct (missing (u (json_copy p))) eqn:Hv.
    + destruct (Edit_flow_missing s l sId i p u v Hc Hf Hv) as (s' & Hflow & Hc' & _).
      by exists s', l.
    + destruct (Edit_flow_saved s l sId i p u v Hc Hf Hv) as (s' & Hflow & Hc' & _).
      eexists s', _. split; [exact Hflow|]. split; [exact Hc'|].
      destruct Hf as (Hi & _ & _).
      rewrite list_fmap_insert. unfold edited. cbn [ProductID set_Specifications form].
      change (ProductID (json_copy p)) with (ProductID p).
      rewrite list_insert_id; [done|]. by rewrite list_lookup_fmap, Hi.
  - intros sId oAction.
    destruct (Detail_flow_any s l sId Hc) as (d & s1 & Hflow & Hc1).
    destruct (Detail_onClose_any d oAction s1 l Hc1) as (s' & l' & Hclose & Hc' & Hsub).
    exists s', l'. split; [by rewrite Hflow|]. split; [done|].
    eapply sublist_NoDup; [exact Hnd|]. by apply fmap_sublist.
Qed.

Lemma ids_stay_unique_witness :
  (exists s' l', Create.flow typed rows start = Return tt s'
                 /\ contents s' = Some <$> l' /\ NoDup (ProductID <$> l'))
  /\ (exists s' l', Edit.flow "2" typed rows start = Return tt s'
                    /\ contents s' = Some <$> l' /\ NoDup (ProductID <$> l'))
  /\ (exists s' l', Detail.flow "2" OK start = Return tt s'
                    /\ contents s' = Some <$> l' /\ NoDup (ProductID <$> l')).
Proof.
  assert (NoDup (ProductID <$> seed)) as Hnd.
  { apply NoDup_cons. split.
    - intros [H|H]%elem_of_cons; [discriminate H|by apply elem_of_nil in H].
    - apply NoDup_singleton. }
  destruct (ids_stay_unique start seed eq_refl Hnd) as (Hcreate & Hedit & Hdelete).
  split; [|split].
  - destruct (Hcreate typed rows) as (s' & l' & sId & Hflow & Hc & _ & _ & Hsafe).
    exists s', l'. split; [exact Hflow|]. split; [exact Hc|]. apply Hsafe. reflexivity.
  - apply Hedit. right. left.
  - apply Hdelete.
Defined.

(** C3, as stated, fails on the code for the Create flow: on the
    array whose only ID is 2^53 the generated ID is 2^53 again. *)
Lemma ids_stay_unique_counterexample :
  let s := init [huge] "2026-11-02" None in
  let p' := set_ProductID (Some "9007199254740992") (created "2026-11-02" typed rows) in
  contents s = Some <$> [huge]
  /\ NoDup (ProductID <$> [huge])
  /\ exists s', Create.flow typed rows s = Return tt s'
                /\ contents s' = Some <$> [huge; p']
                /\ ~ NoDup (ProductID <$> [huge; p']).
Proof.
  split; [reflexivity|]. split; [apply NoDup_singleton|].
  eexists. split; [by vm_compute|]. split; [by vm_compute|].
  intros [Hnin _]%NoDup_cons. apply Hnin. left.
Qed.



(** C5.  For every products array and every requested ProductID that
    is not in it, the linear scan finds nothing, and the route-matched
    handlers of Detail and Edit show the toast "Product not found" and
    navigate back; nothing else changes: no view is bound and no
    record is modified. *)
Theorem not_found_toast_and_back (s : State) (l : list Product) (sId : string) :
  contents s = Some <$> l ->
  Some sId ∉ ProductID <$> l ->
  scan (Some sId) (contents s) 0 = NotFound
  /\ Detail._onProductMatched sId s =
     Return tt (set_log (log s ++ [MessageToast_show "Product not found";
                                   back_from_detail s]) s)
  /\ Edit._onEditMatched sId s =
     Return tt (set_log (log s ++ [MessageToast_show "Product not found";
                                   back_from_edit s]) s).
Proof.
  intros Hc Hout. pose proof (first_at_absent _ _ Hout) as Hno.
  split; [|split].
  - rewrite Hc. by apply scan_dense_not_found.
  - by apply (Detail_onProductMatched_not_found s l).
  - by apply (Edit_onEditMatched_not_found s l).
Qed.

Lemma not_found_toast_and_back_witness :
  Detail._onProductMatched "9" start =
    Return tt (set_log [MessageToast_show "Product not found";
                        navTo "master" None true] start)
  /\ Edit._onEditMatched "9" start =
    Return tt (set_log [MessageToast_show "Product not found";
                        navTo "detail" (Some VUndefined) true] start).
Proof.
  destruct (not_found_toast_and_back start seed "9" eq_refl) as (_ & Hd & He).
  - intros [H|[H|H]%elem_of_cons]%elem_of_cons;
      [discriminate H|discriminate H|by apply elem_of_nil in H].
  - split; [exact Hd|exact He].
Defined.




(** C7.  For every products array and every ProductID present in it,
    saving in the Edit flow replaces exactly the element at the index
    where the ID was found (by the edited record, or by nothing when
    a required field is missing): the array keeps its length and
    every element at another index is unchanged.  The edited record
    has the ProductID of the record found, the name and the price the
    form holds, and, under every key, the value of the last row of
    the table with that key whose key and value are non-empty
    (nothing under [proto]). *)
Theorem edit_replaces_in_place (s : State) (l : list Product) (sId : string)
    (u : Product -> Product) (v : list spec_row -> list spec_row) :
  contents s = Some <$> l ->
  Some sId ∈ ProductID <$> l ->
  exists i p s' l',
    first_at (Some sId) l i p
    /\ Edit.flow sId u v s = Return tt s'
    /\ contents s' = Some <$> l'
    /\ l' = <[i := if missing (u (json_copy p)) then p else edited p u v]> l
    /\ ProductID (edited p u v) = Some sId
    /\ Name (edited p u v) = Name (u (json_copy p))
    /\ Price (edited p u v) = Price (u (json_copy p))
    /\ (forall k, Specifications (edited p u v) !! k =
                  if decide (k = proto) then None
                  else snd <$> last_filled k (v (rows_of (Specifications p))))
    /\ length l' = length l
    /\ forall j, j <> i -> l' !! j = l !! j.
Proof.
  intros Hc Hin. destruct (first_at_present _ _ Hin) as (i & p & Hf).
  exists i, p.
  assert (exists s', Edit.flow sId u v s = Return tt s'
            /\ contents s' =
               Some <$> <[i := if missing (u (json_copy p)) then p else edited p u v]> l)
    as (s' & Hflow & Hc').
  { destruct (missing (u (json_copy p))) eqn:Hv.
    - destruct (Edit_flow_missing s l sId i p u v Hc Hf Hv) as (s' & Hflow & Hc' & _).
      exists s'. split; [done|]. destruct Hf as (Hi & _). by rewrite list_insert_id.
    - destruct (Edit_flow_saved s l sId i p u v Hc Hf Hv) as (s' & Hflow & Hc' & _).
      by exists s'. }
  eexists s', _. split; [exact Hf|]. split; [exact Hflow|]. split; [exact Hc'|].
  split; [reflexivity|]. split; [exact (proj1 (proj2 Hf))|].
  split; [reflexivity|]. split; [reflexivity|].
  split; [intros k; apply object_of_lookup|].
  split; [apply length_insert|].
  intros j Hj. by apply list_lookup_insert_ne.
Qed.

Lemma edit_replaces_in_place_witness :
  exists s', Edit.flow "2" typed rows start = Return tt s'
             /\ contents s' = [Some laptop; Some (edited phone typed rows)]
             /\ Specifications (edited phone typed rows) !! "Color" = Some "Black".
Proof.
  destruct (edit_replaces_in_place start seed "2" typed rows)
    as (i & p & s' & l' & Hf & Hflow & Hc & Hl & _ & _ & _ & Hspecs & _).
  - reflexivity.
  - right. left.
  - destruct Hf as (Hi & Hp & _).
    destruct i as [|[|i]];
      [injection Hi as <-; discriminate Hp| |discriminate Hi].
    injection Hi as <-.
    exists s'. split; [exact Hflow|]. split; [by rewrite Hc, Hl|].
    rewrite Hspecs. reflexivity.
Defined.

(** C8.  Deletion is gated by the confirm dialog: pressing Delete only
    opens the dialog, and closing it with any action other than OK
    leaves the whole state as it was, so the products array is not
    modified and nothing navigates to the master view; the array
    changes only when the dialog is closed with OK. *)
Theorem delete_needs_confirmation (s : State) (d : Detail.ConfirmDialog) :
  (exists d0 sMessage,
     Detail.onDeletePress s =
     Return d0 (set_log (log s ++ [MessageBox_confirm sMessage "Confirm Delete"]) s))
  /\ (forall oAction, oAction <> OK -> Detail.onClose d oAction s = Return tt s)
  /\ (forall oAction s', Detail.onClose d oAction s = Return tt s' ->
        aProducts s' <> aProducts s -> oAction = OK).
Proof.
  split; [|split].
  - eexists _, _. apply Detail_onDeletePress_run.
  - intros oAction Hne. by apply Detail_onClose_other.
  - intros oAction s' Hrun Hchanged.
    destruct (decide (oAction = OK)) as [|Hne]; [done|].
    rewrite Detail_onClose_other in Hrun by done.
    injection Hrun as <-. done.
Qed.

Lemma delete_needs_confirmation_witness :
  Detail.onClose (Detail.mkConfirm (Some "1")) CANCEL start = Return tt start.
Proof.
  destruct (delete_needs_confirmation start (Detail.mkConfirm (Some "1"))) as (_ & H & _).
  apply H. discriminate.
Defined.

(** C9 (amended).  formatPrice returns the empty string when the price
    is falsy (the number 0 included); otherwise, when parseFloat of
    the price is a finite number of magnitude below 10^21, it returns
    that number rounded to the nearest hundredth (the larger one on a
    tie) and written with exactly two decimal places; the currency
    argument never affects the result. *)
Theorem formatPrice_two_decimals (price currency : value) :
  (truthy price = false -> formatPrice price currency = "")
  /\ (forall neg m k,
        truthy price = true -> parseFloat price = Finite neg m k ->
        (Z.of_N m < 10 ^ 21 * 2 ^ Z.of_nat k)%Z ->
        formatPrice price currency = two_decimals neg m k
        /\ two_decimal_form (formatPrice price currency) = true
        /\ ((2 * Z.of_N (hundredths m k) - 1) * 2 ^ Z.of_nat k <= 200 * Z.of_N m
            < (2 * Z.of_N (hundredths m k) + 1) * 2 ^ Z.of_nat k)%Z)
  /\ (forall currency', formatPrice price currency' = formatPrice price currency).
Proof.
  split; [|split].
  - intros H. unfold formatPrice. by rewrite H.
  - intros neg m k Ht Hp Hlt. unfold formatPrice. rewrite Ht, Hp. cbn [negb].
    rewrite toFixed_two by done.
    split; [done|]. split; [apply two_decimals_form|apply hundredths_nearest].
  - done.
Qed.

Lemma formatPrice_two_decimals_witness :
  formatPrice (VNum (Finite false 0 0)) (VStr "USD") = ""
  /\ formatPrice (VNum price_1299_99) (VStr "USD") = "1299.99".
Proof.
  split.
  - exact (proj1 (formatPrice_two_decimals (VNum (Finite false 0 0)) (VStr "USD")) eq_refl).
  - destruct (formatPrice_two_decimals (VNum price_1299_99) (VStr "USD")) as (_ & H & _).
    destruct (H false 5717416483970089%N 42%nat) as (Hf & _).
    + reflexivity.
    + by vm_compute.
    + by vm_compute.
    + rewrite Hf. by vm_compute.
Defined.

(** C9, as stated, fails on the code: the truthy price 10^21 is
    returned in exponent notation, and a truthy price that does not
    parse as a number is returned as "NaN". *)
Lemma formatPrice_two_decimals_counterexample :
  (truthy (VNum (Finite false (10 ^ 21) 0)) = true
   /\ formatPrice (VNum (Finite false (10 ^ 21) 0)) (VStr "USD") = "1e+21"
   /\ two_decimal_form "1e+21" = false)
  /\ (truthy (VStr "abc") = true
      /\ formatPrice (VStr "abc") (VStr "USD") = "NaN"
      /\ two_decimal_form "NaN" = false).
Proof. by vm_compute. Qed.

(** C10 (amended).  On the empty products array
    [_generateProductId] returns "1"; on every products array in which
    every ProductID either does not parse or parses to an integer of
    at most [2^53 - 1], it returns the decimal string of 1 plus the
    maximum of 0 and the integers the ProductID values parse to.  In
    that maximum an empty slot, a ProductID that does not parse and
    one that parses to an integer that is not positive do not count. *)
Theorem generateProductId_is_one_plus_max (s : State) :
  (forall p, Some p ∈ contents s ->
     parseInt (id_value p) = NaN
     \/ exists z, numeric_id p = Some z /\ (z < 2 ^ 53)%Z) ->
  Create._generateProductId s = Return (decimal (Z.to_N (max0 (contents s) + 1))) s
  /\ (0 <= max0 (contents s) < 2 ^ 53)%Z
  /\ (contents s = [] -> Create._generateProductId s = Return "1" s)
  /\ (forall a1 slot a2,
        (forall z, slot ≫= numeric_id = Some z -> (z <= 0)%Z) ->
        max0 (a1 ++ slot :: a2) = max0 (a1 ++ a2)).
Proof.
  intros Hsafe.
  destruct (scanMaxId_max0 (contents s)) as [Hmax H0].
  { intros p Hp. destruct (Hsafe p Hp) as [?|(z & Hz & _)]; [by left|right; by exists z]. }
  assert (max0 (contents s) <= 2 ^ 53 - 1)%Z as Hb.
  { apply max0_bound; [done|]. intros p z Hp Hz.
    destruct (Hsafe p Hp) as [Hnan|(z' & Hz' & Hlt)].
    - unfold numeric_id in Hz. by rewrite Hnan in Hz.
    - assert (z = z') as -> by congruence. lia. }
  assert (Create._generateProductId s
          = Return (decimal (Z.to_N (max0 (contents s) + 1))) s) as Hgen.
  { unfold Create._generateProductId. cbv [mbind M_bind mret M_ret get].
    rewrite Hmax, add_one_int.
    - rewrite Number_toString_int_le.
      + do 2 f_equal. lia.
      + change (2 ^ 53)%N with (Z.to_N (2 ^ 53)). lia.
    - change (2 ^ 53)%N with (Z.to_N (2 ^ 53)). lia. }
  split; [exact Hgen|]. split; [lia|]. split.
  - intros Hnil. rewrite Hgen, Hnil. reflexivity.
  - intros a1 slot a2. apply max0_ignores.
Qed.

Lemma generateProductId_is_one_plus_max_witness :
  Create._generateProductId start = Return "3" start
  /\ Create._generateProductId (init [minus5; phone] "2026-11-02" None)
     = Return "3" (init [minus5; phone] "2026-11-02" None).
Proof.
  split.
  - refine (proj1 (generateProductId_is_one_plus_max start _)).
    intros p Hp. change (contents start) with [Some laptop; Some phone] in Hp.
    apply elem_of_cons in Hp as [[= ->]|Hp]; [right; exists 1%Z; by vm_compute|].
    apply list_elem_of_singleton in Hp as [= ->]. right. exists 2%Z. by vm_compute.
  - refine (proj1 (generateProductId_is_one_plus_max (init [minus5; phone] "2026-11-02" None) _)).
    intros p Hp.
    change (contents (init [minus5; phone] "2026-11-02" None))
      with [Some minus5; Some phone] in Hp.
    apply elem_of_cons in Hp as [[= ->]|Hp]; [right; exists (-5)%Z; by vm_compute|].
    apply list_elem_of_singleton in Hp as [= ->]. right. exists 2%Z. by vm_compute.
Defined.

(** C10, as stated, fails on the code: on the array whose only ID is
    2^53 the maximum is 2^53 and 1 plus the maximum is
    9007199254740993, but the function returns "9007199254740992",
    the sum being rounded to a binary64 value. *)
Lemma generateProductId_is_one_plus_max_counterexample :
  let s := init [huge] "2026-11-02" None in
  numeric_id huge = Some (2 ^ 53)%Z
  /\ max0 (contents s) = (2 ^ 53)%Z
  /\ decimal (Z.to_N (max0 (contents s) + 1)) = "9007199254740993"
  /\ Create._generateProductId s = Return "9007199254740992" s.
Proof. by vm_compute. Qed.

End Claims.

(** ** Further properties of the handlers

    What follows is read off the code of the handlers: how the
    specifications table and the Specifications object correspond, how
    the flows compose, and what the handlers do at the edges. *)

Section Specifications.
Import JS Obj App Spec Rows.

(** X1.  The Specifications object that [onSavePress] builds from the
    rows of the table maps a key (other than [proto]) to the value of
    the last row with that key whose key and value are both non-empty,
    and has no entry for a key without such a row.  So no empty key
    and no empty value is ever saved, every saved entry is a row of
    the table, and the blank row that [onAddSpecification] appends
    changes nothing. *)
Theorem saved_specifications_last_filled_row (aSpecs : list spec_row) (k : string) :
  k <> proto ->
  object_of aSpecs !! k = snd <$> last_filled k aSpecs
  /\ (forall v, object_of aSpecs !! k = Some v ->
        k <> "" /\ v <> "" /\ (k, v) ∈ aSpecs)
  /\ object_of (aSpecs ++ [("", "")])%list = object_of aSpecs.
Proof.
  intros Hproto. split; [by rewrite object_of_lookup, decide_False|]. split.
  - intros v. rewrite object_of_lookup, decide_False by done.
    destruct (last_filled k aSpecs) as [[k' v']|] eqn:Hl; [|done].
    intros [= <-]. apply last_filled_Some in Hl as (Hin & Hk & Hf).
    simpl in Hk. subst k'. apply filled_spec in Hf as [? ?]. done.
  - unfold object_of. by rewrite fold_left_app.
Qed.

Lemma saved_specifications_last_filled_row_witness :
  "Color" <> "" /\ "Red" <> ""
  /\ ("Color", "Red") ∈ [("Color", "Black"); ("", "x"); ("Color", "Red"); ("Size", "")].
Proof.
  destruct (saved_specifications_last_filled_row
              [("Color", "Black"); ("", "x"); ("Color", "Red"); ("Size", "")] "Color")
    as (_ & H & _); [discriminate|].
  apply (H "Red"). reflexivity.
Defined.

(** X2.  Turning a Specifications object into table rows
    ([_initSpecificationsTable]) and the rows back into an object (the
    loop of [onSavePress]) keeps, among the keys other than [proto],
    exactly the entries whose key and value are non-empty: the object
    comes back as it was when all its entries are such and none is
    under [proto], and differs as soon as one entry has an empty key
    or an empty value. *)
Theorem specifications_round_trip (o : object) :
  (forall k, k <> proto ->
     object_of (rows_of o) !! k =
     match o !! k with
     | Some v => if filled (k, v) then Some v else None
     | None => None
     end)
  /\ (o !! proto = None ->
      (forall k v, o !! k = Some v -> filled (k, v) = true) ->
      object_of (rows_of o) = o)
  /\ (forall k v, k <> proto -> o !! k = Some v -> filled (k, v) = false ->
      object_of (rows_of o) <> o).
Proof.
  split; [apply object_of_rows_of_lookup|].
  split; [apply object_of_rows_of_stable|].
  intros k v Hp Hk Hf Heq.
  pose proof (object_of_rows_of_lookup o k Hp) as H. rewrite Heq, Hk, Hf in H. done.
Qed.

Lemma laptop_filled k v :
  Specifications Sample.laptop !! k = Some v -> filled (k, v) = true.
Proof.
  intros Hk. apply lookup_rows_of in Hk.
  change (rows_of (Specifications Sample.laptop))
    with [("Processor", "Intel Core i7-11800H"); ("RAM", "16GB DDR4")] in Hk.
  apply elem_of_cons in Hk as [[= -> ->]|Hk]; [reflexivity|].
  apply list_elem_of_singleton in Hk as [= -> ->]. reflexivity.
Defined.

Lemma specifications_round_trip_witness :
  object_of (rows_of (Specifications Sample.laptop)) = Specifications Sample.laptop.
Proof.
  destruct (specifications_round_trip (Specifications Sample.laptop)) as (_ & H & _).
  apply H; [reflexivity|]. exact laptop_filled.
Defined.

End Specifications.

Section Gaps.
Import JS App.

(** An empty slot stops the scan for an ID that is not found before
    it. *)
Lemma scan_gap sId (xs : list (option Product)) rest : forall k,
  Forall (fun x => exists q, x = Some q /\ ProductID q <> sId) xs ->
  scan sId (xs ++ None :: rest)%list k = Failed.
Proof.
  induction xs as [|x xs IH]; intros k Hxs; [done|].
  apply Forall_cons in Hxs as [(q & -> & Hq) Hxs].
  simpl. rewrite decide_False by done. by apply IH.
Qed.

End Gaps.

Section Journeys.
Import JS UI5 Obj App Spec Rows Navigation.

#[local] Arguments Number_toString : simpl never.
#[local] Arguments add : simpl never.
#[local] Arguments Create.scanMaxId : simpl never.
#[local] Arguments read_array : simpl never.
#[local] Arguments object_of : simpl never.
#[local] Arguments rows_of : simpl never.
#[local] Arguments truthy : simpl never.
#[local] Arguments scan : simpl never.
#[local] Arguments ToString : simpl never.
#[local] Arguments getProperty : simpl never.

Ltac run :=
  cbv [mbind M_bind mret M_ret get modify emit alloc update throw]; simpl.

(** The state the Create flow leaves after a save. *)
Lemma Create_flow_run s (l : list Product) u v :
  contents s = Some <$> l ->
  missing (u (Create.oNewProduct (today s))) = false ->
  let sId := Number_toString (add (Create.scanMaxId (Some <$> l)) (Finite false 1 0)) in
  Create.flow u v s =
  Return tt
    (set_log (log s ++ [MessageToast_show "Product created successfully";
                        navTo "master" None false])
       (set_aProducts (aProducts s ++ [Some (length (heap s))])
          (set_heap (heap s ++ [set_ProductID (Some sId) (created (today s) u v)])
             (set_create (mkCreate (Some (length (heap s))) (v [])) s)))).
Proof.
  intros Hc Hv. unfold contents in Hc. unfold Create.flow.
  rewrite (bind_Return _ _ _ _ _ (Create_onCreateMatched_run s)).
  erewrite bind_Return by (by apply Create_formInput_run).
  simpl. rewrite alter_snoc.
  erewrite Create_onSavePress_saved; [|done|apply lookup_snoc|done].
  simpl. rewrite !alter_snoc. rewrite (read_array_app _ _ _ _ Hc). done.
Qed.

Lemma first_at_snoc_fresh sId (l : list Product) p :
  (forall q, q ∈ l -> ProductID q <> sId) -> ProductID p = sId ->
  first_at sId (l ++ [p])%list (length l) p.
Proof.
  intros Hfresh Hp. split; [apply lookup_snoc|]. split; [done|].
  intros j q Hj Hq. rewrite lookup_app_l in Hq by done.
  apply Hfresh, list_elem_of_lookup. by exists j.
Qed.

Lemma delete_snoc {A} (l : list A) x : delete (length l) (l ++ [x])%list = l.
Proof. induction l as [|y l IH]; [done|]. simpl. by rewrite IH. Qed.

Lemma first_at_delete_absent sId (l : list Product) i p :
  NoDup (ProductID <$> l) -> first_at sId l i p ->
  forall q, q ∈ delete i l -> ProductID q <> sId.
Proof.
  intros Hnd (Hi & Hp & _) q Hq Hid.
  rewrite delete_take_drop in Hq.
  rewrite <- (take_drop_middle l i p Hi), fmap_app, fmap_cons, Hp in Hnd.
  apply NoDup_app in Hnd as (_ & Hl & Hr%NoDup_cons).
  apply elem_of_app in Hq as [Hq|Hq].
  - apply (Hl sId); [|left]. apply list_elem_of_fmap. by exists q.
  - destruct Hr as [Hr _]. apply Hr, list_elem_of_fmap. by exists q.
Qed.

Lemma numeric_id_decimal (p : Product) (n : N) :
  (n <= 2 ^ 53)%N -> ProductID p = Some (decimal n) -> numeric_id p = Some (Z.of_N n).
Proof.
  intros Hn Hp. unfold numeric_id, id_value, parseInt. rewrite Hp.
  cbn [opt_string]. change (ToString (VStr ?x)) with x.
  by rewrite parseInt10_decimal_le.
Qed.

(** The ID issued on an array whose largest numeric ID is [M]. *)
Lemma Create_flow_next s (l : list Product) (M : Z) u v :
  contents s = Some <$> l ->
  (forall p, p ∈ l -> exists z, numeric_id p = Some z /\ (z <= M)%Z) ->
  (exists p, p ∈ l /\ numeric_id p = Some M) ->
  (0 <= M < 2 ^ 53)%Z ->
  missing (u (Create.oNewProduct (today s))) = false ->
  exists s' p',
    Create.flow u v s = Return tt s'
    /\ contents s' = Some <$> (l ++ [p'])%list
    /\ ProductID p' = Some (decimal (Z.to_N (M + 1)))
    /\ numeric_id p' = Some (M + 1)%Z
    /\ missing p' = false
    /\ today s' = today s.
Proof.
  intros Hc Hall Hex [H0 Hsafe] Hv.
  pose proof (scanMaxId_max l M Hall Hex H0) as Hmax.
  assert (Z.to_N M < 2 ^ 53)%N as HmN.
  { change (2 ^ 53)%N with (Z.to_N (2 ^ 53)). lia. }
  destruct (fresh_id l _ Hmax HmN) as [Hid _].
  pose proof (Create_flow_run s l u v Hc Hv) as Hrun. cbv zeta in Hrun.
  rewrite Hmax, Hid in Hrun.
  replace (Z.to_N M + 1)%N with (Z.to_N (M + 1)) in Hrun by lia.
  eexists _, (set_ProductID (Some (decimal (Z.to_N (M + 1)))) (created (today s) u v)).
  split; [exact Hrun|].
  split; [|split; [reflexivity|split; [|split; [exact Hv|reflexivity]]]].
  - unfold contents in *. simpl. rewrite read_array_snoc, lookup_snoc.
    rewrite (read_array_app _ _ _ _ Hc). by rewrite fmap_app.
  - rewrite (numeric_id_decimal _ (Z.to_N (M + 1))); [f_equal; lia| |done].
    change (2 ^ 53)%N with (Z.to_N (2 ^ 53)). lia.
Qed.


Lemma Create_flows_next (inputs : list ((Product -> Product) * (list spec_row -> list spec_row))) :
  forall s (l : list Product) (M : Z),
  contents s = Some <$> l ->
  (forall p, p ∈ l -> exists z, numeric_id p = Some z /\ (z <= M)%Z) ->
  (exists p, p ∈ l /\ numeric_id p = Some M) ->
  (0 <= M)%Z -> (M + Z.of_nat (length inputs) < 2 ^ 53)%Z ->
  Forall (fun input => missing (input.1 (Create.oNewProduct (today s))) = false) inputs ->
  exists s' ps,
    creates inputs s = Return tt s'
    /\ contents s' = Some <$> (l ++ ps)%list
    /\ length ps = length inputs
    /\ forall j p, ps !! j = Some p -> numeric_id p = Some (M + 1 + Z.of_nat j)%Z.
Proof.
  induction inputs as [|[u v] rest IH]; intros s l M Hc Hall Hex H0 Hlt Hok.
  - exists s, []. split; [done|]. split; [by rewrite app_nil_r|]. split; [done|].
    intros j p Hj. done.
  - apply Forall_cons in Hok as [Hv Hok]. simpl in Hv, Hlt.
    destruct (Create_flow_next s l M u v Hc Hall Hex) as (s1 & p1 & Hrun & Hc1 & _ & Hn1 & _ & Ht);
      [lia|done|].
    destruct (IH s1 (l ++ [p1])%list (M + 1)%Z Hc1) as (s' & ps & Hrest & Hc' & Hlen & Hids).
    + intros p [Hp| ->%list_elem_of_singleton]%elem_of_app.
      * destruct (Hall p Hp) as (z & Hz & Hle). exists z. split; [done|lia].
      * exists (M + 1)%Z. split; [done|lia].
    + exists p1. split; [|done]. apply elem_of_app. right. by apply list_elem_of_singleton.
    + lia.
    + lia.
    + by rewrite Ht.
    + exists s', (p1 :: ps). split.
      { cbn [creates fst snd]. by rewrite (bind_Return _ _ _ _ _ Hrun). }
      split; [by rewrite Hc', <- app_assoc|]. split; [simpl; by rewrite Hlen|].
      intros [|j] p Hj.
      * injection Hj as <-. rewrite Hn1. f_equal. lia.
      * rewrite (Hids j p Hj). f_equal. lia.
Qed.

(** X3.  Create flows run one after the other on an array whose
    ProductID values parse as integers with maximum [M >= 0] issue the
    IDs [M + 1], [M + 2], ... in order and append the records in that
    order, as long as the last ID stays below [2^53]. *)
Theorem successive_creates_issue_consecutive_ids (s : State) (l : list Product)
    (zs : list Z) (M : Z)
    (inputs : list ((Product -> Product) * (list spec_row -> list spec_row))) :
  contents s = Some <$> l ->
  numeric_ids l = Some zs ->
  maximum zs = Some M ->
  (0 <= M)%Z ->
  (M + Z.of_nat (length inputs) < 2 ^ 53)%Z ->
  Forall (fun input => missing (input.1 (Create.oNewProduct (today s))) = false) inputs ->
  exists s' ps,
    creates inputs s = Return tt s'
    /\ contents s' = Some <$> (l ++ ps)%list
    /\ length ps = length inputs
    /\ forall j p, ps !! j = Some p -> numeric_id p = Some (M + 1 + Z.of_nat j)%Z.
Proof.
  intros Hc Hn HM H0 Hlt Hok.
  destruct (numeric_ids_max _ _ _ Hn HM) as [Hall Hex].
  by apply Create_flows_next.
Qed.

Lemma successive_creates_issue_consecutive_ids_witness :
  exists s' p3 p4,
    creates [(Sample.typed, Sample.rows); (Sample.typed, id)] Sample.start = Return tt s'
    /\ contents s' = Some <$> (Sample.seed ++ [p3; p4])%list
    /\ numeric_id p3 = Some 3%Z /\ numeric_id p4 = Some 4%Z.
Proof.
  destruct (successive_creates_issue_consecutive_ids Sample.start Sample.seed [1; 2]%Z 2
              [(Sample.typed, Sample.rows); (Sample.typed, id)])
    as (s' & ps & Hrun & Hc & Hlen & Hids).
  - reflexivity.
  - reflexivity.
  - reflexivity.
  - lia.
  - simpl. lia.
  - repeat constructor.
  - destruct ps as [|p3 [|p4 [|? ?]]]; try discriminate Hlen.
    exists s', p3, p4. split; [exact Hrun|]. split; [exact Hc|]. split.
    + exact (Hids 0%nat p3 eq_refl).
    + exact (Hids 1%nat p4 eq_refl).
Defined.


(** The Create flow on an array whose IDs are in the safe range: the
    new record carries an ID that no record had. *)
Lemma Create_flow_fresh s (l : list Product) u v :
  contents s = Some <$> l ->
  forallb safe_id l = true ->
  missing (u (Create.oNewProduct (today s))) = false ->
  exists s' p' sId,
    Create.flow u v s = Return tt s'
    /\ contents s' = Some <$> (l ++ [p'])%list
    /\ p' = set_ProductID (Some sId) (created (today s) u v)
    /\ sId = Number_toString (add (Create.scanMaxId (Some <$> l)) (Finite false 1 0))
    /\ (forall q, q ∈ l -> ProductID q <> Some sId)
    /\ today s' = today s
    /\ sPreviousHash s' = sPreviousHash s.
Proof.
  intros Hc Hsafe Hv.
  destruct (scanMaxId_safe l (safe_ids_spec l Hsafe)) as (mm & Hmax & Hmm).
  destruct (fresh_id l mm Hmax Hmm) as [Hid Hfresh].
  pose proof (Create_flow_run s l u v Hc Hv) as Hrun. cbv zeta in Hrun.
  eexists _, _, _. split; [exact Hrun|].
  split; [|split; [reflexivity|split; [reflexivity|split; [|done]]]].
  - unfold contents in *. simpl. rewrite read_array_snoc, lookup_snoc.
    rewrite (read_array_app _ _ _ _ Hc). by rewrite fmap_app.
  - by rewrite Hmax, Hid.
Qed.

(** X4.  The record the Create flow appends carries an ID that the
    linear scan finds at the last index, provided the IDs of the array
    are in the safe range: the detail route for the new ID binds the
    view to the new record, and the edit route opens a copy of it with
    the last index stored. *)
Theorem created_record_is_found (s : State) (l : list Product)
    (u : Product -> Product) (v : list spec_row -> list spec_row) :
  contents s = Some <$> l ->
  forallb safe_id l = true ->
  missing (u (Create.oNewProduct (today s))) = false ->
  exists s' p' sId,
    Create.flow u v s = Return tt s'
    /\ contents s' = Some <$> (l ++ [p'])%list
    /\ ProductID p' = Some sId
    /\ scan (Some sId) (contents s') 0 = Found (length l) p'
    /\ (exists s2, patternMatched "detail" sId s' = Return tt s2
          /\ Detail_context (detail s2) = Some (length l)
          /\ viewData (Detail_view (detail s2)) s2 = Some p'
          /\ contents s2 = contents s')
    /\ (exists s2, patternMatched "edit" sId s' = Return tt s2
          /\ productIndex (edit s2) = Some (length l)
          /\ viewData (Edit_view (edit s2)) s2 = Some (json_copy p')
          /\ contents s2 = contents s').
Proof.
  intros Hc Hsafe Hv.
  destruct (Create_flow_fresh s l u v Hc Hsafe Hv)
    as (s' & p' & sId & Hrun & Hc' & Hp' & _ & Hfresh & _).
  assert (ProductID p' = Some sId) as Hid by (by rewrite Hp').
  pose proof (first_at_snoc_fresh (Some sId) l p' Hfresh Hid) as Hf.
  exists s', p', sId. split; [exact Hrun|]. split; [exact Hc'|]. split; [exact Hid|].
  split; [|split].
  - rewrite Hc'. apply (scan_dense_found _ _ _ _ 0 Hf).
  - eexists. split; [apply (Detail_onProductMatched_found s' _ sId _ _ Hc' Hf)|].
    split; [done|]. split; [|done].
    destruct (dense_slot s' _ _ _ Hc' (proj1 Hf)) as (L & HL & Hh).
    unfold viewData. simpl. rewrite HL. exact Hh.
  - eexists. split; [apply (Edit_onEditMatched_found s' _ sId _ _ Hc' Hf)|].
    split; [done|]. split.
    + unfold viewData. simpl. apply lookup_snoc.
    + unfold contents in *. simpl. rewrite Hc'. by apply read_array_app.
Qed.

Lemma created_record_is_found_witness :
  exists s' p' sId,
    Create.flow Sample.typed Sample.rows Sample.start = Return tt s'
    /\ ProductID p' = Some sId
    /\ scan (Some sId) (contents s') 0 = Found 2 p'.
Proof.
  destruct (created_record_is_found Sample.start Sample.seed Sample.typed Sample.rows)
    as (s' & p' & sId & Hrun & _ & Hid & Hscan & _).
  - reflexivity.
  - reflexivity.
  - reflexivity.
  - exists s', p', sId. split; [exact Hrun|]. split; [exact Hid|exact Hscan].
Defined.


(** The state the confirmed Delete flow leaves. *)
Lemma Detail_flow_delete_run s (l : list Product) sId i p :
  contents s = Some <$> l -> first_at (Some sId) l i p ->
  exists L,
    aProducts s !! i = Some (Some L)
    /\ Detail.flow sId OK s =
       Return tt
         (set_log (log s ++
            [MessageBox_confirm
               ("Are you sure you want to delete product '" ++ Name p ++ "'?")
               "Confirm Delete";
             MessageToast_show "Product deleted successfully";
             navTo "master" None false])
            (set_aProducts (delete i (aProducts s))
               (set_detail (mkDetail (Some L) (Some i) (rows_of (Specifications p))) s))).
Proof.
  intros Hc Hf. pose proof Hf as (Hi & Hp & _).
  destruct (dense_slot _ _ _ _ Hc Hi) as (L & HL & Hh).
  exists L. split; [done|]. unfold Detail.flow.
  rewrite (bind_Return _ _ _ _ _ (Detail_onProductMatched_found _ _ _ _ _ Hc Hf)).
  rewrite HL.
  erewrite bind_Return by apply Detail_onDeletePress_run.
  unfold viewData. cbn [detail set_detail Detail_view mjoin option_join mbind option_bind heap].
  rewrite Hh. cbn [mbind option_bind]. rewrite Hp.
  erewrite (Detail_onClose_found _ _ l i p); [|exact Hc|exact Hf].
  simpl. rewrite <- app_assoc. reflexivity.
Qed.

(** X5.  IDs are computed from the array as it is, not remembered:
    when a record is created, then deleted through the confirmed
    Delete flow, the next Create flow issues the ID of the deleted
    record again. *)
Theorem deleted_newest_id_is_issued_again (s : State) (l : list Product)
    (u u' : Product -> Product) (v v' : list spec_row -> list spec_row) :
  contents s = Some <$> l ->
  forallb safe_id l = true ->
  missing (u (Create.oNewProduct (today s))) = false ->
  missing (u' (Create.oNewProduct (today s))) = false ->
  exists s1 s2 s3 p1 p3 sId,
    Create.flow u v s = Return tt s1
    /\ contents s1 = Some <$> (l ++ [p1])%list
    /\ ProductID p1 = Some sId
    /\ Detail.flow sId OK s1 = Return tt s2
    /\ contents s2 = Some <$> l
    /\ Create.flow u' v' s2 = Return tt s3
    /\ contents s3 = Some <$> (l ++ [p3])%list
    /\ ProductID p3 = Some sId.
Proof.
  intros Hc Hsafe Hv Hv'.
  destruct (Create_flow_fresh s l u v Hc Hsafe Hv)
    as (s1 & p1 & sId & Hrun1 & Hc1 & Hp1 & HsId & Hfresh & Ht1 & _).
  assert (ProductID p1 = Some sId) as Hid by (by rewrite Hp1).
  pose proof (first_at_snoc_fresh (Some sId) l p1 Hfresh Hid) as Hf.
  destruct (Detail_flow_delete_run s1 _ sId _ _ Hc1 Hf) as (L & _ & Hrun2).
  match type of Hrun2 with _ = Return tt ?x => set (s2 := x) in * end.
  assert (contents s2 = Some <$> l) as Hc2.
  { unfold s2, contents in *. simpl. by rewrite read_array_delete, Hc1, <- fmap_delete, delete_snoc. }
  assert (today s2 = today s) as Ht2 by (by rewrite <- Ht1).
  rewrite <- Ht2 in Hv'.
  destruct (Create_flow_fresh s2 l u' v' Hc2 Hsafe Hv')
    as (s3 & p3 & sId3 & Hrun3 & Hc3 & Hp3 & HsId3 & _).
  exists s1, s2, s3, p1, p3, sId.
  repeat (split; [done|]). rewrite Hp3, HsId3, <- HsId. done.
Qed.

Lemma deleted_newest_id_is_issued_again_witness :
  exists s1 s2 s3 p1 p3 sId,
    Create.flow Sample.typed Sample.rows Sample.start = Return tt s1
    /\ ProductID p1 = Some sId
    /\ contents s1 = Some <$> (Sample.seed ++ [p1])%list
    /\ Detail.flow sId OK s1 = Return tt s2
    /\ Create.flow Sample.typed id s2 = Return tt s3
    /\ contents s3 = Some <$> (Sample.seed ++ [p3])%list
    /\ ProductID p3 = Some sId.
Proof.
  destruct (deleted_newest_id_is_issued_again Sample.start Sample.seed
              Sample.typed Sample.typed Sample.rows id)
    as (s1 & s2 & s3 & p1 & p3 & sId & H1 & Hc1 & Hp1 & H2 & _ & H3 & Hc3 & Hp3).
  - reflexivity.
  - reflexivity.
  - reflexivity.
  - reflexivity.
  - exists s1, s2, s3, p1, p3, sId.
    split; [exact H1|]. split; [exact Hp1|]. split; [exact Hc1|]. split; [exact H2|].
    split; [exact H3|]. split; [exact Hc3|exact Hp3].
Defined.

(** X6.  Pressing Save a second time in the Create view, without a
    new route match, works on the object that is already in the
    array: for an array with integer IDs of maximum [M],
    [0 <= M <= 2^53 - 2], it gets the next ID, [M + 2], and is pushed
    again.  The array then ends with the same record twice, the
    ProductID values are no longer distinct, and no record carries
    the ID [M + 1] of the first save.  The record carries, under every
    key, the value of the last row of the table with that key whose
    key and value are non-empty (nothing under [proto]). *)
Theorem second_save_pushes_the_same_record (s : State) (l : list Product)
    (zs : list Z) (M : Z) (u : Product -> Product) (v : list spec_row -> list spec_row) :
  contents s = Some <$> l ->
  numeric_ids l = Some zs ->
  maximum zs = Some M ->
  (0 <= M < 2 ^ 53 - 1)%Z ->
  missing (u (Create.oNewProduct (today s))) = false ->
  exists s' p2,
    (Create.flow u v;; Create.onSavePress) s = Return tt s'
    /\ p2 = set_ProductID (Some (decimal (Z.to_N (M + 2)))) (created (today s) u v)
    /\ contents s' = Some <$> (l ++ [p2; p2])%list
    /\ ~ NoDup (ProductID <$> (l ++ [p2; p2])%list)
    /\ (forall q, q ∈ (l ++ [p2; p2])%list -> numeric_id q <> Some (M + 1)%Z)
    /\ numeric_id p2 = Some (M + 2)%Z
    /\ (forall k, Specifications p2 !! k =
                  if decide (k = proto) then None else snd <$> last_filled k (v [])).
Proof.
  intros Hc Hn HM [H0 Hsafe] Hv.
  destruct (numeric_ids_max _ _ _ Hn HM) as [Hall Hex].
  pose proof (scanMaxId_max l M Hall Hex H0) as Hmax.
  assert (Z.to_N M < 2 ^ 53)%N as HmN.
  { change (2 ^ 53)%N with (Z.to_N (2 ^ 53)). lia. }
  destruct (fresh_id l _ Hmax HmN) as [Hid _].
  pose proof (Create_flow_run s l u v Hc Hv) as Hrun. cbv zeta in Hrun.
  rewrite Hmax, Hid in Hrun.
  replace (Z.to_N M + 1)%N with (Z.to_N (M + 1)) in Hrun by lia.
  set (p1 := set_ProductID (Some (decimal (Z.to_N (M + 1)))) (created (today s) u v)) in *.
  assert (numeric_id p1 = Some (M + 1)%Z) as Hn1.
  { rewrite (numeric_id_decimal _ (Z.to_N (M + 1))); [f_equal; lia| |done].
    change (2 ^ 53)%N with (Z.to_N (2 ^ 53)). lia. }
  assert (Create.scanMaxId (Some <$> (l ++ [p1])%list) = Finite false (Z.to_N (M + 1)) 0) as Hmax1.
  { apply scanMaxId_max; [| |lia].
    - intros p [Hp| ->%list_elem_of_singleton]%elem_of_app.
      + destruct (Hall p Hp) as (z & Hz & Hle). exists z. split; [done|lia].
      + exists (M + 1)%Z. split; [done|lia].
    - exists p1. split; [|done]. apply elem_of_app. right. by apply list_elem_of_singleton. }
  assert (Z.to_N (M + 1) < 2 ^ 53)%N as HmN1.
  { change (2 ^ 53)%N with (Z.to_N (2 ^ 53)). lia. }
  destruct (fresh_id _ _ Hmax1 HmN1) as [Hid1 _].
  replace (Z.to_N (M + 1) + 1)%N with (Z.to_N (M + 2)) in Hid1 by lia.
  rewrite (bind_Return _ _ _ _ _ Hrun).
  erewrite Create_onSavePress_saved; [|done|apply lookup_snoc|exact Hv].
  cbv zeta. simpl. rewrite !alter_snoc.
  assert (read_array (heap s ++ [p1]) (aProducts s ++ [Some (length (heap s))])
          = Some <$> (l ++ [p1])%list) as Hr1.
  { unfold contents in Hc. rewrite read_array_snoc, lookup_snoc.
    rewrite (read_array_app _ _ _ _ Hc). by rewrite fmap_app. }
  change (set_Specifications (object_of (v [])) p1) with p1.
  rewrite Hr1, Hmax1, Hid1.
  change (set_ProductID (Some (decimal (Z.to_N (M + 2)))) p1)
    with (set_ProductID (Some (decimal (Z.to_N (M + 2)))) (created (today s) u v)).
  set (p2 := set_ProductID (Some (decimal (Z.to_N (M + 2)))) (created (today s) u v)).
  assert (numeric_id p2 = Some (M + 2)%Z) as Hn2.
  { rewrite (numeric_id_decimal _ (Z.to_N (M + 2))); [f_equal; lia| |done].
    change (2 ^ 53)%N with (Z.to_N (2 ^ 53)). lia. }
  eexists _, p2. split; [reflexivity|]. split; [reflexivity|].
  split; [|split; [|split; [|split; [exact Hn2|]]]].
  - unfold contents in *. simpl. rewrite <- app_assoc. simpl.
    rewrite (cons_middle (Some (length (heap s))) (aProducts s)), app_assoc.
    rewrite !read_array_snoc, lookup_snoc, (read_array_app _ _ _ _ Hc).
    rewrite <- app_assoc. by rewrite fmap_app.
  - rewrite fmap_app. intros (_ & _ & Hnd)%NoDup_app.
    apply NoDup_cons in Hnd as [Hnin _]. apply Hnin. left.
  - intros q [Hq|Hq]%elem_of_app.
    + destruct (Hall q Hq) as (z & Hz & Hle). rewrite Hz. intros [= ->]. lia.
    + assert (q = p2) as ->.
      { apply elem_of_cons in Hq as [->|Hq]; [done|]. by apply list_elem_of_singleton in Hq. }
      rewrite Hn2. intros [= ?]. lia.
  - intros k. apply object_of_lookup.
Qed.

Lemma second_save_pushes_the_same_record_witness :
  exists s' p2,
    (Create.flow Sample.typed Sample.rows;; Create.onSavePress) Sample.start = Return tt s'
    /\ ProductID p2 = Some "4"
    /\ Specifications p2 !! "Color" = Some "Black"
    /\ contents s' = Some <$> (Sample.seed ++ [p2; p2])%list.
Proof.
  destruct (second_save_pushes_the_same_record Sample.start Sample.seed [1; 2]%Z 2
              Sample.typed Sample.rows)
    as (s' & p2 & Hrun & Hp2 & Hc & _ & _ & _ & Hspecs).
  - reflexivity.
  - reflexivity.
  - reflexivity.
  - lia.
  - reflexivity.
  - exists s', p2. split; [exact Hrun|]. split; [|split; [|exact Hc]].
    + rewrite Hp2. reflexivity.
    + rewrite Hspecs. reflexivity.
Defined.


(** X7.  With distinct ProductID values, a record deleted through the
    confirmed Delete flow is gone for the lookups: the scan for its ID
    finds nothing, and the detail and edit routes for that ID show
    "Product not found" and navigate back. *)
Theorem deleted_record_is_not_found (s : State) (l : list Product) (sId : string) :
  contents s = Some <$> l ->
  Some sId ∈ ProductID <$> l ->
  NoDup (ProductID <$> l) ->
  exists s',
    Detail.flow sId OK s = Return tt s'
    /\ scan (Some sId) (contents s') 0 = NotFound
    /\ patternMatched "detail" sId s' =
       Return tt (set_log (log s' ++ [MessageToast_show "Product not found";
                                      back_from_detail s']) s')
    /\ patternMatched "edit" sId s' =
       Return tt (set_log (log s' ++ [MessageToast_show "Product not found";
                                      back_from_edit s']) s').
Proof.
  intros Hc Hin Hnd. destruct (first_at_present _ _ Hin) as (i & p & Hf).
  destruct (Detail_flow_delete_run s l sId i p Hc Hf) as (L & _ & Hrun).
  eexists. split; [exact Hrun|].
  match goal with |- context [contents ?x] => set (s' := x) end.
  assert (contents s' = Some <$> delete i l) as Hc'.
  { unfold s', contents in *. simpl. by rewrite read_array_delete, Hc, <- fmap_delete. }
  pose proof (first_at_delete_absent _ _ _ _ Hnd Hf) as Hno.
  split; [|split].
  - rewrite Hc'. by apply scan_dense_not_found.
  - by apply (Detail_onProductMatched_not_found s' (delete i l)).
  - by apply (Edit_onEditMatched_not_found s' (delete i l)).
Qed.

Lemma deleted_record_is_not_found_witness :
  exists s',
    Detail.flow "1" OK Sample.start = Return tt s'
    /\ scan (Some "1") (contents s') 0 = NotFound.
Proof.
  destruct (deleted_record_is_not_found Sample.start Sample.seed "1")
    as (s' & Hrun & Hscan & _).
  - reflexivity.
  - left.
  - apply NoDup_cons. split.
    + intros [H|H]%elem_of_cons; [discriminate H|by apply elem_of_nil in H].
    + apply NoDup_singleton.
  - exists s'. split; [exact Hrun|exact Hscan].
Defined.




Lemma getProperty_ProductID (p : Product) :
  getProperty (Some p) "ProductID" = id_value p.
Proof. reflexivity. Qed.

(** X9.  From the detail view of a record, [onEditPress] navigates to
    the edit route with the ID shown; the edit route then stores the
    index of that record and works on a copy: the form's record is an
    object of its own, equal to the JSON copy of the record, and the
    array still refers to the original.  The rows of the table are the
    properties of the record's Specifications, in the order of its
    keys. *)
Theorem edit_opens_a_copy_of_the_record_shown (s : State) (l : list Product)
    (sId : string) (i : nat) (p : Product) :
  contents s = Some <$> l ->
  first_at (Some sId) l i p ->
  exists s1 s2 L,
    (Detail._onProductMatched sId;; Detail.onEditPress) s = Return tt s1
    /\ log s1 = (log s ++ [navTo "edit" (Some (VStr sId)) false])%list
    /\ patternMatched "edit" sId s1 = Return tt s2
    /\ productIndex (edit s2) = Some i
    /\ aProducts s2 !! i = Some (Some L)
    /\ viewData (Some L) s2 = Some p
    /\ Edit_view (edit s2) <> Some L
    /\ viewData (Edit_view (edit s2)) s2 = Some (json_copy p)
    /\ Edit_specs (edit s2) = rows_of (Specifications p).
Proof.
  intros Hc Hf. pose proof Hf as (Hi & Hp & _).
  destruct (dense_slot _ _ _ _ Hc Hi) as (L & HL & Hh).
  rewrite (bind_Return _ _ _ _ _ (Detail_onProductMatched_found _ _ _ _ _ Hc Hf)).
  rewrite HL. unfold Detail.onEditPress. run.
  unfold viewData. simpl. rewrite Hh. simpl.
  rewrite getProperty_ProductID. unfold id_value. rewrite Hp. simpl.
  eexists _, _, L. split; [reflexivity|]. split; [reflexivity|].
  split; [apply (Edit_onEditMatched_found _ l sId i p); [exact Hc|exact Hf]|].
  simpl. split; [done|]. split; [done|].
  split; [by apply lookup_app_l_Some|]. split.
  - intros [= HL']. apply lookup_lt_Some in Hh. lia.
  - split; [apply lookup_snoc|done].
Qed.

Lemma edit_opens_a_copy_of_the_record_shown_witness :
  exists s1 s2,
    (Detail._onProductMatched "1";; Detail.onEditPress) Sample.start = Return tt s1
    /\ patternMatched "edit" "1" s1 = Return tt s2
    /\ productIndex (edit s2) = Some 0%nat
    /\ viewData (Edit_view (edit s2)) s2 = Some (json_copy Sample.laptop)
    /\ Edit_specs (edit s2)
       = [("Processor", "Intel Core i7-11800H"); ("RAM", "16GB DDR4")].
Proof.
  destruct (edit_opens_a_copy_of_the_record_shown Sample.start Sample.seed "1" 0 Sample.laptop)
    as (s1 & s2 & L & H1 & _ & H2 & Hi & _ & _ & _ & Hv & Hrows).
  - reflexivity.
  - split; [reflexivity|]. split; [reflexivity|]. intros j q Hj. lia.
  - exists s1, s2. split; [exact H1|]. split; [exact H2|]. split; [exact Hi|].
    split; [exact Hv|]. rewrite Hrows. reflexivity.
Defined.

Lemma first_at_insert sId (l : list Product) i p p' :
  first_at sId l i p -> ProductID p' = sId -> first_at sId (<[i := p']> l) i p'.
Proof.
  intros (Hi & Hp & Hfirst) Hp'. split.
  - apply list_lookup_insert_eq. by apply lookup_lt_Some in Hi.
  - split; [done|]. intros j q Hj Hq.
    rewrite list_lookup_insert_ne in Hq by lia. by apply (Hfirst j q).
Qed.

(** X10.  After a successful save in the Edit flow, the last effect is
    the navigation to the detail route with the ID of the record, and
    the detail route binds the view to the edited record at the same
    index, with the specification fields of the edited record, in the
    order of its keys. *)
Theorem saved_edit_is_shown_by_detail (s : State) (l : list Product)
    (sId : string) (i : nat) (p : Product)
    (u : Product -> Product) (v : list spec_row -> list spec_row) :
  contents s = Some <$> l ->
  first_at (Some sId) l i p ->
  missing (u (json_copy p)) = false ->
  exists s' s2,
    Edit.flow sId u v s = Return tt s'
    /\ last (log s') = Some (navTo "detail" (Some (VStr sId)) false)
    /\ patternMatched "detail" sId s' = Return tt s2
    /\ Detail_context (detail s2) = Some i
    /\ viewData (Detail_view (detail s2)) s2 = Some (edited p u v)
    /\ Detail_form (detail s2) = rows_of (object_of (v (rows_of (Specifications p))))
    /\ (forall k, Specifications (edited p u v) !! k =
                  if decide (k = proto) then None
                  else snd <$> last_filled k (v (rows_of (Specifications p)))).
Proof.
  intros Hc Hf Hv. pose proof Hf as (Hi & Hp & _).
  destruct (Edit_flow_saved s l sId i p u v Hc Hf Hv) as (s' & Hrun & Hc' & Hlog).
  assert (first_at (Some sId) (<[i := edited p u v]> l) i (edited p u v)) as Hf'.
  { by apply (first_at_insert _ _ _ p). }
  exists s'. eexists. split; [exact Hrun|]. split.
  { rewrite Hlog. unfold id_value. rewrite Hp. cbn [opt_string].
    rewrite (cons_middle (MessageToast_show _)), !app_assoc. apply last_snoc. }
  split; [apply (Detail_onProductMatched_found s' _ sId _ _ Hc' Hf')|].
  simpl. split; [done|]. split; [|split; [done|intros k; apply object_of_lookup]].
  destruct (dense_slot s' _ _ _ Hc' (proj1 Hf')) as (L & HL & Hh).
  unfold viewData. simpl. rewrite HL. exact Hh.
Qed.

Lemma saved_edit_is_shown_by_detail_witness :
  exists s' s2,
    Edit.flow "1" Sample.typed Sample.rows Sample.start = Return tt s'
    /\ patternMatched "detail" "1" s' = Return tt s2
    /\ viewData (Detail_view (detail s2)) s2
       = Some (edited Sample.laptop Sample.typed Sample.rows)
    /\ Detail_form (detail s2)
       = [("Processor", "Intel Core i7-11800H"); ("RAM", "16GB DDR4"); ("Color", "Black")].
Proof.
  destruct (saved_edit_is_shown_by_detail Sample.start Sample.seed "1" 0 Sample.laptop
              Sample.typed Sample.rows)
    as (s' & s2 & H1 & _ & H2 & _ & Hv & Hform & _).
  - reflexivity.
  - split; [reflexivity|]. split; [reflexivity|]. intros j q Hj. lia.
  - reflexivity.
  - exists s', s2. split; [exact H1|]. split; [exact H2|]. split; [exact Hv|].
    rewrite Hform. reflexivity.
Defined.


(** X11.  Opening a record in the Edit flow and saving without any
    input leaves the array contents as they were, provided the record
    has a name and a price, survives the JSON copy unchanged and has
    only specifications with a non-empty key and value, none under
    [proto]. *)
Theorem unchanged_edit_saves_the_same_record (s : State) (l : list Product)
    (sId : string) (i : nat) (p : Product) :
  contents s = Some <$> l ->
  first_at (Some sId) l i p ->
  missing p = false ->
  stable p ->
  exists s',
    Edit.flow sId id id s = Return tt s'
    /\ contents s' = contents s
    /\ log s' = (log s ++ [MessageToast_show "Product updated successfully";
                           navTo "detail" (Some (VStr sId)) false])%list.
Proof.
  intros Hc Hf Hv (Hjson & Hproto & Hspecs). pose proof Hf as (Hi & Hp & _).
  assert (edited p id id = p) as He.
  { unfold edited. rewrite Hjson. cbn [id].
    rewrite (object_of_rows_of_stable _ Hproto Hspecs). by destruct p. }
  destruct (Edit_flow_saved s l sId i p id id Hc Hf) as (s' & Hrun & Hc' & Hlog).
  { cbn [id]. by rewrite Hjson. }
  exists s'. split; [exact Hrun|]. split.
  - rewrite Hc', Hc, He. by rewrite list_insert_id.
  - rewrite Hlog. unfold id_value. by rewrite Hp.
Qed.

Lemma laptop_stable : stable Sample.laptop.
Proof.
  split; [reflexivity|]. split; [reflexivity|]. exact laptop_filled.
Defined.

Lemma unchanged_edit_saves_the_same_record_witness :
  exists s',
    Edit.flow "1" id id Sample.start = Return tt s'
    /\ contents s' = contents Sample.start.
Proof.
  destruct (unchanged_edit_saves_the_same_record Sample.start Sample.seed "1" 0 Sample.laptop)
    as (s' & Hrun & Hc & _).
  - reflexivity.
  - split; [reflexivity|]. split; [reflexivity|]. intros j q Hj. lia.
  - reflexivity.
  - exact laptop_stable.
  - exists s'. split; [exact Hrun|exact Hc].
Defined.

(** X12.  What is typed into the Create form or the Edit form does
    not reach the products array before Save: leaving either form
    with [onNavBack] leaves the array contents as they were, whatever
    was typed, and only the back navigation is recorded. *)
Theorem leaving_a_form_discards_the_input (s : State) (l : list Product)
    (u : Product -> Product) (v : list spec_row -> list spec_row) :
  contents s = Some <$> l ->
  (exists s',
     (Create._onCreateMatched;; Create.formInput u v;; Create.onNavBack) s = Return tt s'
     /\ contents s' = contents s
     /\ log s' =
        (log s ++ [match sPreviousHash s with
                   | Some _ => history_go (-1)
                   | None => navTo "master" None true
                   end])%list)
  /\ (forall sId i p, first_at (Some sId) l i p ->
      exists s',
        (Edit._onEditMatched sId;; Edit.formInput u v;; Edit.onNavBack) s = Return tt s'
        /\ contents s' = contents s
        /\ log s' =
           (log s ++ [match sPreviousHash s with
                      | Some _ => history_go (-1)
                      | None => navTo "detail" (Some (id_value p)) true
                      end])%list).
Proof.
  intros Hc. split.
  - rewrite (bind_Return _ _ _ _ _ (Create_onCreateMatched_run s)).
    erewrite bind_Return by (by apply Create_formInput_run).
    unfold Create.onNavBack. run.
    destruct (sPreviousHash s); (eexists; split; [reflexivity|]; split; [|done]);
      unfold contents in *; simpl; rewrite alter_snoc; by rewrite (read_array_app _ _ _ _ Hc).
  - intros sId i p Hf.
    rewrite (bind_Return _ _ _ _ _ (Edit_onEditMatched_found _ _ _ _ _ Hc Hf)).
    erewrite bind_Return by (by apply Edit_formInput_run).
    unfold Edit.onNavBack. run. rewrite alter_snoc.
    destruct (sPreviousHash s); (eexists; split; [reflexivity|]; split);
      try (unfold contents in *; simpl; by rewrite (read_array_app _ _ _ _ Hc)).
    + done.
    + simpl. unfold viewData. simpl. rewrite lookup_snoc. simpl.
      by rewrite getProperty_ProductID.
Qed.

Lemma leaving_a_form_discards_the_input_witness :
  (exists s',
     (Create._onCreateMatched;; Create.formInput Sample.typed Sample.rows;; Create.onNavBack)
       Sample.start = Return tt s'
     /\ contents s' = contents Sample.start)
  /\ (exists s',
     (Edit._onEditMatched "2";; Edit.formInput Sample.typed Sample.rows;; Edit.onNavBack)
       Sample.start = Return tt s'
     /\ contents s' = contents Sample.start).
Proof.
  destruct (leaving_a_form_discards_the_input Sample.start Sample.seed Sample.typed Sample.rows
              eq_refl) as [(s1 & H1 & Hc1 & _) Hedit].
  split; [exists s1; split; [exact H1|exact Hc1]|].
  destruct (Hedit "2" 1%nat Sample.phone) as (s2 & H2 & Hc2 & _).
  - split; [reflexivity|]. split; [reflexivity|].
    intros [|j] q Hj Hq; [injection Hq as <-; discriminate|lia].
  - exists s2. split; [exact H2|exact Hc2].
Defined.

(** X13.  Selecting a list item navigates to the detail route with the
    ProductID of its record and logs that ID; the detail route binds
    the first record of the array with that ID, which is the selected
    record itself when the ProductID values are distinct. *)
Theorem selected_item_opens_first_record_with_its_id (s : State) (l : list Product)
    (iItem : nat) (p : Product) (sId : string) :
  contents s = Some <$> l ->
  l !! iItem = Some p ->
  ProductID p = Some sId ->
  exists s1 s2 j q,
    onSelectionChange iItem s = Return ("Navigating to product: " ++ sId) s1
    /\ s1 = set_log (log s ++ [navTo "detail" (Some (VStr sId)) false]) s
    /\ first_at (Some sId) l j q
    /\ (j <= iItem)%nat
    /\ patternMatched "detail" sId s1 = Return tt s2
    /\ Detail_context (detail s2) = Some j
    /\ viewData (Detail_view (detail s2)) s2 = Some q
    /\ (NoDup (ProductID <$> l) -> j = iItem /\ q = p).
Proof.
  intros Hc Hi Hp.
  assert (Some sId ∈ ProductID <$> l) as Hin.
  { apply list_elem_of_fmap. exists p. split; [done|]. apply list_elem_of_lookup. by exists iItem. }
  destruct (first_at_present _ _ Hin) as (j & q & Hf).
  pose proof Hf as (Hj & Hq & Hfirst).
  assert (j <= iItem)%nat as Hle.
  { destruct (Nat.le_gt_cases j iItem) as [|Hlt]; [done|].
    by destruct (Hfirst iItem p Hlt Hi). }
  eexists _, _, j, q. split.
  { unfold onSelectionChange. run. rewrite Hc, list_lookup_fmap, Hi. simpl.
    rewrite getProperty_ProductID. unfold id_value. rewrite Hp. simpl.
    change (ToString (VStr sId)) with sId. reflexivity. }
  split; [reflexivity|]. split; [exact Hf|]. split; [exact Hle|].
  split; [apply (Detail_onProductMatched_found _ l sId j q); [exact Hc|exact Hf]|].
  simpl. split; [done|]. split.
  - destruct (dense_slot _ _ _ _ Hc Hj) as (L & HL & Hh).
    unfold viewData. simpl. rewrite HL. exact Hh.
  - intros Hnd.
    assert (j = iItem) as ->.
    { eapply NoDup_lookup; [exact Hnd| |].
      - by rewrite list_lookup_fmap, Hj; simpl; rewrite Hq.
      - by rewrite list_lookup_fmap, Hi; simpl; rewrite Hp. }
    split; [done|]. congruence.
Qed.

Lemma selected_item_opens_first_record_with_its_id_witness :
  exists s1 s2,
    onSelectionChange 1 Sample.start = Return "Navigating to product: 2" s1
    /\ patternMatched "detail" "2" s1 = Return tt s2
    /\ viewData (Detail_view (detail s2)) s2 = Some Sample.phone.
Proof.
  destruct (selected_item_opens_first_record_with_its_id Sample.start Sample.seed 1
              Sample.phone "2")
    as (s1 & s2 & j & q & H1 & _ & _ & _ & H2 & _ & Hv & Hu).
  - reflexivity.
  - reflexivity.
  - reflexivity.
  - exists s1, s2. split; [exact H1|]. split; [exact H2|].
    destruct Hu as [_ <-]; [|exact Hv].
    apply NoDup_cons. split.
    + intros [H|H]%elem_of_cons; [discriminate H|by apply elem_of_nil in H].
    + apply NoDup_singleton.
Defined.


Lemma remove_absent k (l : list spec_row) : k ∉ l.*1 -> Obj.remove k l = l.
Proof.
  induction l as [|[k' v'] r IH]; [done|]. intros Hnin.
  apply not_elem_of_cons in Hnin as [Hne Hnin]. unfold Obj.remove in *. simpl in *.
  destruct (String.eqb_spec k' k) as [->|]; [done|]. simpl. f_equal. by apply IH.
Qed.

(** Deleting the row of a key from rows with distinct keys removes
    the property of that key. *)
Lemma delete_row_remove (l : list spec_row) : forall i k v,
  NoDup l.*1 -> l !! i = Some (k, v) -> delete i l = Obj.remove k l.
Proof.
  induction l as [|[k0 v0] r IH]; intros i k v Hnd Hi; [done|].
  apply NoDup_cons in Hnd as [Hnin Hnd]. unfold Obj.remove. simpl.
  destruct i as [|i]; simpl in Hi.
  - injection Hi as -> ->. rewrite String.eqb_refl. simpl.
    symmetry. by apply remove_absent.
  - destruct (String.eqb_spec k0 k) as [->|Hne].
    + destruct Hnin. apply list_elem_of_fmap. exists (k, v). split; [done|].
      apply list_elem_of_lookup. by exists i.
    + simpl. f_equal. by apply (IH i k v).
Qed.

Lemma object_of_delete_row (o : object) i k v :
  rows_of o !! i = Some (k, v) ->
  o !! proto = None ->
  (forall k v, o !! k = Some v -> filled (k, v) = true) ->
  object_of (delete i (rows_of o)) = delete k o.
Proof.
  intros Hi Hproto Hfilled. apply object_eq. rewrite props_delete.
  rewrite (delete_row_remove _ i k v (rows_of_NoDup o) Hi). unfold rows_of.
  apply object_of_props; [apply remove_ordered, props_ordered|].
  intros [k' v'] Hin. unfold Obj.remove in Hin.
  apply list_elem_of_In, filter_In in Hin as [Hin _].
  apply list_elem_of_In, lookup_rows_of in Hin.
  split; [by apply Hfilled|]. simpl. intros ->. congruence.
Qed.

Lemma Edit_onDeleteSpecification_run i s :
  Edit.onDeleteSpecification (Some i) s =
  Return tt (set_edit (mkEdit (Edit_view (edit s)) (productIndex (edit s))
                         (delete i (Edit_specs (edit s)))) s).
Proof. reflexivity. Qed.

Lemma Edit_onAddSpecification_run s :
  Edit.onAddSpecification s =
  Return tt (set_edit (mkEdit (Edit_view (edit s)) (productIndex (edit s))
                         (Edit_specs (edit s) ++ [("", "")])%list) s).
Proof. reflexivity. Qed.

(** X14.  In the Edit flow of a record with a name, a price and only
    non-empty specifications (a stable record): deleting a row of the
    specifications table and saving removes exactly the key of that
    row from the Specifications of the record, and adding a row that
    is left blank and saving leaves the array contents as they were. *)
Theorem deleting_a_row_removes_its_key (s : State) (l : list Product)
    (sId : string) (i : nat) (p : Product) (iRow : nat) (k v : string) :
  contents s = Some <$> l ->
  first_at (Some sId) l i p ->
  missing p = false ->
  stable p ->
  rows_of (Specifications p) !! iRow = Some (k, v) ->
  (exists s',
     (Edit._onEditMatched sId;; Edit.onDeleteSpecification (Some iRow);; Edit.onSavePress) s
     = Return tt s'
     /\ contents s' =
        Some <$> <[i := set_Specifications (delete k (Specifications p)) p]> l)
  /\ (exists s',
     (Edit._onEditMatched sId;; Edit.onAddSpecification;; Edit.onSavePress) s
     = Return tt s'
     /\ contents s' = contents s).
Proof.
  intros Hc Hf Hv (Hjson & Hproto & Hspecs) Hrow. pose proof Hf as (Hi & Hp & _).
  assert (length (aProducts s) = length l) as Hlen.
  { unfold contents in Hc.
    assert (length (read_array (heap s) (aProducts s)) = length l) as Hlen
      by (by rewrite Hc, length_fmap).
    unfold read_array in Hlen. by rewrite length_fmap in Hlen. }
  pose proof (lookup_lt_Some _ _ _ Hi) as Hlt.
  split.
  - rewrite (bind_Return _ _ _ _ _ (Edit_onEditMatched_found _ _ _ _ _ Hc Hf)).
    erewrite bind_Return by apply Edit_onDeleteSpecification_run.
    simpl. rewrite Hjson.
    erewrite Edit_onSavePress_saved; [|done|apply lookup_snoc|done|done].
    eexists. split; [reflexivity|].
    unfold contents in *. simpl. rewrite alter_snoc.
    unfold array_set.
    destruct (Nat.ltb_spec i (length (aProducts s))) as [_|?]; [|lia].
    rewrite read_array_insert, lookup_snoc, (read_array_app _ _ _ _ Hc).
    rewrite list_fmap_insert. by rewrite (object_of_delete_row _ _ _ _ Hrow Hproto Hspecs).
  - rewrite (bind_Return _ _ _ _ _ (Edit_onEditMatched_found _ _ _ _ _ Hc Hf)).
    erewrite bind_Return by apply Edit_onAddSpecification_run.
    simpl. rewrite Hjson.
    erewrite Edit_onSavePress_saved; [|done|apply lookup_snoc|done|done].
    eexists. split; [reflexivity|].
    unfold contents in *. simpl. rewrite alter_snoc.
    unfold array_set.
    destruct (Nat.ltb_spec i (length (aProducts s))) as [_|?]; [|lia].
    rewrite read_array_insert, lookup_snoc, (read_array_app _ _ _ _ Hc).
    rewrite Hc, <- list_fmap_insert.
    assert (object_of (rows_of (Specifications p) ++ [("", "")])%list = Specifications p) as ->.
    { unfold object_of. rewrite fold_left_app. simpl.
      apply (object_of_rows_of_stable _ Hproto Hspecs). }
    replace (set_Specifications (Specifications p) p) with p by (by destruct p).
    by rewrite list_insert_id.
Qed.


Lemma deleting_a_row_removes_its_key_witness :
  exists s',
    (Edit._onEditMatched "1";; Edit.onDeleteSpecification (Some 0%nat);; Edit.onSavePress)
      Sample.start = Return tt s'
    /\ contents s' =
       [Some (set_Specifications (delete "Processor" (Specifications Sample.laptop))
                Sample.laptop);
        Some Sample.phone]
    /\ rows_of (delete "Processor" (Specifications Sample.laptop)) = [("RAM", "16GB DDR4")].
Proof.
  destruct (deleting_a_row_removes_its_key Sample.start Sample.seed "1" 0 Sample.laptop
              0 "Processor" "Intel Core i7-11800H")
    as [(s' & Hrun & Hc) _].
  - reflexivity.
  - split; [reflexivity|]. split; [reflexivity|]. intros j q Hj. lia.
  - reflexivity.
  - exact laptop_stable.
  - reflexivity.
  - exists s'. split; [exact Hrun|]. split; [exact Hc|reflexivity].
Defined.

(** *** Saving at a stored index *)

Lemma array_set_length {A} (i : nat) (x : A) (a : list (option A)) :
  length (array_set i x a) = Nat.max (length a) (S i).
Proof.
  unfold array_set. destruct (Nat.ltb_spec i (length a)).
  - rewrite length_insert. lia.
  - rewrite !length_app, length_replicate. simpl. lia.
Qed.

Lemma array_set_lookup {A} (i : nat) (x : A) (a : list (option A)) j :
  array_set i x a !! j =
  if decide (j = i) then Some (Some x)
  else if decide (j < length a)%nat then a !! j
  else if decide (j < i)%nat then Some None
  else None.
Proof.
  unfold array_set. destruct (Nat.ltb_spec i (length a)).
  - destruct (decide (j = i)) as [->|Hne].
    + by apply list_lookup_insert_eq.
    + rewrite list_lookup_insert_ne by done.
      destruct (decide (j < length a)%nat); [done|].
      rewrite lookup_ge_None_2 by lia.
      destruct (decide (j < i)%nat); [lia|done].
  - destruct (decide (j < length a)%nat).
    + destruct (decide (j = i)); [lia|]. by apply lookup_app_l.
    + rewrite lookup_app_r by lia.
      destruct (decide (j = i)) as [->|Hne].
      * rewrite lookup_app_r by (rewrite length_replicate; lia).
        rewrite length_replicate. by replace (i - length a - (i - length a))%nat with 0%nat by lia.
      * destruct (decide (j < i)%nat).
        -- rewrite lookup_app_l by (rewrite length_replicate; lia).
           apply lookup_replicate_2. lia.
        -- apply lookup_ge_None_2. rewrite length_app, length_replicate. simpl. lia.
Qed.

(** X15.  [onSavePress] of Edit writes at the stored index without
    comparing it with the length of the array: the slot at that index
    refers to the form's record, the other existing slots are
    untouched and the length becomes the larger of the old length and
    the index plus one.  When the index lies beyond the end, the slots
    in between are empty, and the detail route for an ID that is not
    found before them throws a TypeError. *)
Theorem edit_save_writes_at_the_stored_index (s : State) (L i : nat) (p : Product) :
  Edit_view (edit s) = Some L ->
  heap s !! L = Some p ->
  missing p = false ->
  productIndex (edit s) = Some i ->
  exists s',
    Edit.onSavePress s = Return tt s'
    /\ length (aProducts s') = Nat.max (length (aProducts s)) (S i)
    /\ aProducts s' !! i = Some (Some L)
    /\ (forall j, j <> i -> (j < length (aProducts s))%nat ->
          aProducts s' !! j = aProducts s !! j)
    /\ (forall j, (length (aProducts s) <= j < i)%nat -> contents s' !! j = Some None)
    /\ (forall (l : list Product) sId,
          contents s = Some <$> l -> (length l < i)%nat ->
          Some sId ∉ ProductID <$> l ->
          Detail._onProductMatched sId s' = Throw TypeError s').
Proof.
  intros HL Hp Hv Hi.
  rewrite (Edit_onSavePress_saved s L p i HL Hp Hv Hi).
  eexists. split; [reflexivity|]. simpl.
  split; [apply array_set_length|].
  split; [by rewrite array_set_lookup, decide_True|].
  split; [intros j Hne Hlt; by rewrite array_set_lookup, decide_False, decide_True|].
  split.
  - intros j [Hge Hlt]. unfold contents, read_array. simpl.
    rewrite list_lookup_fmap, array_set_lookup.
    rewrite decide_False by lia. rewrite decide_False by lia. by rewrite decide_True.
  - intros l sId Hc Hlen Hout.
    assert (length (aProducts s) = length l) as Hlena.
    { unfold contents in Hc.
      assert (length (read_array (heap s) (aProducts s)) = length l) as Hlen'
        by (by rewrite Hc, length_fmap).
      unfold read_array in Hlen'. by rewrite length_fmap in Hlen'. }
    unfold Detail._onProductMatched. run.
    unfold contents. simpl. unfold array_set.
    destruct (Nat.ltb_spec i (length (aProducts s))) as [?|_]; [lia|].
    destruct (i - length (aProducts s))%nat as [|n] eqn:Hn; [lia|].
    unfold read_array. rewrite fmap_app. simpl.
    rewrite scan_gap; [done|].
    apply Forall_lookup. intros j x Hx.
    rewrite list_lookup_fmap in Hx.
    destruct (aProducts s !! j) as [slot|] eqn:Hslot; [|done]. injection Hx as <-.
    destruct (read_array_dense_lookup _ _ _ _ _ Hc Hslot) as (Lj & q & -> & Hh & Hq).
    simpl. destruct (decide (Lj = L)) as [->|Hne].
    + exists (set_Specifications (object_of (Edit_specs (edit s))) q). split.
      { rewrite list_lookup_alter_eq.
        exact (f_equal (fmap (set_Specifications (object_of (Edit_specs (edit s))))) Hh). }
      cbn [ProductID set_Specifications].
      intros Hid. apply Hout, list_elem_of_fmap. exists q. split; [done|].
      apply list_elem_of_lookup. by exists j.
    + exists q. split; [rewrite list_lookup_alter_ne by done; exact Hh|].
      intros Hid. apply Hout, list_elem_of_fmap. exists q. split; [done|].
      apply list_elem_of_lookup. by exists j.
Qed.


Lemma edit_save_writes_at_the_stored_index_witness :
  exists s',
    Edit.onSavePress Scenario.shrunk = Return tt s'
    /\ contents Scenario.shrunk = []
    /\ contents s' !! 0%nat = Some None
    /\ length (aProducts s') = 2%nat
    /\ Detail._onProductMatched "2" s' = Throw TypeError s'.
Proof.
  destruct (edit_save_writes_at_the_stored_index Scenario.shrunk 2 1 (json_copy Sample.phone))
    as (s' & Hrun & Hlen & _ & _ & Hgap & Hthrow).
  - reflexivity.
  - reflexivity.
  - reflexivity.
  - reflexivity.
  - exists s'. split; [exact Hrun|]. split; [reflexivity|].
    split; [apply Hgap; simpl; lia|]. split; [exact Hlen|].
    apply (Hthrow []); [reflexivity|simpl; lia|].
    intros H. by apply elem_of_nil in H.
Defined.

End Journeys.

Section DensityClass.
Import JS App Component.

Lemma truthy_VStr (c : string) : truthy (VStr c) = negb (c =? "").
Proof. reflexivity. Qed.

Lemma calls_set (c : string) (envs : list Env) :
  c <> "" -> calls envs (Some c) = replicate (length envs) (VStr c).
Proof.
  intros Hc. induction envs as [|env rest IH]; [done|].
  cbn [calls length replicate]. unfold getContentDensityClass. cbn [opt_string].
  rewrite truthy_VStr. destruct (String.eqb_spec c ""); [done|].
  cbn [negb fst snd opt_string]. by rewrite IH.
Qed.

Lemma calls_empty (envs : list Env) : calls envs (Some "") = calls envs None.
Proof. by destruct envs. Qed.

Lemma calls_cons env rest :
  calls (env :: rest) None =
  VStr (density env) :: (if decide (density env = "") then calls rest None
                         else replicate (length rest) (VStr (density env))).
Proof.
  cbn [calls]. unfold getContentDensityClass. cbn [opt_string truthy negb fst snd].
  f_equal. destruct (decide (density env = "")) as [->|Hne].
  - apply calls_empty.
  - by apply calls_set.
Qed.

Lemma density_cases env :
  density env = "" \/ density env = "sapUiSizeCompact" \/ density env = "sapUiSizeCozy".
Proof.
  unfold density.
  destruct (contains env "sapUiSizeCozy" || contains env "sapUiSizeCompact"); [by left|].
  destruct (touch env); simpl; auto.
Qed.

Lemma calls_length envs o : length (calls envs o) = length envs.
Proof.
  revert o. induction envs as [|env rest IH]; intros o; [done|].
  simpl. by rewrite IH.
Qed.

(** X16.  [getContentDensityClass], called any number of times from
    an unset field: every result is the empty string,
    "sapUiSizeCompact" or "sapUiSizeCozy"; once a non-empty class has
    been returned, every later call returns it, whatever the document
    body and the device say by then; the empty class is not kept: as
    long as all earlier results were empty, a call computes its result
    from the surroundings of that call. *)
Theorem density_class_is_kept_once_set (envs : list Env) :
  (forall i r, calls envs None !! i = Some r ->
     r = VStr "" \/ r = VStr "sapUiSizeCompact" \/ r = VStr "sapUiSizeCozy")
  /\ (forall i j c, calls envs None !! i = Some (VStr c) -> c <> "" ->
        (i <= j < length envs)%nat -> calls envs None !! j = Some (VStr c))
  /\ (forall i env, envs !! i = Some env ->
        (forall k, (k < i)%nat -> calls envs None !! k = Some (VStr "")) ->
        calls envs None !! i = Some (VStr (density env))).
Proof.
  induction envs as [|env rest (IH1 & IH2 & IH3)].
  { split; [|split]; intros; simpl in *; try done; lia. }
  rewrite calls_cons. split; [|split].
  - intros [|i] r Hr.
    + injection Hr as <-.
      destruct (density_cases env) as [->|[->| ->]]; auto.
    + cbn [lookup list_lookup] in Hr. destruct (decide (density env = "")).
      * by apply (IH1 i).
      * apply lookup_replicate in Hr as [-> _].
        destruct (density_cases env) as [->|[->| ->]]; auto.
  - intros i j c Hi Hc [Hij Hj]. simpl in Hj.
    destruct (decide (density env = "")) as [He|He].
    + destruct i as [|i]; [injection Hi as <-; done|].
      destruct j as [|j]; [lia|]. cbn [lookup list_lookup] in *.
      apply (IH2 i j c Hi Hc). lia.
    + assert (c = density env) as ->.
      { destruct i as [|i]; [by injection Hi|].
        cbn [lookup list_lookup] in Hi. apply lookup_replicate in Hi as [[= ->] _]. done. }
      destruct j as [|j]; [done|]. cbn [lookup list_lookup].
      apply lookup_replicate_2. lia.
  - intros [|i] env' Hi Hprev.
    + by injection Hi as ->.
    + cbn [lookup list_lookup] in Hi |- *.
      pose proof (Hprev 0%nat ltac:(lia)) as H0. injection H0 as H0.
      rewrite decide_True by done.
      apply (IH3 i env' Hi). intros k Hk.
      pose proof (Hprev (S k) ltac:(lia)) as Hk'. cbn [lookup list_lookup] in Hk'.
      by rewrite decide_True in Hk' by done.
Qed.

Lemma density_class_is_kept_once_set_witness :
  calls [mkEnv ["sapUiSizeCozy"] true; mkEnv [] false; mkEnv [] true] None
  = [VStr ""; VStr "sapUiSizeCompact"; VStr "sapUiSizeCompact"]
  /\ calls [mkEnv ["sapUiSizeCozy"] true; mkEnv [] false; mkEnv [] true] None !! 2%nat
     = Some (VStr "sapUiSizeCompact").
Proof.
  split; [reflexivity|].
  destruct (density_class_is_kept_once_set
              [mkEnv ["sapUiSizeCozy"] true; mkEnv [] false; mkEnv [] true])
    as (_ & Hkept & _).
  apply (Hkept 1%nat 2%nat "sapUiSizeCompact").
  - reflexivity.
  - discriminate.
  - simpl. lia.
Defined.

End DensityClass.

Section MasterList.
Import JS UI5 App Spec Navigation.

Lemma Master_onSort_run s :
  Master.onSort s =
  Return tt
    (set_log (log s ++ [MessageToast_show
                          (if negb (_bDescendingSort (master s))
                           then "Sorted Z to A" else "Sorted A to Z")])
       (set_master (mkMaster (negb (_bDescendingSort (master s)))
                      (Master_filters (master s))
                      (Some ("Name", negb (_bDescendingSort (master s))))) s)).
Proof. reflexivity. Qed.

(** The toast of the [k]-th press (counted from 0) when the list was
    sorted with direction [b] before the first press. *)
Lemma sort_toast_shift (b : bool) (n : nat) :
  (fun k => MessageToast_show
              (if xorb (Nat.odd (S k)) (negb b) then "Sorted Z to A" else "Sorted A to Z"))
    <$> seq 0 n
  = (fun k => MessageToast_show
                (if xorb (Nat.odd (S k)) b then "Sorted Z to A" else "Sorted A to Z"))
      <$> seq 1 n.
Proof.
  rewrite <- fmap_S_seq, <- list_fmap_compose. apply list_fmap_ext.
  intros _ k _. simpl. f_equal.
  change (Nat.odd (S (S k))) with (Nat.odd k).
  rewrite Nat.odd_succ, <- Nat.negb_odd. by destruct (Nat.odd k), b.
Qed.

(** X17.  Pressing Sort [n] times flips the direction [n] times: the
    list is sorted descending afterwards exactly when [n] is odd and
    it was ascending before, or [n] is even and it was descending; the
    sorter is on Name with that direction, the toasts alternate
    starting with the direction of the first press, and neither the
    search filter nor the products array changes. *)
Theorem sort_presses_alternate (n : nat) (s : State) :
  exists s',
    presses n s = Return tt s'
    /\ _bDescendingSort (master s') = xorb (Nat.odd n) (_bDescendingSort (master s))
    /\ ((0 < n)%nat ->
        Master_sorter (master s') = Some ("Name", _bDescendingSort (master s')))
    /\ Master_filters (master s') = Master_filters (master s)
    /\ contents s' = contents s
    /\ log s' =
       (log s ++
        ((fun k => MessageToast_show
                     (if xorb (Nat.odd (S k)) (_bDescendingSort (master s))
                      then "Sorted Z to A" else "Sorted A to Z")) <$> seq 0 n))%list.
Proof.
  revert s. induction n as [|n IH]; intros s.
  - exists s. split; [done|]. split; [by destruct (_bDescendingSort (master s))|].
    split; [lia|]. split; [done|]. split; [done|]. simpl. by rewrite app_nil_r.
  - cbn [presses]. rewrite (bind_Return _ _ _ _ _ (Master_onSort_run s)).
    match goal with |- context [presses n ?x] => destruct (IH x) as (s' & Hrun & Hb & Hs & Hf & Hc & Hlog) end.
    simpl in Hb, Hf, Hc, Hlog.
    exists s'. split; [exact Hrun|]. split.
    { rewrite Hb, Nat.odd_succ, <- Nat.negb_odd.
      by destruct (Nat.odd n), (_bDescendingSort (master s)). }
    split.
    { intros _. destruct n as [|n]; [|apply Hs; lia].
      injection Hrun as <-. simpl. reflexivity. }
    split; [exact Hf|]. split; [exact Hc|].
    rewrite Hlog, sort_toast_shift, <- app_assoc. simpl. reflexivity.
Qed.

Lemma sort_presses_alternate_witness :
  exists s',
    presses 3 Sample.start = Return tt s'
    /\ _bDescendingSort (master s') = true
    /\ Master_sorter (master s') = Some ("Name", true)
    /\ log s' = [MessageToast_show "Sorted Z to A"; MessageToast_show "Sorted A to Z";
                 MessageToast_show "Sorted Z to A"].
Proof.
  destruct (sort_presses_alternate 3 Sample.start) as (s' & Hrun & Hb & Hs & _ & _ & Hlog).
  exists s'. split; [exact Hrun|]. split; [exact Hb|]. split; [|exact Hlog].
  rewrite (Hs ltac:(lia)), Hb. reflexivity.
Defined.

(** X18.  A new search replaces the filter of the previous one: two
    searches in a row leave the state of the second alone, so the
    binding's filter keeps the matches of the second query among all
    products (in array order, before the sorter), not among the
    matches of the first; and a search followed by a press of Sort
    gives the same state as the two in the other order. *)
Theorem search_replaces_and_commutes_with_sort (s : State) (l : list Product)
    (query newValue query' newValue' : option string) :
  contents s = Some <$> l ->
  (Master.onSearch query newValue;; Master.onSearch query' newValue') s
  = Master.onSearch query' newValue' s
  /\ (exists s',
        (Master.onSearch query newValue;; Master.onSearch query' newValue') s = Return tt s'
        /\ Master.kept s' =
           Some (Some <$>
                   match Master.or_else query' newValue' with
                   | Some q => if decide (q = "") then l else List.filter (matches_ci q) l
                   | None => l
                   end))
  /\ (Master.onSearch query newValue;; Master.onSort) s
     = (Master.onSort;; Master.onSearch query newValue) s.
Proof.
  intros Hc.
  assert ((Master.onSearch query newValue;; Master.onSearch query' newValue') s
          = Master.onSearch query' newValue' s) as Hrepl.
  { rewrite (bind_Return _ _ _ _ _ (Master_onSearch_run query newValue s)).
    by rewrite !Master_onSearch_run. }
  split; [exact Hrepl|]. split.
  - rewrite Hrepl, Master_onSearch_run. eexists. split; [reflexivity|].
    unfold Master.kept.
    change (contents (set_master ?m s)) with (contents s). rewrite Hc.
    cbn [master set_master Master_filters].
    assert (forall a : list (option Product), apply getProperty a None = Some a)
      as Hclear by (by intros []).
    destruct (Master.or_else query' newValue') as [q|]; [|apply Hclear].
    destruct (decide (q = "")) as [_|_]; [apply Hclear|].
    apply apply_search_filter.
  - rewrite (bind_Return _ _ _ _ _ (Master_onSearch_run query newValue s)).
    rewrite (bind_Return _ _ _ _ _ (Master_onSort_run s)).
    by rewrite Master_onSort_run, Master_onSearch_run.
Qed.

Lemma search_replaces_and_commutes_with_sort_witness :
  exists s',
    (Master.onSearch (Some "laptop") None;; Master.onSearch (Some "phone") None) Sample.start
    = Return tt s'
    /\ Master.kept s' = Some [Some Sample.phone].
Proof.
  destruct (search_replaces_and_commutes_with_sort Sample.start Sample.seed
              (Some "laptop") None (Some "phone") None eq_refl)
    as (_ & (s' & Hrun & Hitems) & _).
  exists s'. split; [exact Hrun|exact Hitems].
Defined.

End MasterList.

Section WholePrices.
Import JS formatter Spec.

Lemma toFixed_whole n :
  (n < 2 ^ 53)%N -> toFixed (Finite false n 0) 2 = decimal n ++ ".00".
Proof.
  intros Hn. rewrite toFixed_two.
  - unfold two_decimals, hundredths. cbn [andb].
    change (2 ^ N.of_nat 0)%N with 1%N.
    replace ((2 * n * 100 + 1) / (2 * 1))%N with (n * 100)%N.
    + rewrite N.div_mul by lia.
      replace (n * 100)%N with (n * 10 * 10)%N by lia.
      rewrite N.div_mul, !N.Div0.mod_mul by lia.
      reflexivity.
    + apply (N.div_unique _ _ _ 1); lia.
  - change (2 ^ Z.of_nat 0)%Z with 1%Z. rewrite Z.mul_1_r.
    assert (Z.of_N n < 2 ^ 53)%Z by (change (2 ^ 53)%Z with (Z.of_N (2 ^ 53)); lia).
    assert (2 ^ 53 < 10 ^ 21)%Z by done. lia.
Qed.

(** X19.  For a whole number [n < 2^53], [formatPrice] shows the price
    given as the string of [n] as that string followed by ".00", also
    for "0"; given as the number [n], it shows the same for [n > 0]
    and the empty string for 0. *)
Theorem formatPrice_whole_number (n : N) (currency : value) :
  (n < 2 ^ 53)%N ->
  formatPrice (VStr (decimal n)) currency = decimal n ++ ".00"
  /\ formatPrice (VNum (Finite false n 0)) currency
     = if (n =? 0)%N then "" else decimal n ++ ".00".
Proof.
  intros Hn. split.
  - unfold formatPrice.
    assert (truthy (VStr (decimal n)) = true) as ->.
    { simpl. destruct (String.eqb_spec (decimal n) "") as [He|]; [|done].
      pose proof (decimal_length_pos n) as Hpos. rewrite He in Hpos. simpl in Hpos. lia. }
    cbn [negb]. unfold parseFloat. cbn [ToString].
    rewrite parseFloat_string_decimal by done. by apply toFixed_whole.
  - destruct (N.eqb_spec n 0) as [->|Hne]; [reflexivity|].
    apply formatPrice_integer. lia.
Qed.

Lemma formatPrice_whole_number_witness :
  formatPrice (VStr "0") (VStr "USD") = "0.00"
  /\ formatPrice (VNum (Finite false 0 0)) (VStr "USD") = ""
  /\ formatPrice (VStr "25") (VStr "USD") = "25.00".
Proof.
  destruct (formatPrice_whole_number 0 (VStr "USD")) as [H0 H0']; [reflexivity|].
  destruct (formatPrice_whole_number 25 (VStr "USD")) as [H25 _]; [reflexivity|].
  split; [exact H0|]. split; [exact H0'|exact H25].
Defined.

End WholePrices.
